(** * Advanced Research Tool: the research orchestrator of [assets/app.js]

    A shallow embedding of the class [AdvancedResearcher] and of the utility
    functions it calls, followed by the properties of the orchestrator that
    its design document states.

    Conventions of the embedding.
    - A JavaScript string is the list of its UTF-16 code units ([jsstring]);
      [js "..."] writes an ASCII literal.
    - An [async] method is a state transformer over a [World]: the researcher
      object, the position in the two environment oracles (the completion
      service and the wall clock) and the list of the effects performed so
      far (requests issued, observer callbacks, console lines).
    - A thrown [Error] is the [Err] result of a computation; [try]/[catch] is
      [try_catch].
    - [cancel()] can be called by the host while a request is in flight; the
      oracle says, for each request, whether that happened.
    - The observer callbacks are recorded as effects; they return normally
      and do not call back into the researcher.
    - [iterations] is an integer, [depth] a string, as the form supplies
      them. *)

From Stdlib Require Import Ascii String.
From Stdlib Require Import List NArith ZArith Bool Lia Arith.
From Stdlib Require Import QArith_base.
From Stdlib Require DecimalString.
Import ListNotations.
Local Close Scope Q_scope.
#[local] Set Warnings "-notation-for-abbreviation,-abstract-large-number".
Local Open Scope nat_scope.
Local Open Scope list_scope.

(* ===================================================================== *)
(** ** JavaScript strings *)
(* ===================================================================== *)

Module JsString.

Definition jsstring := list N.

(** An ASCII literal as code units. *)
Definition js (s : string) : jsstring :=
  map N_of_ascii (list_ascii_of_string s).

Definition LF : N := 10%N.
Definition CR : N := 13%N.
(** The double quote, U+0022. *)
Definition DQ : jsstring := [34%N].
(** The en dash, U+2013, of the per-perspective call labels. *)
Definition EN_DASH : jsstring := [8211%N].

(** ECMAScript [WhiteSpace] or [LineTerminator]: what [trim] strips and what
    the class escape [\s] matches. *)
Definition is_ws (c : N) : bool :=
  ((9 <=? c) && (c <=? 13) || (c =? 32) || (c =? 160) || (c =? 5760)
   || ((8192 <=? c) && (c <=? 8202)) || (c =? 8232) || (c =? 8233)
   || (c =? 8239) || (c =? 8287) || (c =? 12288) || (c =? 65279))%N.

(** ECMAScript [LineTerminator]: what [.] refuses. *)
Definition is_line_terminator (c : N) : bool :=
  ((c =? 10) || (c =? 13) || (c =? 8232) || (c =? 8233))%N.

(** [\d] without the unicode flag. *)
Definition is_digit (c : N) : bool := ((48 <=? c) && (c <=? 57))%N.

(** [[.)]] *)
Definition is_dot_or_paren (c : N) : bool := ((c =? 46) || (c =? 41))%N.

(** [.] *)
Definition is_any (c : N) : bool := negb (is_line_terminator c).

Fixpoint drop_while (p : N -> bool) (s : jsstring) : jsstring :=
  match s with
  | [] => []
  | c :: s' => if p c then drop_while p s' else s
  end.

Fixpoint take_while (p : N -> bool) (s : jsstring) : jsstring :=
  match s with
  | [] => []
  | c :: s' => if p c then c :: take_while p s' else []
  end.

Definition trimStart (s : jsstring) : jsstring := drop_while is_ws s.
Definition trimEnd (s : jsstring) : jsstring := rev (drop_while is_ws (rev s)).

(** [String.prototype.trim] *)
Definition trim (s : jsstring) : jsstring := trimEnd (trimStart s).

(** [s.slice(0, n)] for [0 <= n] *)
Definition slice0 (n : nat) (s : jsstring) : jsstring := firstn n s.

(** A string is falsy exactly when it is empty. *)
Definition truthy (s : jsstring) : bool :=
  match s with [] => false | _ => true end.

(** [a || b] on strings *)
Definition or_else (a b : jsstring) : jsstring := if truthy a then a else b.

Definition jsstring_eqb (a b : jsstring) : bool :=
  if list_eq_dec N.eq_dec a b then true else false.

(** [s.split(sep)] for a one-unit separator: always at least one piece. *)
Fixpoint split_on (sep : N) (s : jsstring) : list jsstring :=
  match s with
  | [] => [[]]
  | c :: s' =>
      if (c =? sep)%N then [] :: split_on sep s'
      else match split_on sep s' with
           | [] => [[c]]
           | piece :: pieces => (c :: piece) :: pieces
           end
  end.

(** [sections.join(sep)] *)
Fixpoint join (sep : jsstring) (parts : list jsstring) : jsstring :=
  match parts with
  | [] => []
  | [p] => p
  | p :: ps => p ++ sep ++ join sep ps
  end.

(** Decimal rendering of an integer, as template literals do. *)
Definition of_Z (z : Z) : jsstring :=
  js (DecimalString.NilZero.string_of_int (Z.to_int z)).

Definition of_nat (n : nat) : jsstring := of_Z (Z.of_nat n).

End JsString.
Export JsString.

(* ===================================================================== *)
(** ** Regular expressions: the fragment the orchestrator uses *)
(* ===================================================================== *)

Module Regex.

(** Greedy, backtracking matching as ECMAScript specifies it, for patterns
    built from character classes, sequencing, a starred class, capture
    groups and the end anchor. *)
Inductive regex : Type :=
| Class (p : N -> bool)
| Seq (r1 r2 : regex)
| StarClass (p : N -> bool)
| Group (r : regex)
| Eos.

(** [p+] *)
Definition PlusClass (p : N -> bool) : regex := Seq (Class p) (StarClass p).

Section Matcher.
Variable R : Type.

(** The continuation receives the rest of the input and the captures
    closed so far. *)
Definition cont := jsstring -> list jsstring -> option R.

(** Greedy star: take as many units as possible, give them back one at a
    time while the continuation fails. *)
Fixpoint star (p : N -> bool) (k : cont) (caps : list jsstring)
         (s : jsstring) : option R :=
  match s with
  | c :: s' =>
      if p c then
        match star p k caps s' with
        | Some r => Some r
        | None => k s caps
        end
      else k s caps
  | [] => k [] caps
  end.

Fixpoint run (r : regex) (s : jsstring) (caps : list jsstring)
         (k : cont) : option R :=
  match r with
  | Class p =>
      match s with
      | c :: s' => if p c then k s' caps else None
      | [] => None
      end
  | Seq r1 r2 => run r1 s caps (fun s' caps' => run r2 s' caps' k)
  | StarClass p => star p k caps s
  | Group r' =>
      run r' s caps
          (fun s' caps' =>
             k s' (caps' ++ [firstn (length s - length s') s]))
  | Eos => match s with [] => k [] caps | _ => None end
  end.
End Matcher.
Arguments star {R} p k caps s.
Arguments run {R} r s caps k.

(** [s.match(/^r/)]: the captures of the match at position 0, if any.  A
    pattern that starts with [^] (and has no [m] flag) can match nowhere
    else. *)
Definition match_at_start (r : regex) (s : jsstring) : option (list jsstring) :=
  run r s [] (fun _ caps => Some caps).

(** The length of the match of [r] at the head of [s], if any. *)
Definition match_length (r : regex) (s : jsstring) : option nat :=
  run r s [] (fun s' _ => Some (length s - length s')).

(** [s.split(r)] (no limit, no captures in [r]), after ECMAScript's
    [Symbol.split]: [cur] holds, reversed, the units of the piece being
    built; [skip] counts units of a separator still to be dropped. *)
Fixpoint split_go (r : regex) (skip : nat) (cur : jsstring) (s : jsstring)
  : list jsstring :=
  match skip with
  | S skip' =>
      match s with
      | _ :: s' => split_go r skip' cur s'
      | [] => [rev cur]
      end
  | O =>
      match s with
      | [] => [rev cur]
      | c :: s' =>
          match match_length r s with
          | Some (S m) => rev cur :: split_go r m [] s'
          | Some O =>
              match cur with
              | [] => split_go r 0 [c] s'
              | _ => rev cur :: split_go r 0 [c] s'
              end
          | None => split_go r 0 (c :: cur) s'
          end
      end
  end.

Definition split_regex (r : regex) (s : jsstring) : list jsstring :=
  match s with
  | [] => match match_length r [] with Some _ => [] | None => [[]] end
  | _ => split_go r 0 [] s
  end.

End Regex.
Export Regex.

(* ===================================================================== *)
(** ** Perspective parser *)
(* ===================================================================== *)

(** [/^(\d+)[.)]\s*(.+)$/] *)
Definition numbered_re : regex :=
  Seq (Group (PlusClass is_digit))
      (Seq (Class is_dot_or_paren)
           (Seq (StarClass is_ws)
                (Seq (Group (PlusClass is_any)) Eos))).

(** [/\n{2,}/] *)
Definition blank_lines_re : regex :=
  Seq (Class (N.eqb LF)) (Seq (Class (N.eqb LF)) (StarClass (N.eqb LF))).

(** The body of the [for] loop of [parsePerspectives] for one line: what the
    line adds to [results]. *)
Definition parse_line (line : jsstring) : list jsstring :=
  let trimmed := trim line in
  if negb (truthy trimmed) then []
  else match match_at_start numbered_re trimmed with
       | Some [_; m2] => if truthy m2 then [trim m2] else []
       | _ => []
       end.

Definition parsePerspectives (raw : jsstring) : list jsstring :=
  let lines := split_on LF raw in
  let results := flat_map parse_line lines in
  match results with
  | [] =>
      filter truthy (map trim (split_regex blank_lines_re raw))
  | _ => results
  end.


(* ===================================================================== *)
(** ** Values received from the completion service *)
(* ===================================================================== *)

Module Json.

(** What [response.json()] can produce. *)
#[local] Unset Elimination Schemes.
Inductive json : Type :=
| JNull
| JBool (b : bool)
| JNum (q : Q)
| JStr (s : jsstring)
| JArr (items : list json)
| JObj (fields : list (jsstring * json)).
#[local] Set Elimination Schemes.

(** A JavaScript value read out of parsed JSON; [None] is [undefined]. *)
Definition value := option json.

Fixpoint lookup (key : jsstring) (fields : list (jsstring * json)) : value :=
  match fields with
  | [] => None
  | (k, v) :: rest =>
      match lookup key rest with
      | Some v' => Some v'
      | None => if jsstring_eqb k key then Some v else None
      end
  end.

(** [v.key] for the keys read here, none of which a string, number, boolean
    or array defines. *)
Definition prop (key : string) (v : value) : value :=
  match v with
  | Some (JObj fields) => lookup (js key) fields
  | _ => None
  end.

(** [v[0]] *)
Definition first_item (v : value) : value :=
  match v with
  | Some (JArr (x :: _)) => Some x
  | _ => None
  end.

Definition isArray (v : value) : bool :=
  match v with Some (JArr _) => true | _ => false end.

Definition is_truthy (v : value) : bool :=
  match v with
  | None | Some JNull => false
  | Some (JBool b) => b
  | Some (JNum q) => negb (Qeq_bool q (0 # 1))
  | Some (JStr s) => truthy s
  | Some (JArr _) | Some (JObj _) => true
  end.

(** [a || b] *)
Definition or_value (a b : value) : value := if is_truthy a then a else b.

End Json.
Export Json.

(** What awaiting [fetch] and then the body can produce. *)
Inductive Body : Type :=
| BodyInvalid (parse_message : jsstring)   (* [response.json()] rejects *)
| BodyJson (data : json).

Record Response : Type := mkResponse {
  status : Z;
  statusText : jsstring;
  body : Body
}.

(** [response.ok] *)
Definition ok (r : Response) : bool := ((200 <=? status r) && (status r <=? 299))%Z.

Inductive FetchResult : Type :=
| FetchReject (name message : jsstring)   (* the promise rejects *)
| FetchResolve (r : Response).

(** One request as the environment answers it: the result, and whether the
    host called [cancel()] while the request was awaited. *)
Record Exchange : Type := mkExchange {
  result : FetchResult;
  cancelled_in_flight : bool
}.

(* ===================================================================== *)
(** ** Configuration and utility functions *)
(* ===================================================================== *)

Module CONFIG.
Definition DEFAULT_MAX_TOKENS : Z := 4000.
Definition MAX_TOPIC_LENGTH : nat := 4000.
Definition MIN_TOPIC_LENGTH : nat := 10.
Definition LOG_MAX_ENTRIES : nat := 500.
Definition REQUEST_TIMEOUT_MS : Z := 180000.
End CONFIG.

Record JsError : Type := mkError { message : jsstring }.

Inductive Outcome (A : Type) : Type :=
| Ok (a : A)
| Err (e : JsError).
Arguments Ok {A} a.
Arguments Err {A} e.

Definition truncateForLog (msg : jsstring) (maxLen : nat) : jsstring :=
  if negb (truthy msg) then []
  else if maxLen <? length msg then slice0 (maxLen - 3) msg ++ js "..."
       else msg.

Definition MALFORMED_MESSAGE : jsstring :=
  js "Malformed API response: missing choices[0].message.content".

Definition safeGetFirstChoiceContent (data : json) : Outcome jsstring :=
  let d := Some data in
  if is_truthy d
     && isArray (prop "choices" d)
     && is_truthy (first_item (prop "choices" d))
     && is_truthy (prop "message" (first_item (prop "choices" d)))
  then match prop "content" (prop "message" (first_item (prop "choices" d))) with
       | Some (JStr content) => Ok content
       | _ => Err (mkError MALFORMED_MESSAGE)
       end
  else Err (mkError MALFORMED_MESSAGE).

Definition buildUserPrompt (base : jsstring) (extraSections : list jsstring)
  : jsstring :=
  join [LF; LF] (base :: extraSections).

(* ===================================================================== *)
(** ** The researcher object and its world *)
(* ===================================================================== *)

(** Which observer callbacks the caller supplied. *)
Record UiHooks : Type := mkHooks {
  onLog : bool;
  onProgressText : bool;
  onPhaseLabel : bool;
  onPhaseProgress : bool
}.

Record Researcher : Type := mkResearcher {
  apiKey : jsstring;
  modelId : jsstring;
  constraints : jsstring;
  researchLog : list jsstring;
  uiHooks : UiHooks;
  active : bool
}.

(** [new AdvancedResearcher(apiKey, modelId, constraints, uiHooks)] *)
Definition constructor (key model cons : jsstring) (hooks : UiHooks) : Researcher :=
  {| apiKey := key; modelId := model; constraints := cons;
     researchLog := []; uiHooks := hooks; active := true |}.

Record Message : Type := mkMessage { role : jsstring; content : jsstring }.

(** The request [fetch] receives: the JSON payload and the credential. *)
Record Request : Type := mkRequest {
  authorization : jsstring;
  model : jsstring;
  messages : list Message;
  max_tokens : Z;
  temperature : Q;
  stream : bool
}.

Inductive Effect : Type :=
| Fetch (req : Request)
| OnLog (entry : jsstring)
| OnProgressText (text : jsstring)
| ConsoleLog (entry : jsstring)
| OnPhaseLabel (label : jsstring)
| OnPhaseProgress (phaseIndex totalPhases : nat).

Record World : Type := mkWorld {
  self : Researcher;       (* [this] *)
  requests : nat;          (* requests issued so far *)
  ticks : nat;             (* clock readings so far *)
  effects : list Effect    (* oldest first *)
}.

Definition with_self (w : World) (r : Researcher) : World :=
  {| self := r; requests := requests w; ticks := ticks w; effects := effects w |}.

Definition set_active (b : bool) (r : Researcher) : Researcher :=
  {| apiKey := apiKey r; modelId := modelId r; constraints := constraints r;
     researchLog := researchLog r; uiHooks := uiHooks r; active := b |}.

Definition set_researchLog (l : list jsstring) (r : Researcher) : Researcher :=
  {| apiKey := apiKey r; modelId := modelId r; constraints := constraints r;
     researchLog := l; uiHooks := uiHooks r; active := active r |}.

(** [cancel()] *)
Definition cancel (w : World) : World := with_self w (set_active false (self w)).

(** A world in which nothing has happened yet. *)
Definition fresh (r : Researcher) : World :=
  {| self := r; requests := 0; ticks := 0; effects := [] |}.

(* ===================================================================== *)
(** ** Computations *)
(* ===================================================================== *)

Definition M (A : Type) : Type := World -> Outcome A * World.

Definition ret {A} (a : A) : M A := fun w => (Ok a, w).

Definition throw {A} (e : JsError) : M A := fun w => (Err e, w).

Definition bind {A B} (m : M A) (k : A -> M B) : M B :=
  fun w => match m w with
           | (Ok a, w') => k a w'
           | (Err e, w') => (Err e, w')
           end.

(** [try { m } catch (err) { handler }] *)
Definition try_catch {A} (m : M A) (handler : JsError -> M A) : M A :=
  fun w => match m w with
           | (Ok a, w') => (Ok a, w')
           | (Err e, w') => handler e w'
           end.

Definition lift {A} (o : Outcome A) : M A := fun w => (o, w).

Declare Scope js_scope.
Delimit Scope js_scope with js_do.
Notation "x <- m ;; k" := (bind m (fun x => k))
  (at level 61, m at next level, right associativity) : js_scope.
Notation "m ;; k" := (bind m (fun _ => k))
  (at level 61, right associativity) : js_scope.
Local Open Scope js_scope.

Definition get_self : M Researcher := fun w => (Ok (self w), w).

(** An assignment to fields of [this]. *)
Definition modify_self (f : Researcher -> Researcher) : M unit :=
  fun w => (Ok tt, with_self w (f (self w))).

Definition emit (e : Effect) : M unit :=
  fun w => (Ok tt, {| self := self w; requests := requests w; ticks := ticks w;
                      effects := effects w ++ [e] |}).

Definition when (b : bool) (m : M unit) : M unit := if b then m else ret tt.

Inductive Level : Type := info | error.

(** [level.toUpperCase()] *)
Definition toUpperCase (l : Level) : jsstring :=
  match l with info => js "INFO" | error => js "ERROR" end.

Definition CANCELLED_MESSAGE : jsstring :=
  js "Research run was cancelled or is no longer active.".

(* ===================================================================== *)
(** ** Plain objects keyed by strings *)
(* ===================================================================== *)

Module Obj.
Section Obj.
Variable V : Type.

(** Own properties in insertion order. *)
Definition t := list (jsstring * V).

Fixpoint replace (k : jsstring) (v : V) (o : t) : option t :=
  match o with
  | [] => None
  | (k', v') :: o' =>
      if jsstring_eqb k' k then Some ((k', v) :: o')
      else match replace k v o' with
           | Some o'' => Some ((k', v') :: o'')
           | None => None
           end
  end.

(** [o[k] = v]: an existing property keeps its place; assigning to
    [__proto__] creates no own property. *)
Definition set (o : t) (k : jsstring) (v : V) : t :=
  if jsstring_eqb k (js "__proto__") then o
  else match replace k v o with
       | Some o' => o'
       | None => o ++ [(k, v)]
       end.

(** [o[k]] for an own property *)
Fixpoint get (o : t) (k : jsstring) : option V :=
  match o with
  | [] => None
  | (k', v) :: o' => if jsstring_eqb k' k then Some v else get o' k
  end.

(** The value of a canonical array-index key: [0], or digits without a
    leading zero, below [2^32 - 1]. *)
Definition array_index (k : jsstring) : option N :=
  match k with
  | [] => None
  | c :: rest =>
      if forallb is_digit k
         && (negb (c =? 48)%N || match rest with [] => true | _ => false end)
         && (length k <=? 10)
      then let n := fold_left (fun acc d => (10 * acc + (d - 48))%N) k 0%N in
           if (n <? 4294967295)%N then Some n else None
      else None
  end.

Fixpoint insert_sorted (n : N) (k : jsstring) (l : list (N * jsstring))
  : list (N * jsstring) :=
  match l with
  | [] => [(n, k)]
  | (n', k') :: l' =>
      if (n <? n')%N then (n, k) :: l else (n', k') :: insert_sorted n k l'
  end.

(** [Object.keys(o)]: array-index keys in ascending order, then the other
    keys in insertion order. *)
Definition keys (o : t) : list jsstring :=
  let indexed :=
    fold_left (fun acc kv => match array_index (fst kv) with
                             | Some n => insert_sorted n (fst kv) acc
                             | None => acc
                             end) o [] in
  map snd indexed
  ++ filter (fun k => match array_index k with Some _ => false | None => true end)
            (map fst o).
End Obj.
Arguments replace {V} k v o.
Arguments set {V} o k v.
Arguments get {V} o k.
Arguments keys {V} o.
End Obj.

Record TopicAnalysis : Type := mkAnalysis { analysis : jsstring }.

Record PerspectiveResult : Type := mkResult {
  error_ : option jsstring;     (* the [error] property, when present *)
  initial_research : jsstring;
  critical_analysis : jsstring;
  identified_gaps : jsstring;
  synthesis : jsstring
}.

Record FinalReport : Type := mkReport {
  topic : jsstring;
  topic_analysis : TopicAnalysis;
  perspectives : list jsstring;
  deep_research : Obj.t PerspectiveResult;
  synthesis_ : jsstring;        (* the [synthesis] property of the report *)
  research_log : list jsstring
}.

Module Options.
(** The second argument of [callOpenRouter]. *)
Record t : Type := mk {
  maxTokens : Z;
  temperature : Q;
  label : jsstring
}.
(** The destructuring defaults. *)
Definition default : t :=
  {| maxTokens := CONFIG.DEFAULT_MAX_TOKENS; temperature := 2 # 10;
     label := js "OpenRouter call" |}.
End Options.

(* ===================================================================== *)
(** ** The methods of [AdvancedResearcher] *)
(* ===================================================================== *)

Section Environment.

(** The completion service: how the [n]-th request of the run ends. *)
Variable server : nat -> Exchange.
(** [new Date().toLocaleTimeString()] at the [n]-th reading. *)
Variable clock : nat -> jsstring.
(** [JSON.stringify] *)
Variable stringify : json -> jsstring.

Definition now : M jsstring :=
  fun w => (Ok (clock (ticks w)),
            {| self := self w; requests := requests w; ticks := S (ticks w);
               effects := effects w |}).

(** [await fetch(url, init)] and the reading of the body: the request is
    issued, and the host may cancel the run before the answer is there. *)
Definition fetch (req : Request) : M FetchResult :=
  fun w =>
    let x := server (requests w) in
    (Ok (result x),
     {| self := if cancelled_in_flight x then set_active false (self w)
                else self w;
        requests := S (requests w); ticks := ticks w;
        effects := effects w ++ [Fetch req] |}).

Definition ensureActive : M unit :=
  fun w => if active (self w) then (Ok tt, w)
           else (Err (mkError CANCELLED_MESSAGE), w).

Definition format_entry (timestamp : jsstring) (level : Level)
           (msg : jsstring) : jsstring :=
  js "[" ++ timestamp ++ js "] [" ++ toUpperCase level ++ js "] " ++ msg.

(** [this.researchLog.push(entry)], then [shift()] when over capacity. *)
Definition push_entry (entry : jsstring) (l : list jsstring) : list jsstring :=
  let pushed := l ++ [entry] in
  if CONFIG.LOG_MAX_ENTRIES <? length pushed then tl pushed else pushed.

Definition log (msg : jsstring) (level : Level) : M unit :=
  ensureActive ;;
  timestamp <- now ;;
  let entry := format_entry timestamp level msg in
  modify_self (fun this =>
                 set_researchLog (push_entry entry (researchLog this)) this) ;;
  this <- get_self ;;
  when (onLog (uiHooks this)) (emit (OnLog entry)) ;;
  when (onProgressText (uiHooks this))
       (emit (OnProgressText (truncateForLog msg 140))) ;;
  emit (ConsoleLog entry).

(** [errData && (errData.error || errData.message)], rendered. *)
Definition error_detail (b : Body) : jsstring :=
  match b with
  | BodyJson errData =>
      let d := Some errData in
      let e := or_value (prop "error" d) (prop "message" d) in
      if is_truthy d && is_truthy e
      then match e with
           | Some v => js " Details: " ++ stringify v
           | None => []
           end
      else []
  | BodyInvalid _ => []
  end.

(** What [callOpenRouter] does once [fetch] has settled. *)
Definition handle_fetch (label : jsstring) (r : FetchResult) : M jsstring :=
  match r with
  | FetchReject name msg =>
      if jsstring_eqb name (js "AbortError")
      then throw (mkError (label ++ js " timed out after "
                             ++ of_Z (CONFIG.REQUEST_TIMEOUT_MS / 1000)
                             ++ js "s."))
      else throw (mkError (label ++ js " network error: " ++ msg))
  | FetchResolve response =>
      if negb (ok response) then
        let errorDetail := error_detail (body response) in
        let statusText_ := or_else (statusText response) (js "Unknown error") in
        let msg := label ++ js " API error: " ++ of_Z (status response)
                         ++ js " " ++ statusText_ ++ errorDetail in
        log msg error ;;
        throw (mkError msg)
      else
        match body response with
        | BodyInvalid parse_message =>
            let msg := label ++ js " failed to parse response JSON: "
                             ++ parse_message in
            log msg error ;;
            throw (mkError msg)
        | BodyJson data =>
            content <- lift (safeGetFirstChoiceContent data) ;;
            log (label ++ js ": response received.") info ;;
            ret content
        end
  end.

Definition callOpenRouter (msgs : list Message) (opts : Options.t)
  : M jsstring :=
  ensureActive ;;
  match msgs with
  | [] => throw (mkError (js "Internal error: messages array is empty."))
  | _ =>
      this <- get_self ;;
      let payload :=
        {| authorization := js "Bearer " ++ apiKey this;
           model := modelId this;
           messages := msgs;
           max_tokens := Options.maxTokens opts;
           temperature := Options.temperature opts;
           stream := false |} in
      log (Options.label opts ++ js ": contacting model...") info ;;
      r <- fetch payload ;;
      handle_fetch (Options.label opts) r
  end.

Definition user (prompt : jsstring) : list Message :=
  [ {| role := js "user"; content := prompt |} ].

Definition analyzeTopic (topic_ : jsstring) : M TopicAnalysis :=
  ensureActive ;;
  log (js "Phase 1: Analyzing research topic...") info ;;
  let base := js "Perform a comprehensive analysis of the research topic: "
                 ++ DQ ++ topic_ ++ DQ in
  let sections :=
    [ js "Provide:";
      js "1. TopicCQ: complexity assessment (scale 1-10) with justification.";
      js "2. Key subtopics and core questions.";
      js "3. Suitable methodologies and evidence types.";
      js "4. Critical uncertainties and assumptions.";
      js "5. Interdisciplinary links worth exploring.";
      js "6. Current research gaps & data limitations.";
      js "";
      js "Be structured, concise, and decision-useful." ] in
  let prompt := buildUserPrompt base sections in
  analysis_ <- callOpenRouter (user prompt)
                 {| Options.maxTokens := 2000; Options.temperature := 15 # 100;
                    Options.label := js "Topic analysis" |} ;;
  log (js "Topic analysis completed.") info ;;
  ret {| analysis := or_else analysis_ (js "No analysis returned by the model.") |}.

Definition gatherPerspectives (topic_ : jsstring)
           (topicAnalysis : option TopicAnalysis) (iterations : Z)
  : M (list jsstring) :=
  ensureActive ;;
  log (js "Phase 2: Generating research perspectives...") info ;;
  let baseAnalysis :=
    match topicAnalysis with
    | Some ta => if truthy (analysis ta) then analysis ta else []
    | None => []
    end in
  let prompt :=
    buildUserPrompt
      (js "Based on the topic " ++ DQ ++ topic_ ++ DQ
          ++ js " and the following analysis (if any):" ++ [LF]
          ++ slice0 2000 baseAnalysis)
      [ js "Generate between " ++ of_Z (iterations + 2) ++ js " and "
           ++ of_Z (iterations * 3)
           ++ js " distinct, high-quality research perspectives.";
        js "Each perspective must be:";
        js "- Clearly named (start with a bold title).";
        js "- Methodologically sound and academically relevant.";
        js "- Non-overlapping and genuinely distinct.";
        js "- Capable of yielding substantial insight.";
        js "";
        js "Return as a numbered list: " ++ DQ
           ++ js "1. Title: short rationale" ++ DQ ++ js "." ] in
  raw <- callOpenRouter (user prompt)
           {| Options.maxTokens := 3000; Options.temperature := 35 # 100;
              Options.label := js "Perspective generation" |} ;;
  let parsed := parsePerspectives raw in
  match parsed with
  | [] => throw (mkError
            (js "No perspectives could be parsed from the model response."))
  | _ =>
      let maxPerspectives := Z.max iterations 3 in
      let finalPerspectives := firstn (Z.to_nat maxPerspectives) parsed in
      log (js "Generated " ++ of_nat (length finalPerspectives)
              ++ js " research perspectives.") info ;;
      ret finalPerspectives
  end.

(** The depth table of the initial-research call. *)
Definition depth_maxTokens (depth : jsstring) : Z :=
  if jsstring_eqb depth (js "extreme") then 6000
  else if jsstring_eqb depth (js "advanced") then 4000
  else 3000.

Definition depth_temperature (depth : jsstring) : Q :=
  if jsstring_eqb depth (js "extreme") then 12 # 100
  else if jsstring_eqb depth (js "advanced") then 18 # 100
  else 22 # 100.

Definition researchSinglePerspective (perspective depth labelPrefix : jsstring)
  : M PerspectiveResult :=
  ensureActive ;;
  let maxTokens := depth_maxTokens depth in
  let temperature := depth_temperature depth in
  this <- get_self ;;
  let constraintSuffix :=
    if truthy (constraints this)
    then [LF; LF] ++ js "Additionally, respect these constraints / addons:"
                  ++ [LF] ++ constraints this
    else [] in
  (* 1) Initial research *)
  let initialPrompt :=
    buildUserPrompt
      (js "Conduct a thorough investigation into this research perspective:"
          ++ [LF] ++ DQ ++ perspective ++ DQ ++ constraintSuffix)
      [ js "Requirements:";
        js "- Outline key theories, models, and frameworks.";
        js "- Summarize major findings and representative studies.";
        js "- Include concrete examples and (approximate) citations where appropriate.";
        js "- Identify important datasets, benchmarks, or empirical evidence.";
        js "- Highlight leading researchers, institutions, and recent developments (last 2-3 years).";
        js "- Note practical applications, where relevant.";
        js "- Avoid vague statements; prefer specific details." ] in
  initialResearch <- callOpenRouter (user initialPrompt)
    {| Options.maxTokens := maxTokens; Options.temperature := temperature;
       Options.label := labelPrefix ++ js " " ++ EN_DASH ++ js " Initial research" |} ;;
  (* 2) Critical analysis *)
  let criticalPrompt :=
    buildUserPrompt
      (js "Critically evaluate the following research overview for "
          ++ DQ ++ perspective ++ DQ ++ js ":" ++ [LF]
          ++ slice0 2500 (or_else initialResearch []))
      [ js "Provide:";
        js "1. Strengths and weaknesses of the arguments and evidence.";
        js "2. Evaluation of methodological quality and limitations.";
        js "3. Biases and threats to validity.";
        js "4. Comparison with mainstream / consensus views where applicable.";
        js "5. Reproducibility and robustness considerations." ] in
  criticalAnalysis <- callOpenRouter (user criticalPrompt)
    {| Options.maxTokens := 2500; Options.temperature := 15 # 100;
       Options.label := labelPrefix ++ js " " ++ EN_DASH ++ js " Critical analysis" |} ;;
  (* 3) Gap identification *)
  let gapPrompt :=
    buildUserPrompt
      (js "Using the perspective " ++ DQ ++ perspective ++ DQ
          ++ js ", the research overview, and its critical evaluation:")
      [ js "Research overview:" ++ [LF]
           ++ slice0 1500 (or_else initialResearch []) ++ js "...";
        js "Critical analysis:" ++ [LF]
           ++ slice0 1500 (or_else criticalAnalysis []) ++ js "...";
        js "";
        js "Identify:";
        js "1. Concrete research gaps and unanswered questions.";
        js "2. Opportunities for novel contributions (theoretical & applied).";
        js "3. Methodological improvements or new study designs.";
        js "4. Practical & policy implications.";
        js "5. Interdisciplinary collaboration opportunities.";
        js "Be specific and actionable. Structure points clearly." ] in
  identifiedGaps <- callOpenRouter (user gapPrompt)
    {| Options.maxTokens := 2500; Options.temperature := 25 # 100;
       Options.label := labelPrefix ++ js " " ++ EN_DASH ++ js " Gap analysis" |} ;;
  (* 4) Synthesis per perspective *)
  let synthesisPrompt :=
    buildUserPrompt
      (js "Synthesize a cohesive view for the perspective "
          ++ DQ ++ perspective ++ DQ ++ js ".")
      [ js "Base your synthesis on:";
        js "- Research overview: "
           ++ slice0 1500 (or_else initialResearch []) ++ js "...";
        js "- Critical analysis: "
           ++ slice0 1000 (or_else criticalAnalysis []) ++ js "...";
        js "- Gaps & opportunities: "
           ++ slice0 1000 (or_else identifiedGaps []) ++ js "...";
        js "";
        js "Provide:";
        js "1. Integrated narrative with key insights.";
        js "2. Assessment of current evidence quality.";
        js "3. Priority list of research directions (High/Medium/Low).";
        js "4. Suggested methodologies & datasets for top priorities.";
        js "5. Practical applications and expected impact.";
        js "Make it clear, structured, and non-redundant." ] in
  synthesis' <- callOpenRouter (user synthesisPrompt)
    {| Options.maxTokens := 3000; Options.temperature := 14 # 100;
       Options.label := labelPrefix ++ js " " ++ EN_DASH
                                    ++ js " Perspective synthesis" |} ;;
  ret {| error_ := None;
         initial_research := or_else initialResearch [];
         critical_analysis := or_else criticalAnalysis [];
         identified_gaps := or_else identifiedGaps [];
         synthesis := or_else synthesis' [] |}.

(** The result recorded for a perspective whose sub-pipeline threw. *)
Definition failed_result (err : JsError) : PerspectiveResult :=
  {| error_ := Some (message err);
     initial_research := [];
     critical_analysis := [];
     identified_gaps := [];
     synthesis := [] |}.

Definition labelPrefix_of (i : nat) (maxPerspectivesToResearch : Z) : jsstring :=
  js "Perspective " ++ of_nat (i + 1) ++ js "/" ++ of_Z maxPerspectivesToResearch.

Definition started_message (labelPrefix perspective : jsstring) : jsstring :=
  labelPrefix ++ js ": Deep research for " ++ DQ
              ++ truncateForLog perspective 80 ++ DQ.

Definition failed_message (labelPrefix : jsstring) (err : JsError) : jsstring :=
  labelPrefix ++ js ": Failed - " ++ truncateForLog (message err) 160.

(** The [for] loop of [deepResearch] from index [i], with [n] rounds to
    go.  [perspectives[i]] is always in range there. *)
Fixpoint deepResearch_loop (perspectives_ : list jsstring) (depth : jsstring)
         (maxPerspectivesToResearch : Z) (n i : nat)
         (researchResults : Obj.t PerspectiveResult)
  : M (Obj.t PerspectiveResult) :=
  match n with
  | O => ret researchResults
  | S n' =>
      let perspective := nth i perspectives_ [] in
      let labelPrefix := labelPrefix_of i maxPerspectivesToResearch in
      log (started_message labelPrefix perspective) info ;;
      r <- try_catch
             (researchSinglePerspective perspective depth labelPrefix)
             (fun err =>
                log (failed_message labelPrefix err) error ;;
                ret (failed_result err)) ;;
      deepResearch_loop perspectives_ depth maxPerspectivesToResearch n' (S i)
                        (Obj.set researchResults perspective r)
  end.

Definition deepResearch (perspectives_ : list jsstring) (depth : jsstring)
           (iterations : Z) : M (Obj.t PerspectiveResult) :=
  ensureActive ;;
  log (js "Phase 3: Running deep research across perspectives...") info ;;
  let maxPerspectivesToResearch :=
    Z.min (Z.of_nat (length perspectives_)) iterations in
  researchResults <-
    deepResearch_loop perspectives_ depth maxPerspectivesToResearch
                      (Z.to_nat maxPerspectivesToResearch) 0 [] ;;
  log (js "Deep research phase completed.") info ;;
  ret researchResults.

(** The body of the [forEach] of [synthesizeFindings]. *)
Definition summary_of (research : Obj.t PerspectiveResult)
           (index : nat) (perspective : jsstring) : jsstring :=
  let findings := Obj.get research perspective in
  let synthesisSnippet :=
    match findings with
    | Some f => slice0 800 (or_else (synthesis f) (or_else (initial_research f) []))
    | None => []
    end in
  js "Perspective " ++ of_nat (index + 1) ++ js ": " ++ perspective ++ [LF]
  ++ (if truthy synthesisSnippet
      then js "Key findings snippet: " ++ synthesisSnippet ++ [LF; LF]
      else match findings with
           | Some {| error_ := Some e |} =>
               if truthy e
               then js "Error for this perspective: " ++ e ++ [LF; LF]
               else []
           | _ => []
           end).

Fixpoint summaries (research : Obj.t PerspectiveResult) (index : nat)
         (keys : list jsstring) : jsstring :=
  match keys with
  | [] => []
  | k :: keys' => summary_of research index k ++ summaries research (S index) keys'
  end.

Definition synthesizeFindings (research : Obj.t PerspectiveResult)
           (topic_ : jsstring) : M jsstring :=
  ensureActive ;;
  log (js "Phase 4: Synthesizing cross-perspective findings...") info ;;
  let perspectives_ := Obj.keys research in
  let researchSummary :=
    js "Topic: " ++ topic_ ++ [LF; LF]
    ++ match perspectives_ with
       | [] => js "No detailed per-perspective results available; synthesize based on topic-level reasoning only." ++ [LF]
       | _ => summaries research 0 perspectives_
       end in
  let base := js "Synthesize comprehensive research findings from multiple perspectives on: "
                 ++ topic_ in
  let sections :=
    [ js "Create a detailed research report that includes:";
      js "1. Executive summary of key findings (max ~300 words).";
      js "2. Integrated analysis across all perspectives and themes.";
      js "3. Critical insights and emerging patterns.";
      js "4. Overall research quality assessment and confidence levels.";
      js "5. Consolidated gap analysis with prioritized opportunities.";
      js "6. Concrete recommendations for future research (methods, timelines, resources).";
      js "7. Practical applications, implementation strategies, and expected impact.";
      js "8. Limitations of this synthesis (including relying on model-generated text).";
      js "";
      js "Write as a structured, clearly formatted report." ] in
  let prompt := buildUserPrompt base sections in
  synthesis' <- callOpenRouter
    (user (prompt ++ [LF; LF] ++ js "Contextual research summary:" ++ [LF]
                  ++ slice0 6000 researchSummary))
    {| Options.maxTokens := 5000; Options.temperature := 16 # 100;
       Options.label := js "Global synthesis" |} ;;
  log (js "Global synthesis completed.") info ;;
  ret (or_else synthesis' (js "No synthesis returned by the model.")).

Definition conductResearch (topic_ depth : jsstring) (iterations : Z)
  : M FinalReport :=
  ensureActive ;;
  log (js "Initializing full research workflow...") info ;;
  this <- get_self ;;
  let hooks := uiHooks this in
  when (onPhaseLabel hooks) (emit (OnPhaseLabel (js "Phase 1/4: Topic analysis"))) ;;
  topicAnalysis <- analyzeTopic topic_ ;;
  when (onPhaseProgress hooks) (emit (OnPhaseProgress 1 4)) ;;
  when (onPhaseLabel hooks) (emit (OnPhaseLabel (js "Phase 2/4: Perspectives"))) ;;
  perspectives_ <- gatherPerspectives topic_ (Some topicAnalysis) iterations ;;
  when (onPhaseProgress hooks) (emit (OnPhaseProgress 2 4)) ;;
  when (onPhaseLabel hooks) (emit (OnPhaseLabel (js "Phase 3/4: Deep research"))) ;;
  deepResearch_ <- deepResearch perspectives_ depth iterations ;;
  when (onPhaseProgress hooks) (emit (OnPhaseProgress 3 4)) ;;
  when (onPhaseLabel hooks) (emit (OnPhaseLabel (js "Phase 4/4: Global synthesis"))) ;;
  synthesis' <- synthesizeFindings deepResearch_ topic_ ;;
  when (onPhaseProgress hooks) (emit (OnPhaseProgress 4 4)) ;;
  log (js "Research workflow completed successfully.") info ;;
  this' <- get_self ;;
  ret {| topic := topic_;
         topic_analysis := topicAnalysis;
         perspectives := perspectives_;
         deep_research := deepResearch_;
         synthesis_ := synthesis';
         research_log := researchLog this' |}.

End Environment.

(* ===================================================================== *)
(** ** The parser in the words of the design document *)
(* ===================================================================== *)

Module ParserSpec.

(** A line of the shape [<digits><"." or ")"><whitespace><rest>], every
    part present: the rest of the line after the whitespace. *)
Definition worded_rest (t : jsstring) : option jsstring :=
  match take_while is_digit t, drop_while is_digit t with
  | _ :: _, c :: u =>
      if is_dot_or_paren c then
        match take_while is_ws u, drop_while is_ws u with
        | _ :: _, (_ :: _) as rest => Some rest
        | _, _ => None
        end
      else None
  | _, _ => None
  end.

(** The same shape with the whitespace optional and a rest that holds no
    line terminator. *)
Definition matched_rest (t : jsstring) : option jsstring :=
  match take_while is_digit t, drop_while is_digit t with
  | _ :: _, c :: u =>
      if is_dot_or_paren c then
        match drop_while is_ws u with
        | (_ :: _) as rest => if forallb is_any rest then Some rest else None
        | [] => None
        end
      else None
  | _, _ => None
  end.

(** The blocks between runs of two or more newlines: [cur] is the block
    being read (reversed), [nl] the newlines seen since its last unit. *)
Fixpoint blocks_go (cur : jsstring) (nl : nat) (s : jsstring) : list jsstring :=
  match s with
  | [] =>
      match nl with
      | O => [rev cur]
      | 1 => [rev (LF :: cur)]
      | _ => [rev cur; []]
      end
  | c :: s' =>
      if (LF =? c)%N then blocks_go cur (S nl) s'
      else match nl with
           | O => blocks_go (c :: cur) 0 s'
           | 1 => blocks_go (c :: LF :: cur) 0 s'
           | _ => rev cur :: blocks_go [c] 0 s'
           end
  end.

Definition blocks (raw : jsstring) : list jsstring := blocks_go [] 0 raw.

(** Numbered lines, in line order; failing any, the paragraphs. *)
Definition parse_with (rest_of : jsstring -> option jsstring)
           (raw : jsstring) : list jsstring :=
  let kept :=
    flat_map (fun line => match rest_of (trim line) with
                          | Some rest => [trim rest]
                          | None => []
                          end)
             (split_on LF raw) in
  match kept with
  | [] => filter truthy (map trim (blocks raw))
  | _ => kept
  end.

Definition parse_worded : jsstring -> list jsstring := parse_with worded_rest.
Definition parse_matched : jsstring -> list jsstring := parse_with matched_rest.

End ParserSpec.


(* ===================================================================== *)
(** ** Utility functions of the page *)
(* ===================================================================== *)

(** [s.replace(r, replacement)] for a global [r] without capture groups and
    a replacement without [$]: the matches are taken from left to right; an
    empty match is replaced too and the next unit copied.  [skip] counts the
    units of a match still to be dropped. *)
Fixpoint replace_go (r : regex) (replacement : jsstring) (skip : nat)
         (s : jsstring) : jsstring :=
  match skip with
  | S skip' =>
      match s with
      | _ :: s' => replace_go r replacement skip' s'
      | [] => []
      end
  | O =>
      match s with
      | [] => match match_length r [] with
              | Some _ => replacement
              | None => []
              end
      | c :: s' =>
          match match_length r s with
          | Some (S m) => replacement ++ replace_go r replacement m s'
          | Some O => replacement ++ c :: replace_go r replacement 0 s'
          | None => c :: replace_go r replacement 0 s'
          end
      end
  end.

Definition replace_all (r : regex) (replacement : jsstring) (s : jsstring)
  : jsstring :=
  replace_go r replacement 0 s.

(** [/\s+/g] *)
Definition whitespace_run_re : regex := PlusClass is_ws.

(** [sanitizeText(input)] for a string [input]. *)
Definition sanitizeText (input : jsstring) : jsstring :=
  trim (replace_all whitespace_run_re (js " ") input).

(** [/c/g] for a single unit [c] *)
Definition unit_re (c : N) : regex := Class (N.eqb c).

Definition AMP : N := 38%N.
Definition LT : N := 60%N.
Definition GT : N := 62%N.
Definition QUOT : N := 34%N.
Definition APOS : N := 39%N.

(** [escapeHtml(str)] for a string [str]. *)
Definition escapeHtml (str : jsstring) : jsstring :=
  replace_all (unit_re APOS) (js "&#039;")
    (replace_all (unit_re QUOT) (js "&quot;")
       (replace_all (unit_re GT) (js "&gt;")
          (replace_all (unit_re LT) (js "&lt;")
             (replace_all (unit_re AMP) (js "&amp;") str)))).

(** The argument of [validateInputs]; [iterations] is [None] when the number
    is not an integer ([NaN], a fraction). *)
Record Inputs : Type := mkInputs {
  input_apiKey : jsstring;
  input_modelId : jsstring;
  input_topic : jsstring;
  input_iterations : option Z
}.

(** [validateInputs({ apiKey, modelId, topic, iterations })]: the message
    to show, or [None] for [null]. *)
Definition validateInputs (i : Inputs) : option jsstring :=
  if negb (truthy (input_apiKey i))
  then Some (js "Please provide your OpenRouter API key to run research.")
  else if negb (truthy (input_modelId i))
  then Some (js "Please choose a model.")
  else if negb (truthy (input_topic i))
          || (length (input_topic i) <? CONFIG.MIN_TOPIC_LENGTH)
  then Some (js "Research topic must be at least "
                ++ of_nat CONFIG.MIN_TOPIC_LENGTH ++ js " characters long.")
  else if CONFIG.MAX_TOPIC_LENGTH <? length (input_topic i)
  then Some (js "Research topic must be under "
                ++ of_nat CONFIG.MAX_TOPIC_LENGTH ++ js " characters.")
  else match input_iterations i with
       | Some n =>
           if ((n <? 1) || (8 <? n))%Z
           then Some (js "Perspective coverage must be between 1 and 8.")
           else None
       | None => Some (js "Perspective coverage must be between 1 and 8.")
       end.

(** What [collectResultsAsText] reads from the page. *)
Record Page : Type := mkPage {
  topicInput : jsstring;          (* [topicInput.value] *)
  topicAnalysisDiv : jsstring;    (* [textContent] of each panel *)
  perspectivesDiv : jsstring;
  deepResearchDiv : jsstring;
  synthesisDiv : jsstring;
  researchLogDiv : jsstring
}.

(** One section of the export: nothing when its text is blank. *)
Definition export_section (title : string) (text : jsstring) (last : bool)
  : list jsstring :=
  let trimmed := trim (or_else text []) in
  if truthy trimmed
  then if last then [js title; trimmed] else [js title; trimmed; []]
  else [].

Definition collectResultsAsText (page : Page) : jsstring :=
  let parts :=
    export_section "=== Topic ===" (topicInput page) false
    ++ export_section "=== Topic Analysis ===" (topicAnalysisDiv page) false
    ++ export_section "=== Research Perspectives ===" (perspectivesDiv page) false
    ++ export_section "=== Deep Research Findings ===" (deepResearchDiv page) false
    ++ export_section "=== Synthesis & Conclusions ===" (synthesisDiv page) false
    ++ export_section "=== Research Log ===" (researchLogDiv page) true in
  join [LF] parts.

(** The guard of both export buttons: [!text.trim()]. *)
Definition nothing_to_export (page : Page) : bool :=
  negb (truthy (trim (collectResultsAsText page))).

(* ===================================================================== *)
(** ** Vocabulary of the properties *)
(* ===================================================================== *)

(** A string ends outside the class [p], or is empty. *)
Definition ends_outside (p : N -> bool) (s : jsstring) : Prop :=
  s = [] \/ exists u c, s = u ++ [c] /\ p c = false.

(** A string does not start with a newline. *)
Definition starts_off_newline (s : jsstring) : Prop :=
  match s with [] => True | c :: _ => (LF =? c)%N = false end.

(** The last [n] elements of a list. *)
Definition keep_last {A : Type} (n : nat) (l : list A) : list A :=
  skipn (length l - n) l.

(** A relation between the world before and after every run of [m]. *)
Definition Keeps (R : World -> World -> Prop) {A : Type} (m : M A) : Prop :=
  forall w, R w (snd (m w)).

(** The log only grows at the back and loses entries only at the front,
    when over capacity. *)
Definition log_extended (w w' : World) : Prop :=
  length (researchLog (self w)) <= CONFIG.LOG_MAX_ENTRIES ->
  exists added,
    researchLog (self w')
    = keep_last CONFIG.LOG_MAX_ENTRIES (researchLog (self w) ++ added).


Definition CancellationFault : JsError := mkError CANCELLED_MESSAGE.

Definition EMPTY_GENERATION_MESSAGE : jsstring :=
  js "No perspectives could be parsed from the model response.".

Definition USAGE_MESSAGE : jsstring :=
  js "Internal error: messages array is empty.".

Definition EmptyGenerationFault : JsError := mkError EMPTY_GENERATION_MESSAGE.

(** On an inactive run, [m] throws at once and touches nothing. *)
Definition Halts {A : Type} (m : M A) : Prop :=
  forall w, active (self w) = false -> exists e, m w = (Err e, w).

(** On an inactive run, [m] throws the cancellation fault at once and
    touches nothing: no request, no log entry, no callback. *)
Definition Strict {A : Type} (m : M A) : Prop :=
  forall w, active (self w) = false -> m w = (Err CancellationFault, w).

(** Every fault [m] throws satisfies [P]. *)
Definition Raises (P : JsError -> Prop) {A : Type} (m : M A) : Prop :=
  forall w e w', m w = (Err e, w') -> P e.

Section EnvironmentVocabulary.
Variable server : nat -> Exchange.
Variable clock : nat -> jsstring.

(** The world after a successful [log(msg, level)]. *)
Definition logged (msg : jsstring) (level : Level) (w : World) : World :=
  let entry := format_entry (clock (ticks w)) level msg in
  {| self := set_researchLog (push_entry entry (researchLog (self w))) (self w);
     requests := requests w;
     ticks := S (ticks w);
     effects := effects w
                ++ (if onLog (uiHooks (self w)) then [OnLog entry] else [])
                ++ (if onProgressText (uiHooks (self w))
                    then [OnProgressText (truncateForLog msg 140)] else [])
                ++ [ConsoleLog entry] |}.

(** One write of a run, begun while the run is active: a line logged
    (the buffer, the callbacks and the console at once), a request, or one
    of the two notifications of the workflow.  Every write leaves its mark
    at the end of [effects], so that the order of the writes can be read
    from the world. *)
Inductive Step : World -> World -> Prop :=
| Step_log (msg : jsstring) (level : Level) (w : World) :
    active (self w) = true -> Step w (logged msg level w)
| Step_fetch (req : Request) (w : World) :
    active (self w) = true -> Step w (snd (fetch server req w))
| Step_label (label : jsstring) (w : World) :
    active (self w) = true -> Step w (snd (emit (OnPhaseLabel label) w))
| Step_progress (i n : nat) (w : World) :
    active (self w) = true -> Step w (snd (emit (OnPhaseProgress i n) w)).

(** [Reached w w']: [w'] comes from [w] by writes each of which began
    while the run was active. *)
Inductive Reached (w : World) : World -> Prop :=
| Reached_here : Reached w w
| Reached_step (w1 w2 : World) : Reached w w1 -> Step w1 w2 -> Reached w w2.

(** From an active run, [m] writes only while the run is active, and
    returns only when it still is. *)
Definition Guarded {A : Type} (m : M A) : Prop :=
  forall w r w',
    active (self w) = true -> m w = (r, w') ->
    Reached w w' /\ (active (self w') = false -> exists e, r = Err e).

(** Whatever the run, every write of [m] began while the run was active;
    [m] does not return on a run that is cancelled; and a run cancelled
    while [m] was under way is left exactly as the request then in flight
    left it, that request having been sent from a world of this run. *)
Definition Sealed {A : Type} (m : M A) : Prop :=
  forall w r w',
    m w = (r, w') ->
    Reached w w'
    /\ (active (self w') = false -> exists e, r = Err e)
    /\ (active (self w) = true -> active (self w') = false ->
        exists w0 req,
          Reached w w0 /\ active (self w0) = true
          /\ w' = snd (fetch server req w0)).

(** Appending the messages [items] one after the other. *)
Fixpoint log_each (items : list (jsstring * Level)) : M unit :=
  match items with
  | [] => ret tt
  | (msg, level) :: rest => log clock msg level ;; log_each rest
  end.

(** The entries that logging [items] writes, the first at clock reading
    [t]. *)
Fixpoint entries_of (t : nat) (items : list (jsstring * Level))
  : list jsstring :=
  match items with
  | [] => []
  | (msg, level) :: rest =>
      format_entry (clock t) level msg :: entries_of (S t) rest
  end.

(** The [n]-th request is answered, the run not being cancelled meanwhile,
    by a 2xx response whose JSON carries the text [c] at
    [choices[0].message.content]. *)
Definition answers (n : nat) (c : jsstring) : Prop :=
  exists response data,
    server n = {| result := FetchResolve response; cancelled_in_flight := false |}
    /\ ok response = true
    /\ body response = BodyJson data
    /\ safeGetFirstChoiceContent data = Ok c.

(** The request that [callOpenRouter(msgs, opts)] sends. *)
Definition request_of (this : Researcher) (msgs : list Message)
           (opts : Options.t) : Request :=
  {| authorization := js "Bearer " ++ apiKey this;
     model := modelId this;
     messages := msgs;
     max_tokens := Options.maxTokens opts;
     temperature := Options.temperature opts;
     stream := false |}.

(** The world once [callOpenRouter] has logged its first line and its
    request has settled. *)
Definition sent (msgs : list Message) (opts : Options.t) (w : World) : World :=
  snd (fetch server (request_of (self w) msgs opts)
             (logged (Options.label opts ++ js ": contacting model...") info w)).

(** The world in which [callOpenRouter] returns the answer. *)
Definition received (msgs : list Message) (opts : Options.t) (w : World)
  : World :=
  logged (Options.label opts ++ js ": response received.") info
         (sent msgs opts w).
End EnvironmentVocabulary.

(** A fault that says what went wrong. *)
Definition described (e : JsError) : Prop := message e <> [].

(** The failure marker of the deep-research map: a non-empty [error] and
    the four texts empty. *)
Definition error_flagged (r : PerspectiveResult) : Prop :=
  exists m, m <> []
            /\ r = {| error_ := Some m; initial_research := [];
                      critical_analysis := []; identified_gaps := [];
                      synthesis := [] |}.

(** [researchResults[perspective] = result] for each entry in turn. *)
Definition record_all (entries : list (jsstring * PerspectiveResult))
           (acc : Obj.t PerspectiveResult) : Obj.t PerspectiveResult :=
  fold_left (fun o entry => Obj.set o (fst entry) (snd entry)) entries acc.


Section Phase3Vocabulary.
Variable server : nat -> Exchange.
Variable clock : nat -> jsstring.
Variable stringify : json -> jsstring.
Variable depth : jsstring.
Variable total : Z.


End Phase3Vocabulary.

(** [s.startsWith(prefix)] *)
Fixpoint starts_with (prefix s : jsstring) : bool :=
  match prefix, s with
  | [], _ => true
  | c :: prefix', d :: s' => (c =? d)%N && starts_with prefix' s'
  | _ :: _, [] => false
  end.

(** The requests among a list of effects. *)
Definition fetches (l : list Effect) : list Request :=
  flat_map (fun e => match e with Fetch req => [req] | _ => [] end) l.

(** The effects performed between two worlds of one run. *)
Definition performed (w w' : World) : list Effect :=
  skipn (length (effects w)) (effects w').

(** The effects of a run are never taken back. *)
Definition effects_extended (w w' : World) : Prop :=
  exists more, effects w' = effects w ++ more.

(** A call of a method of the run, by the host or by an advanced caller. *)
Inductive Call : Type :=
| CallCancel
| CallLog (msg : jsstring) (level : Level)
| CallOpenRouter (msgs : list Message) (opts : Options.t)
| CallAnalyzeTopic (topic_ : jsstring)
| CallGatherPerspectives (topic_ : jsstring) (topicAnalysis : option TopicAnalysis)
                         (iterations : Z)
| CallDeepResearch (perspectives_ : list jsstring) (depth : jsstring)
                   (iterations : Z)
| CallResearchSinglePerspective (perspective depth labelPrefix : jsstring)
| CallSynthesizeFindings (research : Obj.t PerspectiveResult) (topic_ : jsstring)
| CallConductResearch (topic_ depth : jsstring) (iterations : Z).

Section Histories.
Variable server : nat -> Exchange.
Variable clock : nat -> jsstring.
Variable stringify : json -> jsstring.

(** The world a call leaves, whatever it returns or throws. *)
Definition world_after (c : Call) (w : World) : World :=
  match c with
  | CallCancel => cancel w
  | CallLog msg level => snd (log clock msg level w)
  | CallOpenRouter msgs opts =>
      snd (callOpenRouter server clock stringify msgs opts w)
  | CallAnalyzeTopic topic_ =>
      snd (analyzeTopic server clock stringify topic_ w)
  | CallGatherPerspectives topic_ ta iterations =>
      snd (gatherPerspectives server clock stringify topic_ ta iterations w)
  | CallDeepResearch ps depth iterations =>
      snd (deepResearch server clock stringify ps depth iterations w)
  | CallResearchSinglePerspective p depth labelPrefix =>
      snd (researchSinglePerspective server clock stringify p depth labelPrefix w)
  | CallSynthesizeFindings research topic_ =>
      snd (synthesizeFindings server clock stringify research topic_ w)
  | CallConductResearch topic_ depth iterations =>
      snd (conductResearch server clock stringify topic_ depth iterations w)
  end.

(** The world after a sequence of calls, the first of the list first. *)
Definition history (calls : list Call) (w : World) : World :=
  fold_left (fun w' c => world_after c w') calls w.
End Histories.

(* ===================================================================== *)
(** ** Vocabulary of the further properties *)
(* ===================================================================== *)

(** Whitespace collapsed in one pass: [prev_ws] says that the unit before
    was whitespace. *)
Fixpoint collapse_go (prev_ws : bool) (s : jsstring) : jsstring :=
  match s with
  | [] => []
  | c :: s' =>
      if is_ws c
      then if prev_ws then collapse_go true s' else 32%N :: collapse_go true s'
      else c :: collapse_go false s'
  end.

(** Every whitespace unit is a space that follows a unit which is not
    whitespace ([prev_ws] tells of the unit before the string). *)
Fixpoint single_spaced (prev_ws : bool) (s : jsstring) : bool :=
  match s with
  | [] => true
  | c :: s' =>
      if is_ws c
      then (c =? 32)%N && negb prev_ws && single_spaced true s'
      else single_spaced false s'
  end.

(** Text in the form [sanitizeText] gives: no whitespace at either end, and
    between words single spaces only. *)
Definition normalized (s : jsstring) : Prop :=
  single_spaced true s = true /\ ends_outside is_ws s.

(** What [escapeHtml] makes of one unit. *)
Definition escape_unit (c : N) : jsstring :=
  if (c =? AMP)%N then js "&amp;"
  else if (c =? LT)%N then js "&lt;"
  else if (c =? GT)%N then js "&gt;"
  else if (c =? QUOT)%N then js "&quot;"
  else if (c =? APOS)%N then js "&#039;"
  else [c].

(** A unit that opens or closes markup or an attribute value. *)
Definition is_markup (c : N) : bool :=
  ((c =? LT) || (c =? GT) || (c =? QUOT) || (c =? APOS))%N.

(** Reading one unit of escaped text from the right: the decoder used to
    state that [escapeHtml] loses nothing. *)
Definition unescape_step (c : N) (acc : jsstring) : jsstring :=
  if (c =? AMP)%N then
    if starts_with (js "amp;") acc then AMP :: skipn 4 acc
    else if starts_with (js "lt;") acc then LT :: skipn 3 acc
    else if starts_with (js "gt;") acc then GT :: skipn 3 acc
    else if starts_with (js "quot;") acc then QUOT :: skipn 5 acc
    else if starts_with (js "#039;") acc then APOS :: skipn 5 acc
    else c :: acc
  else c :: acc.

Definition unescapeHtml (s : jsstring) : jsstring :=
  fold_right unescape_step [] s.

(** [m] issues at most [n] requests, and takes none back. *)
Definition Within (n : nat) {A : Type} (m : M A) : Prop :=
  forall w, requests w <= requests (snd (m w)) <= requests w + n.

(** No request is issued between two worlds. *)
Definition same_requests (w w' : World) : Prop := requests w' = requests w.

(** What the caller configured is as it was: the credential, the model, the
    constraints and the observer callbacks. *)
Definition same_configuration (w w' : World) : Prop :=
  apiKey (self w') = apiKey (self w)
  /\ modelId (self w') = modelId (self w)
  /\ constraints (self w') = constraints (self w)
  /\ uiHooks (self w') = uiHooks (self w).

(** A result that is whole (no [error]) or the failure marker: the two
    forms Phase 3 records. *)
Definition well_formed_result (r : PerspectiveResult) : Prop :=
  error_ r = None \/ error_flagged r.

Definition PROTO : jsstring := js "__proto__".

Definition SUCCESS_MESSAGE : jsstring :=
  js "Research workflow completed successfully.".

(** The lines written to the console, the entries handed to [onLog] and
    the progress notifications among a list of effects. *)
Definition console_lines (l : list Effect) : list jsstring :=
  flat_map (fun e => match e with ConsoleLog entry => [entry] | _ => [] end) l.

Definition on_log_lines (l : list Effect) : list jsstring :=
  flat_map (fun e => match e with OnLog entry => [entry] | _ => [] end) l.

Definition progress_events (l : list Effect) : list (nat * nat) :=
  flat_map (fun e => match e with
                     | OnPhaseProgress i n => [(i, n)]
                     | _ => []
                     end) l.

(** The log of the run is the tail of the console, and [onLog], when
    given, has seen every line of the console. *)
Definition mirrored (hooks : UiHooks) (w : World) : Prop :=
  uiHooks (self w) = hooks
  /\ researchLog (self w)
     = keep_last CONFIG.LOG_MAX_ENTRIES (console_lines (effects w))
  /\ on_log_lines (effects w)
     = if onLog hooks then console_lines (effects w) else [].

Definition mirror_kept (w w' : World) : Prop :=
  forall hooks, mirrored hooks w -> mirrored hooks w'.

Definition same_progress (w w' : World) : Prop :=
  progress_events (effects w') = progress_events (effects w).

(** Running [m] from [w] notifies of a prefix of [expected], and of all of
    it when [m] returns. *)
Definition emits_in_order (expected : list (nat * nat)) {A : Type} (m : M A)
           (w : World) : Prop :=
  exists shown,
    progress_events (effects (snd (m w))) = progress_events (effects w) ++ shown
    /\ (exists rest, expected = shown ++ rest)
    /\ (forall a, fst (m w) = Ok a -> shown = expected).

(** The four notifications of a whole workflow. *)
Definition ALL_PROGRESS : list (nat * nat) := [(1, 4); (2, 4); (3, 4); (4, 4)].

(* ===================================================================== *)
(** ** Concrete runs *)
(* ===================================================================== *)

Module Scenario.

(** A clock that shows the number of the reading. *)
Definition clock (n : nat) : jsstring := js "t" ++ of_nat n.

(** A stand-in for [JSON.stringify]: strings quoted, the rest elided. *)
Definition stringify (v : json) : jsstring :=
  match v with
  | JStr s => DQ ++ s ++ DQ
  | _ => js "{...}"
  end.

Definition hooks : UiHooks :=
  {| onLog := true; onProgressText := true;
     onPhaseLabel := true; onPhaseProgress := true |}.

Definition researcher : Researcher :=
  constructor (js "sk-or-test") (js "anthropic/claude-3.5-sonnet") [] hooks.

(** The run just constructed. *)
Definition start : World := fresh researcher.

(** The body of a completion that carries [text]. *)
Definition completion (text : jsstring) : json :=
  JObj [ (js "id", JStr (js "gen-1"));
         (js "choices",
          JArr [ JObj [ (js "message",
                         JObj [ (js "role", JStr (js "assistant"));
                                (js "content", JStr text) ]) ] ]) ].

Definition http (code : Z) (reason : jsstring) (b : Body) : FetchResult :=
  FetchResolve {| status := code; statusText := reason; body := b |}.

Definition undisturbed (r : FetchResult) : Exchange :=
  {| result := r; cancelled_in_flight := false |}.

(** Every request answered with [text]. *)
Definition always (text : jsstring) (n : nat) : Exchange :=
  undisturbed (http 200 (js "OK") (BodyJson (completion text))).

(** Every request answered with [text], but request number 4 (the first of
    the second perspective) with a 500. *)
Definition fifth_fails (text : jsstring) (n : nat) : Exchange :=
  if n =? 4
  then undisturbed (http 500 (js "Internal Server Error") (BodyInvalid (js "Unexpected token <")))
  else always text n.


(** Every request answered with [text]; the host calls [cancel()] while the
    first one is in flight. *)
Definition cancelled_during_first (text : jsstring) (n : nat) : Exchange :=
  {| result := http 200 (js "OK") (BodyJson (completion text));
     cancelled_in_flight := (n =? 0) |}.

(** A 2xx response whose JSON has no [choices]. *)
Definition malformed (n : nat) : Exchange :=
  undisturbed (http 200 (js "OK") (BodyJson (JObj [ (js "id", JStr (js "gen-1")) ]))).

(** The transport fails. *)
Definition unreachable (n : nat) : Exchange :=
  undisturbed (FetchReject (js "TypeError") (js "Failed to fetch")).

(** The request is aborted by the timeout. *)
Definition timed_out (n : nat) : Exchange :=
  undisturbed (FetchReject (js "AbortError") (js "The user aborted a request.")).

Definition A : jsstring := js "Alpha: first angle".
Definition B : jsstring := js "Beta: second angle".
Definition C : jsstring := js "Gamma: third angle".

Definition sleep : jsstring :=
  js "Impact of sleep on memory consolidation in adults".

Definition topic_opts : Options.t :=
  {| Options.maxTokens := 2000; Options.temperature := 15 # 100;
     Options.label := js "Topic analysis" |}.

(** 501 messages. *)
Definition many_items : list (jsstring * Level) :=
  map (fun n => (js "event " ++ of_nat n, info)) (seq 0 501).

End Scenario.

(* ===================================================================== *)
(** * Properties *)
(* ===================================================================== *)

(** ** Strings *)

Section StringFacts.
Variable p : N -> bool.

Lemma take_drop_while (s : jsstring) :
  take_while p s ++ drop_while p s = s.
Proof.
  induction s as [|c s IH]; simpl; [reflexivity|].
  destruct (p c); simpl; [now rewrite IH | reflexivity].
Qed.

Lemma take_while_all (s : jsstring) : forallb p (take_while p s) = true.
Proof.
  induction s as [|c s IH]; simpl; [reflexivity|].
  destruct (p c) eqn:E; simpl; [now rewrite E | reflexivity].
Qed.

Lemma drop_while_all (s : jsstring) :
  forallb p s = true -> drop_while p s = [].
Proof.
  induction s as [|c s IH]; simpl; [reflexivity|].
  intros H. apply andb_prop in H as [Hc Hs]. now rewrite Hc, IH.
Qed.

Lemma drop_while_nil_all (s : jsstring) :
  drop_while p s = [] -> forallb p s = true.
Proof.
  induction s as [|c s IH]; simpl; [reflexivity|].
  destruct (p c); [auto | discriminate].
Qed.

Lemma drop_while_head (s : jsstring) (c : N) (u : jsstring) :
  drop_while p s = c :: u -> p c = false.
Proof.
  induction s as [|d s IH]; simpl; [discriminate|].
  destruct (p d) eqn:E; [exact IH|].
  intros H. injection H as -> _. exact E.
Qed.

Lemma drop_while_stop (s : jsstring) :
  match s with [] => True | c :: _ => p c = false end ->
  drop_while p s = s.
Proof. destruct s as [|c s]; simpl; [reflexivity|]. now intros ->. Qed.

Lemma skipn_take_while (j : nat) (s : jsstring) :
  j <= length (take_while p s) ->
  skipn j s = skipn j (take_while p s) ++ drop_while p s.
Proof.
  intros Hj. rewrite <- (take_drop_while s) at 1.
  rewrite skipn_app. replace (j - length (take_while p s)) with 0 by lia.
  reflexivity.
Qed.

Lemma firstn_take_while (s : jsstring) :
  firstn (length s - length (drop_while p s)) s = take_while p s.
Proof.
  assert (H : forall a b : jsstring,
             firstn (length (a ++ b) - length b) (a ++ b) = a).
  { intros a b. rewrite length_app.
    replace (length a + length b - length b) with (length a) by lia.
    rewrite firstn_app, Nat.sub_diag, firstn_all. simpl. apply app_nil_r. }
  specialize (H (take_while p s) (drop_while p s)).
  now rewrite take_drop_while in H.
Qed.
End StringFacts.

Lemma is_digit_not_separator (c : N) :
  is_digit c = true -> is_dot_or_paren c = false.
Proof.
  unfold is_digit, is_dot_or_paren. intros H.
  apply andb_prop in H as [H1 H2].
  apply N.leb_le in H1. apply N.leb_le in H2.
  apply orb_false_iff. split; apply N.eqb_neq; lia.
Qed.

Lemma LF_is_ws : is_ws LF = true.
Proof. reflexivity. Qed.

Lemma trimEnd_ends (s : jsstring) : ends_outside is_ws (trimEnd s).
Proof.
  unfold trimEnd. destruct (drop_while is_ws (rev s)) as [|c u] eqn:E.
  - now left.
  - right. exists (rev u), c. split; [reflexivity|].
    eapply drop_while_head; eauto.
Qed.

Lemma trim_ends (s : jsstring) : ends_outside is_ws (trim s).
Proof. apply trimEnd_ends. Qed.

Lemma trim_blank (s : jsstring) : forallb is_ws s = true -> trim s = [].
Proof.
  intros H. unfold trim, trimStart. now rewrite drop_while_all.
Qed.

Lemma ends_outside_suffix (p : N -> bool) (a b : jsstring) :
  ends_outside p (a ++ b) -> forallb p b = true -> b = [].
Proof.
  intros [H | (u & c & H & Hc)] Hb.
  - now apply app_eq_nil in H.
  - destruct b as [|x b] using rev_ind; [reflexivity|].
    rewrite app_assoc in H. apply app_inj_tail in H as [_ ->].
    rewrite forallb_app in Hb. simpl in Hb.
    rewrite Hc in Hb. rewrite andb_false_r in Hb. discriminate.
Qed.

(** ** The matcher *)

Section StarFacts.
Variable R : Type.
Variables (p : N -> bool) (k : cont R) (caps : list jsstring).

(** When no shorter repetition lets the continuation succeed, the star
    stands or falls with the longest one. *)
Lemma star_cut (s : jsstring) :
  (forall j, j < length (take_while p s) -> k (skipn j s) caps = None) ->
  star p k caps s = k (drop_while p s) caps.
Proof.
  induction s as [|c s IH]; simpl; [reflexivity|].
  destruct (p c) eqn:E; [|reflexivity].
  intros H. rewrite IH.
  - destruct (k (drop_while p s) caps); [reflexivity|].
    apply (H 0). simpl. lia.
  - intros j Hj. apply (H (S j)). simpl. lia.
Qed.

(** The longest repetition is tried first. *)
Lemma star_greedy (s : jsstring) (r : R) :
  k (drop_while p s) caps = Some r -> star p k caps s = Some r.
Proof.
  induction s as [|c s IH]; simpl; [auto|].
  destruct (p c); [|auto]. intros H. now rewrite (IH H).
Qed.
End StarFacts.

(** [(.+)$]: the whole rest, which must be non-empty and free of line
    terminators. *)
Lemma run_rest_to_end (R : Type) (s : jsstring) (caps : list jsstring)
      (k : cont R) :
  run (Seq (Group (PlusClass is_any)) Eos) s caps k
  = if truthy s && forallb is_any s then k [] (caps ++ [s]) else None.
Proof.
  destruct s as [|c s]; simpl; [reflexivity|].
  destruct (is_any c) eqn:Ec; simpl; [|reflexivity].
  rewrite star_cut.
  - destruct (drop_while is_any s) as [|d u] eqn:E.
    + rewrite (drop_while_nil_all _ _ E). simpl.
      now rewrite firstn_all.
    + replace (forallb is_any s) with false; [reflexivity|].
      symmetry. apply not_true_is_false. intros Hall.
      rewrite (drop_while_all _ _ Hall) in E. discriminate.
  - intros j Hj. rewrite (skipn_take_while is_any j s) by lia.
    destruct (skipn j (take_while is_any s)) as [|x xs] eqn:E; [|reflexivity].
    apply (f_equal (@length N)) in E. rewrite length_skipn in E.
    simpl in E. lia.
Qed.

(** The numbered-list pattern on a string without trailing whitespace. *)
Lemma numbered_match (t : jsstring) :
  ends_outside is_ws t ->
  match_at_start numbered_re t
  = match ParserSpec.matched_rest t with
    | Some rest => Some [take_while is_digit t; rest]
    | None => None
    end.
Proof.
  intros Hend. unfold match_at_start, numbered_re, ParserSpec.matched_rest.
  set (tail := Seq (Group (PlusClass is_any)) Eos).
  destruct t as [|c t]; [reflexivity|].
  cbn [run PlusClass take_while drop_while].
  destruct (is_digit c) eqn:Ec; [|reflexivity].
  rewrite star_cut.
  2:{ intros j Hj. rewrite (skipn_take_while is_digit j t) by lia.
      destruct (skipn j (take_while is_digit t)) as [|x xs] eqn:E.
      - apply (f_equal (@length N)) in E. rewrite length_skipn in E.
        simpl in E. lia.
      - assert (Hx : is_digit x = true).
        { pose proof (take_while_all is_digit t) as Hall.
          rewrite <- (firstn_skipn j (take_while is_digit t)) in Hall.
          rewrite forallb_app, E in Hall. simpl in Hall.
          apply andb_prop in Hall as [_ Hall].
          now apply andb_prop in Hall as [Hall _]. }
        simpl. now rewrite (is_digit_not_separator _ Hx). }
  destruct (drop_while is_digit t) as [|c2 u] eqn:Ed; [reflexivity|].
  destruct (is_dot_or_paren c2) eqn:Es; [|reflexivity].
  assert (Hcap : firstn (length (c :: t) - length (c2 :: u)) (c :: t)
                 = c :: take_while is_digit t).
  { rewrite <- Ed.
    pose proof (firstn_take_while is_digit (c :: t)) as H.
    simpl drop_while in H. simpl take_while in H. rewrite Ec in H. exact H. }
  rewrite Hcap. clear Hcap.
  assert (Hu : ends_outside is_ws ((c :: take_while is_digit t ++ [c2]) ++ u)).
  { replace ((c :: take_while is_digit t ++ [c2]) ++ u) with (c :: t); [exact Hend|].
    simpl. rewrite <- app_assoc. simpl. rewrite <- Ed.
    now rewrite take_drop_while. }
  destruct (drop_while is_ws u) as [|r rs] eqn:Er.
  - assert (u = []) as ->.
    { eapply ends_outside_suffix; [exact Hu|]. now apply drop_while_nil_all. }
    simpl. reflexivity.
  - destruct (forallb is_any (r :: rs)) eqn:Hany.
    + erewrite star_greedy; [reflexivity|].
      subst tail. rewrite Er, run_rest_to_end, Hany. reflexivity.
    + rewrite star_cut.
      * subst tail. rewrite Er, run_rest_to_end, Hany. reflexivity.
      * intros j Hj. subst tail. rewrite run_rest_to_end.
        rewrite (skipn_take_while is_ws j u) by lia.
        rewrite Er, forallb_app, Hany, andb_false_r, andb_false_r.
        reflexivity.
Qed.

Lemma matched_rest_truthy (t rest : jsstring) :
  ParserSpec.matched_rest t = Some rest -> truthy rest = true.
Proof.
  unfold ParserSpec.matched_rest.
  destruct (take_while is_digit t) as [|d ds]; [discriminate|].
  destruct (drop_while is_digit t) as [|c u]; [discriminate|].
  destruct (is_dot_or_paren c); [|discriminate].
  destruct (drop_while is_ws u) as [|r rs]; [discriminate|].
  destruct (forallb is_any (r :: rs)); [|discriminate].
  intros H. now inversion H.
Qed.

Lemma parse_line_matched (line : jsstring) :
  parse_line line
  = match ParserSpec.matched_rest (trim line) with
    | Some rest => [trim rest]
    | None => []
    end.
Proof.
  unfold parse_line.
  rewrite (numbered_match (trim line) (trim_ends line)).
  destruct (trim line) as [|c t] eqn:E; [reflexivity|].
  cbn [truthy negb].
  destruct (ParserSpec.matched_rest (c :: t)) as [rest|] eqn:Em; [|reflexivity].
  now rewrite (matched_rest_truthy _ _ Em).
Qed.

(** ** Splitting at blank lines *)

Lemma repeat_snoc (n : nat) (s : jsstring) :
  repeat LF n ++ LF :: s = repeat LF (S n) ++ s.
Proof. induction n as [|n IH]; simpl; [reflexivity|]. now rewrite IH. Qed.

Lemma drop_newlines (n : nat) (s : jsstring) :
  starts_off_newline s -> drop_while (N.eqb LF) (repeat LF n ++ s) = s.
Proof.
  intros H. induction n as [|n IH]; simpl.
  - now apply drop_while_stop.
  - exact IH.
Qed.

Lemma match_length_newlines (n : nat) (s : jsstring) :
  starts_off_newline s ->
  match_length blank_lines_re (repeat LF n ++ s)
  = if 2 <=? n then Some n else None.
Proof.
  intros H. unfold match_length, blank_lines_re.
  destruct n as [|[|n]].
  - destruct s as [|c s]; simpl; [reflexivity|]. simpl in H. now rewrite H.
  - destruct s as [|c s]; simpl; [reflexivity|]. simpl in H. now rewrite H.
  - cbn [repeat app run]. simpl N.eqb. cbv iota.
    erewrite star_greedy; [reflexivity|].
    rewrite (drop_newlines n s H). f_equal.
    cbn [length]. rewrite length_app, repeat_length. lia.
Qed.

Lemma match_length_none (s : jsstring) :
  starts_off_newline s -> match_length blank_lines_re s = None.
Proof. intros H. exact (match_length_newlines 0 s H). Qed.

Lemma match_length_single (s : jsstring) :
  starts_off_newline s -> match_length blank_lines_re (LF :: s) = None.
Proof. intros H. exact (match_length_newlines 1 s H). Qed.

Lemma match_length_run (n : nat) (s : jsstring) :
  starts_off_newline s ->
  match_length blank_lines_re (LF :: LF :: repeat LF n ++ s) = Some (S (S n)).
Proof. intros H. exact (match_length_newlines (S (S n)) s H). Qed.

Lemma split_go_skip (r : regex) (n : nat) (cur s : jsstring) :
  split_go r n cur (repeat LF n ++ s) = split_go r 0 cur s.
Proof. induction n as [|n IH]; simpl; [reflexivity | exact IH]. Qed.

Lemma split_go_blocks (s : jsstring) :
  forall (cur : jsstring) (nl : nat),
    split_go blank_lines_re 0 cur (repeat LF nl ++ s)
    = ParserSpec.blocks_go cur nl s.
Proof.
  induction s as [|c s IH]; intros cur nl.
  - destruct nl as [|[|nl]].
    + reflexivity.
    + reflexivity.
    + cbn [split_go ParserSpec.blocks_go repeat app].
      rewrite match_length_run by exact I.
      change (LF :: repeat LF nl ++ []) with (repeat LF (S nl) ++ []).
      now rewrite split_go_skip.
  - cbn [ParserSpec.blocks_go].
    destruct (LF =? c)%N eqn:Ec.
    + apply N.eqb_eq in Ec. subst c.
      rewrite repeat_snoc. apply IH.
    + assert (Hoff : starts_off_newline (c :: s)) by exact Ec.
      destruct nl as [|[|nl]].
      * cbn [repeat app split_go].
        rewrite (match_length_none (c :: s) Hoff).
        apply (IH (c :: cur) 0).
      * cbn [repeat app split_go].
        rewrite (match_length_single (c :: s) Hoff).
        rewrite (match_length_none (c :: s) Hoff).
        apply (IH (c :: LF :: cur) 0).
      * cbn [split_go repeat app].
        rewrite (match_length_run nl (c :: s) Hoff).
        change (LF :: repeat LF nl ++ c :: s) with (repeat LF (S nl) ++ c :: s).
        rewrite split_go_skip.
        cbn [split_go].
        rewrite (match_length_none (c :: s) Hoff).
        f_equal. apply (IH [c] 0).
Qed.

Lemma split_regex_blocks (raw : jsstring) :
  split_regex blank_lines_re raw = ParserSpec.blocks raw.
Proof.
  unfold split_regex, ParserSpec.blocks.
  destruct raw as [|c s]; [reflexivity|].
  apply (split_go_blocks (c :: s) [] 0).
Qed.

(** The parser keeps, of each line, what [matched_rest] describes. *)
Lemma parsePerspectives_matched (raw : jsstring) :
  parsePerspectives raw = ParserSpec.parse_matched raw.
Proof.
  unfold parsePerspectives, ParserSpec.parse_matched, ParserSpec.parse_with.
  rewrite split_regex_blocks.
  rewrite (flat_map_ext _ _ parse_line_matched).
  reflexivity.
Qed.

(** ** Computations: running and composing *)

Lemma bind_run {A B} (m : M A) (k : A -> M B) (w : World) :
  bind m k w = match m w with
               | (Ok a, w') => k a w'
               | (Err e, w') => (Err e, w')
               end.
Proof. reflexivity. Qed.

Lemma keep_last_short {A} (n : nat) (l : list A) :
  length l <= n -> keep_last n l = l.
Proof.
  intros H. unfold keep_last. now replace (length l - n) with 0 by lia.
Qed.

Lemma keep_last_length {A} (n : nat) (l : list A) :
  length (keep_last n l) <= n.
Proof. unfold keep_last. rewrite length_skipn. lia. Qed.

Lemma keep_last_app {A} (n : nat) (l a : list A) :
  keep_last n (keep_last n l ++ a) = keep_last n (l ++ a).
Proof.
  destruct (Nat.le_gt_cases (length l) n) as [H | H].
  - now rewrite (keep_last_short n l) by lia.
  - unfold keep_last. set (d := length l - n).
    assert (E1 : length (skipn d l ++ a) - n = length a)
      by (rewrite length_app, length_skipn; lia).
    assert (E2 : length (l ++ a) - n = length a + d)
      by (rewrite length_app; lia).
    rewrite E1, E2, <- skipn_skipn. f_equal.
    rewrite skipn_app. replace (d - length l) with 0 by lia. reflexivity.
Qed.

Lemma log_extended_refl (w : World) : log_extended w w.
Proof.
  intros H. exists []. now rewrite app_nil_r, keep_last_short.
Qed.

Lemma log_extended_trans (a b c : World) :
  log_extended a b -> log_extended b c -> log_extended a c.
Proof.
  intros Hab Hbc Ha. destruct (Hab Ha) as [x Hx].
  destruct Hbc as [y Hy].
  - rewrite Hx. apply keep_last_length.
  - exists (x ++ y). now rewrite Hy, Hx, keep_last_app, app_assoc.
Qed.



(** *** Relations kept by every step *)

Section KeepsRules.
Variable R : World -> World -> Prop.
Hypothesis R_refl : forall w, R w w.
Hypothesis R_trans : forall a b c, R a b -> R b c -> R a c.

Lemma Keeps_ret {A} (a : A) : Keeps R (ret a).
Proof. intros w. apply R_refl. Qed.

Lemma Keeps_throw {A} (e : JsError) : Keeps R (@throw A e).
Proof. intros w. apply R_refl. Qed.

Lemma Keeps_lift {A} (o : Outcome A) : Keeps R (lift o).
Proof. intros w. apply R_refl. Qed.

Lemma Keeps_get_self : Keeps R get_self.
Proof. intros w. apply R_refl. Qed.

Lemma Keeps_ensureActive : Keeps R ensureActive.
Proof. intros w. unfold ensureActive. destruct (active (self w)); apply R_refl. Qed.

Lemma Keeps_bind {A B} (m : M A) (k : A -> M B) :
  Keeps R m -> (forall a, Keeps R (k a)) -> Keeps R (bind m k).
Proof.
  intros Hm Hk w. rewrite bind_run. specialize (Hm w).
  destruct (m w) as [[a | e] w1]; simpl in *; [|exact Hm].
  eapply R_trans; [exact Hm | apply Hk].
Qed.

Lemma Keeps_try_catch {A} (m : M A) (h : JsError -> M A) :
  Keeps R m -> (forall e, Keeps R (h e)) -> Keeps R (try_catch m h).
Proof.
  intros Hm Hh w. unfold try_catch. specialize (Hm w).
  destruct (m w) as [[a | e] w1]; simpl in *; [exact Hm|].
  eapply R_trans; [exact Hm | apply Hh].
Qed.

Lemma Keeps_when (b : bool) (m : M unit) : Keeps R m -> Keeps R (when b m).
Proof. intros H. destruct b; [exact H | apply Keeps_ret]. Qed.

(** Whatever relation the four primitive steps keep, every method keeps. *)
Section Methods.
Variable server : nat -> Exchange.
Variable clock : nat -> jsstring.
Variable stringify : json -> jsstring.
Hypothesis R_emit : forall e, Keeps R (emit e).
Hypothesis R_now : Keeps R (now clock).
Hypothesis R_fetch : forall req, Keeps R (fetch server req).
Hypothesis R_push :
  forall entry,
    Keeps R (modify_self
               (fun this =>
                  set_researchLog (push_entry entry (researchLog this)) this)).

Ltac keeps_step :=
  first [ simple apply Keeps_ret | simple apply Keeps_throw
        | simple apply Keeps_lift | simple apply Keeps_get_self
        | simple apply Keeps_ensureActive
        | simple apply R_emit | simple apply R_now | simple apply R_fetch
        | simple apply R_push | simple apply Keeps_when
        | simple apply Keeps_try_catch; [|intro]
        | simple apply Keeps_bind; [|intro]
        | progress cbv zeta ].
Ltac keeps := repeat keeps_step.

Lemma Keeps_log (msg : jsstring) (level : Level) : Keeps R (log clock msg level).
Proof. unfold log. keeps. Qed.

Lemma Keeps_handle_fetch (label : jsstring) (r : FetchResult) :
  Keeps R (handle_fetch clock stringify label r).
Proof.
  unfold handle_fetch.
  destruct r as [name msg | response].
  - destruct (jsstring_eqb name (js "AbortError")); keeps.
  - destruct (negb (ok response)); [|destruct (body response)];
      repeat first [simple apply Keeps_log | keeps_step].
Qed.

Lemma Keeps_callOpenRouter (msgs : list Message) (opts : Options.t) :
  Keeps R (callOpenRouter server clock stringify msgs opts).
Proof.
  unfold callOpenRouter. destruct msgs;
    repeat first [ simple apply Keeps_log | simple apply Keeps_handle_fetch
                 | keeps_step ].
Qed.

Ltac keeps_calls :=
  repeat first [ simple apply Keeps_log | simple apply Keeps_callOpenRouter
               | keeps_step ].

Lemma Keeps_analyzeTopic (topic_ : jsstring) :
  Keeps R (analyzeTopic server clock stringify topic_).
Proof. unfold analyzeTopic. keeps_calls. Qed.

Lemma Keeps_gatherPerspectives (topic_ : jsstring)
      (ta : option TopicAnalysis) (iterations : Z) :
  Keeps R (gatherPerspectives server clock stringify topic_ ta iterations).
Proof.
  unfold gatherPerspectives. keeps_calls.
  match goal with |- Keeps R (match ?x with _ => _ end) => destruct x end;
    keeps_calls.
Qed.

Lemma Keeps_researchSinglePerspective (perspective depth labelPrefix : jsstring) :
  Keeps R (researchSinglePerspective server clock stringify
                                     perspective depth labelPrefix).
Proof. unfold researchSinglePerspective. keeps_calls. Qed.

Lemma Keeps_deepResearch_loop (ps : list jsstring) (depth : jsstring)
      (total : Z) (n : nat) :
  forall i acc,
    Keeps R (deepResearch_loop server clock stringify ps depth total n i acc).
Proof.
  induction n as [|n IH]; intros i acc; cbn [deepResearch_loop].
  - keeps.
  - repeat first [ simple apply Keeps_researchSinglePerspective
                 | simple apply IH | keeps_calls ].
Qed.

Lemma Keeps_deepResearch (ps : list jsstring) (depth : jsstring)
      (iterations : Z) :
  Keeps R (deepResearch server clock stringify ps depth iterations).
Proof.
  unfold deepResearch.
  repeat first [ simple apply Keeps_deepResearch_loop | keeps_calls ].
Qed.

Lemma Keeps_synthesizeFindings (research : Obj.t PerspectiveResult)
      (topic_ : jsstring) :
  Keeps R (synthesizeFindings server clock stringify research topic_).
Proof. unfold synthesizeFindings. keeps_calls. Qed.

Lemma Keeps_conductResearch (topic_ depth : jsstring) (iterations : Z) :
  Keeps R (conductResearch server clock stringify topic_ depth iterations).
Proof.
  unfold conductResearch.
  repeat first [ simple apply Keeps_log | simple apply Keeps_analyzeTopic
               | simple apply Keeps_gatherPerspectives
               | simple apply Keeps_deepResearch
               | simple apply Keeps_synthesizeFindings | keeps_step ].
Qed.

(** Hence every call, and every sequence of calls, keeps it. *)
Lemma Keeps_world_after (c : Call) (w : World) :
  (forall w0, R w0 (cancel w0)) ->
  R w (world_after server clock stringify c w).
Proof.
  intros R_cancel. destruct c; cbn [world_after].
  - apply R_cancel.
  - apply Keeps_log.
  - apply Keeps_callOpenRouter.
  - apply Keeps_analyzeTopic.
  - apply Keeps_gatherPerspectives.
  - apply Keeps_deepResearch.
  - apply Keeps_researchSinglePerspective.
  - apply Keeps_synthesizeFindings.
  - apply Keeps_conductResearch.
Qed.

Lemma Keeps_history (calls : list Call) :
  (forall w0, R w0 (cancel w0)) ->
  forall w, R w (history server clock stringify calls w).
Proof.
  intros R_cancel. unfold history.
  induction calls as [|c calls IH]; intros w; simpl.
  - apply R_refl.
  - eapply R_trans; [apply (Keeps_world_after c w R_cancel) | apply IH].
Qed.
End Methods.
End KeepsRules.

(** ** The research log *)

Section LogFacts.
Variable server : nat -> Exchange.
Variable clock : nat -> jsstring.
Variable stringify : json -> jsstring.

Lemma log_run (msg : jsstring) (level : Level) (w : World) :
  log clock msg level w
  = if active (self w) then (Ok tt, logged clock msg level w)
    else (Err CancellationFault, w).
Proof.
  destruct w as [[key mdl cons lg [h1 h2 h3 h4] act] rq tk ef].
  unfold log, logged, bind, ensureActive, now, modify_self, get_self, when,
    emit, ret, with_self.
  destruct act; [|reflexivity]. cbn [self active uiHooks onLog onProgressText].
  destruct h1, h2; cbn; rewrite <- ?app_assoc; reflexivity.
Qed.

Lemma log_active (msg : jsstring) (level : Level) (w : World) :
  active (self w) = true ->
  log clock msg level w = (Ok tt, logged clock msg level w).
Proof. intros H. now rewrite log_run, H. Qed.

Lemma log_inactive (msg : jsstring) (level : Level) (w : World) :
  active (self w) = false ->
  log clock msg level w = (Err CancellationFault, w).
Proof. intros H. now rewrite log_run, H. Qed.

Lemma logged_active (msg : jsstring) (level : Level) (w : World) :
  active (self (logged clock msg level w)) = active (self w).
Proof. reflexivity. Qed.

(** Over capacity by one, the oldest entry goes. *)
Lemma push_entry_step (entry : jsstring) (l : list jsstring) :
  length l <= CONFIG.LOG_MAX_ENTRIES ->
  push_entry entry l
  = (if length l <? CONFIG.LOG_MAX_ENTRIES then l else tl l) ++ [entry].
Proof.
  intros H. unfold push_entry. rewrite length_app. simpl length.
  destruct (length l <? CONFIG.LOG_MAX_ENTRIES) eqn:E.
  - apply Nat.ltb_lt in E.
    replace (CONFIG.LOG_MAX_ENTRIES <? length l + 1) with false; [reflexivity|].
    symmetry. apply Nat.ltb_ge. lia.
  - apply Nat.ltb_ge in E.
    replace (CONFIG.LOG_MAX_ENTRIES <? length l + 1) with true.
    + destruct l as [|x l]; [|reflexivity].
      simpl in E. unfold CONFIG.LOG_MAX_ENTRIES in E. lia.
    + symmetry. apply Nat.ltb_lt. lia.
Qed.

Lemma push_entry_keep_last (entry : jsstring) (l : list jsstring) :
  length l <= CONFIG.LOG_MAX_ENTRIES ->
  push_entry entry l = keep_last CONFIG.LOG_MAX_ENTRIES (l ++ [entry]).
Proof.
  intros H. rewrite push_entry_step by exact H.
  unfold keep_last. rewrite length_app. simpl length.
  destruct (length l <? CONFIG.LOG_MAX_ENTRIES) eqn:E.
  - apply Nat.ltb_lt in E.
    now replace (length l + 1 - CONFIG.LOG_MAX_ENTRIES) with 0 by lia.
  - apply Nat.ltb_ge in E.
    replace (length l + 1 - CONFIG.LOG_MAX_ENTRIES) with 1 by lia.
    destruct l as [|x l]; [|reflexivity].
    simpl in E. unfold CONFIG.LOG_MAX_ENTRIES in E. lia.
Qed.

Lemma log_extended_same_log (w w' : World) :
  researchLog (self w') = researchLog (self w) -> log_extended w w'.
Proof.
  intros E H. exists []. now rewrite E, app_nil_r, keep_last_short.
Qed.

Lemma log_extended_emit (e : Effect) : Keeps log_extended (emit e).
Proof. intros w. now apply log_extended_same_log. Qed.

Lemma log_extended_now : Keeps log_extended (now clock).
Proof. intros w. now apply log_extended_same_log. Qed.

Lemma log_extended_fetch (req : Request) : Keeps log_extended (fetch server req).
Proof.
  intros w. apply log_extended_same_log. simpl.
  now destruct (cancelled_in_flight (server (requests w))).
Qed.

Lemma log_extended_push (entry : jsstring) :
  Keeps log_extended
        (modify_self
           (fun this =>
              set_researchLog (push_entry entry (researchLog this)) this)).
Proof.
  intros w H. exists [entry]. simpl. now apply push_entry_keep_last.
Qed.

Lemma log_extended_bounded (w w' : World) :
  log_extended w w' ->
  length (researchLog (self w)) <= CONFIG.LOG_MAX_ENTRIES ->
  length (researchLog (self w')) <= CONFIG.LOG_MAX_ENTRIES.
Proof.
  intros H Hw. destruct (H Hw) as [added ->]. apply keep_last_length.
Qed.

Lemma log_each_run (items : list (jsstring * Level)) :
  forall w,
    active (self w) = true ->
    length (researchLog (self w)) <= CONFIG.LOG_MAX_ENTRIES ->
    exists w',
      log_each clock items w = (Ok tt, w')
      /\ researchLog (self w')
         = keep_last CONFIG.LOG_MAX_ENTRIES
                     (researchLog (self w) ++ entries_of clock (ticks w) items).
Proof.
  induction items as [|[msg level] items IH]; intros w Hact Hlen.
  - exists w. split; [reflexivity|].
    now rewrite app_nil_r, keep_last_short.
  - cbn [log_each entries_of]. rewrite bind_run, (log_active _ _ _ Hact).
    destruct (IH (logged clock msg level w)) as (w' & Hrun & Hlog).
    + exact Hact.
    + simpl. rewrite push_entry_keep_last by exact Hlen. apply keep_last_length.
    + exists w'. split; [exact Hrun|].
      rewrite Hlog. simpl.
      rewrite push_entry_keep_last by exact Hlen.
      rewrite keep_last_app, <- app_assoc. reflexivity.
Qed.
End LogFacts.

(** C6. The research log never holds more than [LOG_MAX_ENTRIES] = 500
    entries.  One [log] call on an active run pushes its entry at the back
    and, when the buffer was full, drops exactly the oldest entry; whatever
    a method call does to the buffer is of that kind (entries added at the
    back, the oldest dropped over capacity, none changed), so that after any
    sequence of calls on a new run the buffer holds at most 500 entries; and
    501 appends to the empty buffer leave the last 500 entries, oldest
    first. *)
Theorem log_buffer_bounded_fifo
        (server : nat -> Exchange) (clock : nat -> jsstring)
        (stringify : json -> jsstring) :
  (forall msg level w,
      active (self w) = true ->
      length (researchLog (self w)) <= CONFIG.LOG_MAX_ENTRIES ->
      let l := researchLog (self w) in
      let l' := researchLog (self (snd (log clock msg level w))) in
      l' = (if length l <? CONFIG.LOG_MAX_ENTRIES then l else tl l)
             ++ [format_entry (clock (ticks w)) level msg]
      /\ length l' <= CONFIG.LOG_MAX_ENTRIES)
  /\ (forall call w,
         let w' := world_after server clock stringify call w in
         length (researchLog (self w)) <= CONFIG.LOG_MAX_ENTRIES ->
         length (researchLog (self w')) <= CONFIG.LOG_MAX_ENTRIES
         /\ exists added,
             researchLog (self w')
             = keep_last CONFIG.LOG_MAX_ENTRIES (researchLog (self w) ++ added))
  /\ (forall calls key model_ cons hooks,
         length (researchLog
                   (self (history server clock stringify calls
                                  (fresh (constructor key model_ cons hooks)))))
         <= CONFIG.LOG_MAX_ENTRIES)
  /\ (forall items w,
         active (self w) = true ->
         researchLog (self w) = [] ->
         length items = 501 ->
         let l' := researchLog (self (snd (log_each clock items w))) in
         l' = tl (entries_of clock (ticks w) items) /\ length l' = 500).
Proof.
  assert (Hcancel : forall w0, log_extended w0 (cancel w0)).
  { intros w0. now apply log_extended_same_log. }
  split; [|split; [|split]].
  - intros msg level w Hact Hlen l l'. subst l l'.
    rewrite (log_active clock msg level w Hact). simpl.
    rewrite push_entry_step by exact Hlen. split; [reflexivity|].
    rewrite <- push_entry_step by exact Hlen.
    rewrite push_entry_keep_last by exact Hlen. apply keep_last_length.
  - intros call w w' Hlen.
    assert (H : log_extended w w').
    { apply (Keeps_world_after log_extended
               log_extended_refl log_extended_trans
               server clock stringify
               log_extended_emit (log_extended_now clock)
               (log_extended_fetch server) log_extended_push call w Hcancel). }
    split; [now apply (log_extended_bounded w w' H) | now apply H].
  - intros calls key model_ cons hooks.
    apply (log_extended_bounded (fresh (constructor key model_ cons hooks))).
    + apply (Keeps_history log_extended
               log_extended_refl log_extended_trans
               server clock stringify
               log_extended_emit (log_extended_now clock)
               (log_extended_fetch server) log_extended_push calls Hcancel).
    + simpl. unfold CONFIG.LOG_MAX_ENTRIES. lia.
  - intros items w Hact Hnil Hlen l'. subst l'.
    destruct (log_each_run clock items w Hact) as (w' & Hrun & Hlog).
    + rewrite Hnil. simpl. unfold CONFIG.LOG_MAX_ENTRIES. lia.
    + rewrite Hrun. simpl. rewrite Hlog, Hnil. simpl.
      assert (Hn : length (entries_of clock (ticks w) items) = 501).
      { clear -Hlen. revert Hlen. generalize (ticks w) as t. generalize 501 as n.
        induction items as [|[m lv] items IH]; intros n t H; simpl in *;
          [exact H|].
        destruct n; [discriminate|]. injection H as H. now rewrite (IH n). }
      unfold keep_last. rewrite Hn.
      change (501 - CONFIG.LOG_MAX_ENTRIES) with 1.
      split; [reflexivity|].
      rewrite length_skipn, Hn. reflexivity.
Qed.

(** ** The completion gateway *)

Section GatewayFacts.
Variable server : nat -> Exchange.
Variable clock : nat -> jsstring.
Variable stringify : json -> jsstring.

Local Notation callOpenRouter := (callOpenRouter server clock stringify).
Local Notation handle_fetch := (handle_fetch clock stringify).
Local Notation sent := (sent server clock).
Local Notation received := (received server clock).
Local Notation logged := (logged clock).
Local Notation log := (log clock).

Lemma callOpenRouter_inactive (msgs : list Message) (opts : Options.t) (w : World) :
  active (self w) = false ->
  callOpenRouter msgs opts w = (Err CancellationFault, w).
Proof.
  intros H. unfold callOpenRouter. rewrite bind_run.
  unfold ensureActive. now rewrite H.
Qed.

(** An active run logs, sends, and goes on with whatever comes back. *)
Lemma callOpenRouter_active (msgs : list Message) (opts : Options.t) (w : World) :
  active (self w) = true -> msgs <> [] ->
  callOpenRouter msgs opts w
  = handle_fetch (Options.label opts) (result (server (requests w)))
                 (sent msgs opts w).
Proof.
  intros Hact Hmsgs. unfold callOpenRouter. rewrite bind_run.
  unfold ensureActive at 1. rewrite Hact.
  destruct msgs as [|m msgs]; [contradiction|].
  rewrite bind_run. unfold get_self at 1.
  rewrite bind_run, (log_active clock _ _ w Hact).
  rewrite bind_run. reflexivity.
Qed.

Lemma sent_active (msgs : list Message) (opts : Options.t) (w : World) :
  active (self w) = true ->
  active (self (sent msgs opts w))
  = negb (cancelled_in_flight (server (requests w))).
Proof.
  intros H. unfold sent. simpl.
  destruct (cancelled_in_flight (server (requests w))); simpl; [reflexivity|].
  exact H.
Qed.

Lemma sent_requests (msgs : list Message) (opts : Options.t) (w : World) :
  requests (sent msgs opts w) = S (requests w).
Proof. reflexivity. Qed.

(** A request answered with text [c] makes the call return [c]. *)
Lemma callOpenRouter_answers (msgs : list Message) (opts : Options.t)
      (w : World) (c : jsstring) :
  active (self w) = true -> msgs <> [] ->
  answers server (requests w) c ->
  callOpenRouter msgs opts w = (Ok c, received msgs opts w).
Proof.
  intros Hact Hmsgs (response & data & Hx & Hok & Hbody & Hc).
  rewrite (callOpenRouter_active msgs opts w Hact Hmsgs), Hx.
  cbn [result handle_fetch]. rewrite Hok, Hbody. cbn [negb].
  rewrite bind_run. unfold lift at 1. rewrite Hc.
  rewrite bind_run, log_active; [reflexivity|].
  rewrite (sent_active msgs opts w Hact), Hx. reflexivity.
Qed.

Lemma received_active (msgs : list Message) (opts : Options.t) (w : World) :
  active (self w) = true ->
  cancelled_in_flight (server (requests w)) = false ->
  active (self (received msgs opts w)) = true.
Proof.
  intros H Hc. unfold received. rewrite logged_active.
  rewrite (sent_active msgs opts w H), Hc. reflexivity.
Qed.

(** The call returns only what the service answered to a live run. *)
Lemma callOpenRouter_returns (msgs : list Message) (opts : Options.t)
      (w w' : World) (c : jsstring) :
  callOpenRouter msgs opts w = (Ok c, w') ->
  active (self w) = true
  /\ answers server (requests w) c
  /\ w' = received msgs opts w.
Proof.
  intros H.
  destruct (active (self w)) eqn:Hact.
  2:{ rewrite (callOpenRouter_inactive msgs opts w Hact) in H. discriminate. }
  destruct msgs as [|m msgs].
  { unfold callOpenRouter in H. rewrite bind_run in H.
    unfold ensureActive at 1 in H. rewrite Hact in H. discriminate. }
  rewrite (callOpenRouter_active (m :: msgs) opts w Hact) in H by discriminate.
  pose proof (sent_active (m :: msgs) opts w Hact) as Hs.
  destruct (server (requests w)) as [r cancelled] eqn:Hx.
  cbn [result cancelled_in_flight] in *.
  destruct r as [name msg | response]; cbn [handle_fetch] in H.
  { destruct (jsstring_eqb name (js "AbortError")); discriminate. }
  destruct (ok response) eqn:Hok; cbn [negb] in H.
  2:{ rewrite bind_run in H.
      destruct (log _ error _) as [[[]|e] w1]; discriminate. }
  destruct (body response) as [pm | data] eqn:Hbody.
  { rewrite bind_run in H.
    destruct (log _ error _) as [[[]|e] w1]; discriminate. }
  rewrite bind_run in H. unfold lift at 1 in H.
  destruct (safeGetFirstChoiceContent data) as [c0 | e] eqn:Hc; [|discriminate].
  rewrite bind_run, log_run, Hs in H.
  destruct cancelled; cbn [negb] in H; [discriminate|].
  unfold ret in H. injection H as <- <-.
  split; [reflexivity|]. split; [|reflexivity].
  exists response, data. rewrite Hx. auto.
Qed.
End GatewayFacts.

(** ** The log and the console *)

Lemma console_lines_app (a b : list Effect) :
  console_lines (a ++ b) = console_lines a ++ console_lines b.
Proof. apply flat_map_app. Qed.

Lemma on_log_lines_app (a b : list Effect) :
  on_log_lines (a ++ b) = on_log_lines a ++ on_log_lines b.
Proof. apply flat_map_app. Qed.

Lemma progress_events_app (a b : list Effect) :
  progress_events (a ++ b) = progress_events a ++ progress_events b.
Proof. apply flat_map_app. Qed.

Lemma mirror_kept_refl (w : World) : mirror_kept w w.
Proof. intros hooks H. exact H. Qed.

Lemma mirror_kept_trans (a b c : World) :
  mirror_kept a b -> mirror_kept b c -> mirror_kept a c.
Proof. intros H1 H2 hooks H. apply H2, H1, H. Qed.

(** An effect that is neither a console line nor an [onLog] call keeps the
    mirror, whatever becomes of [active]. *)
Lemma mirrored_silent (hooks : UiHooks) (w w' : World) (e : Effect) :
  console_lines [e] = [] -> on_log_lines [e] = [] ->
  uiHooks (self w') = uiHooks (self w) ->
  researchLog (self w') = researchLog (self w) ->
  effects w' = effects w ++ [e] ->
  mirrored hooks w -> mirrored hooks w'.
Proof.
  intros Hc Ho Hh Hl He (H1 & H2 & H3).
  unfold mirrored.
  rewrite Hh, Hl, He, console_lines_app, on_log_lines_app, Hc, Ho, !app_nil_r.
  auto.
Qed.

Lemma mirrored_logged (clock : nat -> jsstring) (hooks : UiHooks)
      (msg : jsstring) (level : Level) (w : World) :
  mirrored hooks w -> mirrored hooks (logged clock msg level w).
Proof.
  intros (H1 & H2 & H3). unfold mirrored, logged.
  cbn [self effects uiHooks researchLog set_researchLog].
  rewrite H1. split; [reflexivity|].
  rewrite !console_lines_app, !on_log_lines_app, H2, H3.
  set (entry := format_entry (clock (ticks w)) level msg).
  set (lines := console_lines (effects w)).
  assert (Hc : console_lines
                 (if onLog hooks then [OnLog entry] else [])
               ++ console_lines
                    (if onProgressText hooks
                     then [OnProgressText (truncateForLog msg 140)] else [])
               ++ console_lines [ConsoleLog entry] = [entry]).
  { destruct (onLog hooks), (onProgressText hooks); reflexivity. }
  assert (Ho : on_log_lines
                 (if onLog hooks then [OnLog entry] else [])
               ++ on_log_lines
                    (if onProgressText hooks
                     then [OnProgressText (truncateForLog msg 140)] else [])
               ++ on_log_lines [ConsoleLog entry]
               = if onLog hooks then [entry] else []).
  { destruct (onLog hooks), (onProgressText hooks); reflexivity. }
  rewrite Hc, Ho. split.
  - rewrite push_entry_keep_last by apply keep_last_length.
    apply keep_last_app.
  - destruct (onLog hooks); reflexivity.
Qed.


(** ** Cancellation *)

Lemma Strict_Halts {A} (m : M A) : Strict m -> Halts m.
Proof. intros H w Hw. exists CancellationFault. now apply H. Qed.

Lemma Strict_ensureActive_bind {A} (k : unit -> M A) :
  Strict (bind ensureActive k).
Proof.
  intros w H. rewrite bind_run. unfold ensureActive. now rewrite H.
Qed.

Lemma Halts_throw {A} (e : JsError) : Halts (@throw A e).
Proof. intros w _. now exists e. Qed.

Lemma Halts_bind {A B} (m : M A) (k : A -> M B) : Halts m -> Halts (bind m k).
Proof.
  intros H w Hw. destruct (H w Hw) as [e He]. exists e.
  now rewrite bind_run, He.
Qed.

Section CancellationRules.
Variable server : nat -> Exchange.
Variable clock : nat -> jsstring.
Variable stringify : json -> jsstring.

Local Notation Step := (Step server clock).
Local Notation Reached := (Reached server clock).
Local Notation Guarded := (Guarded server clock).
Local Notation Sealed := (Sealed server clock).

Lemma Strict_log (msg : jsstring) (level : Level) : Strict (log clock msg level).
Proof. unfold log. apply Strict_ensureActive_bind. Qed.

Lemma Halts_handle_fetch (label : jsstring) (r : FetchResult) :
  Halts (handle_fetch clock stringify label r).
Proof.
  unfold handle_fetch. destruct r as [name msg | response].
  - destruct (jsstring_eqb name (js "AbortError")); apply Halts_throw.
  - destruct (negb (ok response)).
    + apply Halts_bind, Strict_Halts, Strict_log.
    + destruct (body response) as [pm | data].
      * apply Halts_bind, Strict_Halts, Strict_log.
      * intros w Hw. rewrite bind_run. unfold lift at 1.
        destruct (safeGetFirstChoiceContent data) as [c | e]; [|now exists e].
        exists CancellationFault.
        now rewrite bind_run, (log_inactive clock _ _ w Hw).
Qed.

(** *** Writes begin while the run is active *)

Lemma Step_begins_active (a b : World) : Step a b -> active (self a) = true.
Proof. intros H. destruct H; assumption. Qed.

Lemma Reached_trans (a b c : World) : Reached a b -> Reached b c -> Reached a c.
Proof.
  intros Hab Hbc. induction Hbc as [|w1 w2 _ IH HS]; [exact Hab|].
  exact (Reached_step server clock a w1 w2 IH HS).
Qed.

Lemma Reached_one (a b : World) : Step a b -> Reached a b.
Proof. intros H. exact (Reached_step server clock a a b (Reached_here _ _ a) H). Qed.

(** Nothing is written on a run that is cancelled. *)
Lemma Reached_inactive (w w' : World) :
  Reached w w' -> active (self w) = false -> w' = w.
Proof.
  intros H Hoff. induction H as [|w1 w2 _ IH HS]; [reflexivity|].
  subst w1. apply Step_begins_active in HS. congruence.
Qed.

(** The one write that can leave the run cancelled is a request. *)
Lemma Reached_cancelled (w w' : World) :
  Reached w w' -> active (self w) = true -> active (self w') = false ->
  exists w0 req,
    Reached w w0 /\ active (self w0) = true /\ w' = snd (fetch server req w0).
Proof.
  intros H Hon Hoff. destruct H as [|w1 w2 HR HS]; [congruence|].
  destruct HS as [msg level w1 H1 | req w1 H1 | label w1 H1 | i n w1 H1].
  - rewrite logged_active in Hoff. congruence.
  - exists w1, req. auto.
  - cbn in Hoff. congruence.
  - cbn in Hoff. congruence.
Qed.

(** No write touches what the caller configured. *)
Lemma Reached_configuration (w w' : World) :
  Reached w w' -> same_configuration w w'.
Proof.
  intros H. induction H as [|w1 w2 _ IH HS]; [repeat split|].
  destruct IH as (I1 & I2 & I3 & I4).
  destruct HS as [msg level w1 H1 | req w1 H1 | label w1 H1 | i n w1 H1];
    unfold same_configuration; cbn [logged fetch emit snd self];
    try destruct (cancelled_in_flight (server (requests w1)));
    cbn; repeat split; assumption.
Qed.

(** Every write keeps the buffer in step with the console. *)
Lemma Reached_mirror (hooks : UiHooks) (w w' : World) :
  Reached w w' -> mirrored hooks w -> mirrored hooks w'.
Proof.
  intros H Hm. induction H as [|w1 w2 _ IH HS]; [exact Hm|].
  destruct HS as [msg level w1 H1 | req w1 H1 | label w1 H1 | i n w1 H1].
  - now apply mirrored_logged.
  - apply (mirrored_silent hooks w1 _ (Fetch req)); try reflexivity;
      try exact IH; unfold fetch; cbn [snd self];
      destruct (cancelled_in_flight (server (requests w1))); reflexivity.
  - apply (mirrored_silent hooks w1 _ (OnPhaseLabel label));
      try reflexivity; exact IH.
  - apply (mirrored_silent hooks w1 _ (OnPhaseProgress i n));
      try reflexivity; exact IH.
Qed.

(** A step that writes nothing. *)
Lemma Guarded_silent {A} (m : M A) :
  (forall w, snd (m w) = w) -> Guarded m.
Proof.
  intros H w r w' Hact Hrun. specialize (H w). rewrite Hrun in H.
  cbn [snd] in H. subst w'. split; [constructor | congruence].
Qed.

Lemma Guarded_ret {A} (a : A) : Guarded (ret a).
Proof. apply Guarded_silent. reflexivity. Qed.

Lemma Guarded_throw {A} (e : JsError) : Guarded (@throw A e).
Proof. apply Guarded_silent. reflexivity. Qed.

Lemma Guarded_lift {A} (o : Outcome A) : Guarded (lift o).
Proof. apply Guarded_silent. intros w. unfold lift. now destruct o. Qed.

Lemma Guarded_get_self : Guarded get_self.
Proof. apply Guarded_silent. reflexivity. Qed.

Lemma Guarded_ensureActive : Guarded ensureActive.
Proof.
  apply Guarded_silent. intros w. unfold ensureActive.
  now destruct (active (self w)).
Qed.

Lemma Guarded_label (label : jsstring) : Guarded (emit (OnPhaseLabel label)).
Proof.
  intros w r w' Hact Hrun. unfold emit in Hrun. injection Hrun as <- <-.
  split; [|cbn; congruence].
  apply Reached_one. exact (Step_label server clock label w Hact).
Qed.

Lemma Guarded_progress (i n : nat) : Guarded (emit (OnPhaseProgress i n)).
Proof.
  intros w r w' Hact Hrun. unfold emit in Hrun. injection Hrun as <- <-.
  split; [|cbn; congruence].
  apply Reached_one. exact (Step_progress server clock i n w Hact).
Qed.

Lemma Guarded_when (b : bool) (m : M unit) : Guarded m -> Guarded (when b m).
Proof. intros H. destruct b; [exact H | apply Guarded_ret]. Qed.

Lemma Guarded_log (msg : jsstring) (level : Level) : Guarded (log clock msg level).
Proof.
  intros w r w' Hact Hrun. rewrite (log_active clock msg level w Hact) in Hrun.
  injection Hrun as <- <-. split.
  - apply Reached_one. exact (Step_log server clock msg level w Hact).
  - rewrite logged_active. congruence.
Qed.

Lemma Guarded_bind {A B} (m : M A) (k : A -> M B) :
  Guarded m -> (forall a, Guarded (k a)) -> Guarded (bind m k).
Proof.
  intros Hm Hk w r w' Hact Hrun. rewrite bind_run in Hrun.
  destruct (m w) as [[a | e] w1] eqn:Em.
  - destruct (Hm w (Ok a) w1 Hact Em) as [HR1 HE1].
    destruct (active (self w1)) eqn:H1.
    + destruct (Hk a w1 r w' H1 Hrun) as [HR2 HE2].
      split; [exact (Reached_trans _ _ _ HR1 HR2) | exact HE2].
    + destruct (HE1 eq_refl) as [e He]. discriminate.
  - injection Hrun as <- <-. destruct (Hm w (Err e) w1 Hact Em) as [HR1 _].
    split; [exact HR1 | now exists e].
Qed.

Lemma Guarded_try_catch {A} (m : M A) (h : JsError -> M A) :
  Guarded m -> (forall e, Guarded (h e)) -> (forall e, Halts (h e)) ->
  Guarded (try_catch m h).
Proof.
  intros Hm Hs Hh w r w' Hact Hrun. unfold try_catch in Hrun.
  destruct (m w) as [[a | e] w1] eqn:Em.
  - injection Hrun as <- <-. exact (Hm w (Ok a) w1 Hact Em).
  - destruct (Hm w (Err e) w1 Hact Em) as [HR1 _].
    destruct (active (self w1)) eqn:H1.
    + destruct (Hs e w1 r w' H1 Hrun) as [HR2 HE2].
      split; [exact (Reached_trans _ _ _ HR1 HR2) | exact HE2].
    + destruct (Hh e w1 H1) as [e' He']. rewrite He' in Hrun.
      injection Hrun as <- <-. split; [exact HR1 | now exists e'].
Qed.

(** The request is the one step during which the run can be cancelled; what
    follows it then halts. *)
Lemma Guarded_fetch_bind {A} (req : Request) (k : FetchResult -> M A) :
  (forall r, Halts (k r)) -> (forall r, Guarded (k r)) ->
  Guarded (bind (fetch server req) k).
Proof.
  intros Hh Hs w r w' Hact Hrun. rewrite bind_run in Hrun.
  destruct (fetch server req w) as [o w1] eqn:Ef.
  assert (Ho : o = Ok (result (server (requests w)))) by (now inversion Ef).
  assert (Hw1 : w1 = snd (fetch server req w)) by (now rewrite Ef).
  assert (HR1 : Reached w w1).
  { rewrite Hw1. apply Reached_one. exact (Step_fetch server clock req w Hact). }
  subst o. destruct (active (self w1)) eqn:H1.
  - destruct (Hs _ w1 r w' H1 Hrun) as [HR2 HE2].
    split; [exact (Reached_trans _ _ _ HR1 HR2) | exact HE2].
  - destruct (Hh (result (server (requests w))) w1 H1) as [e He].
    rewrite He in Hrun. injection Hrun as <- <-.
    split; [exact HR1 | now exists e].
Qed.

Ltac guarded_step :=
  first [ simple apply Guarded_log | simple apply Guarded_ret
        | simple apply Guarded_throw | simple apply Guarded_lift
        | simple apply Guarded_get_self
        | simple apply Guarded_label | simple apply Guarded_progress
        | simple apply Guarded_when
        | simple apply Halts_handle_fetch
        | simple apply Halts_throw
        | simple apply Halts_bind; simple apply Strict_Halts;
          simple apply Strict_log
        | simple apply Guarded_fetch_bind; [intro | intro]
        | simple apply Guarded_try_catch; [ | intro | intro]
        | simple apply Guarded_bind; [|intro]
        | progress cbv zeta ].

Lemma Guarded_handle_fetch (label : jsstring) (r : FetchResult) :
  Guarded (handle_fetch clock stringify label r).
Proof.
  unfold handle_fetch. destruct r as [name msg | response].
  - destruct (jsstring_eqb name (js "AbortError")); apply Guarded_throw.
  - destruct (negb (ok response)); [|destruct (body response)];
      repeat guarded_step.
Qed.

Lemma Guarded_callOpenRouter (msgs : list Message) (opts : Options.t) :
  Guarded (callOpenRouter server clock stringify msgs opts).
Proof.
  unfold callOpenRouter. destruct msgs;
    repeat first [ simple apply Guarded_ensureActive
                 | simple apply Guarded_handle_fetch | guarded_step ].
Qed.

Ltac guarded :=
  repeat first [ simple apply Guarded_ensureActive
               | simple apply Guarded_callOpenRouter | guarded_step ].

Lemma Guarded_analyzeTopic (topic_ : jsstring) :
  Guarded (analyzeTopic server clock stringify topic_).
Proof. unfold analyzeTopic. guarded. Qed.

Lemma Guarded_gatherPerspectives (topic_ : jsstring)
      (ta : option TopicAnalysis) (iterations : Z) :
  Guarded (gatherPerspectives server clock stringify topic_ ta iterations).
Proof.
  unfold gatherPerspectives. guarded.
  match goal with |- Guarded (match ?x with _ => _ end) => destruct x end;
    guarded.
Qed.

Lemma Guarded_researchSinglePerspective (perspective depth labelPrefix : jsstring) :
  Guarded (researchSinglePerspective server clock stringify
                                     perspective depth labelPrefix).
Proof. unfold researchSinglePerspective. guarded. Qed.

Lemma Guarded_deepResearch_loop (ps : list jsstring) (depth : jsstring)
      (total : Z) (n : nat) :
  forall i acc,
    Guarded (deepResearch_loop server clock stringify ps depth total n i acc).
Proof.
  induction n as [|n IH]; intros i acc; cbn [deepResearch_loop].
  - apply Guarded_ret.
  - repeat first [ simple apply Guarded_researchSinglePerspective
                 | simple apply IH | guarded ].
Qed.

Lemma Guarded_deepResearch (ps : list jsstring) (depth : jsstring)
      (iterations : Z) :
  Guarded (deepResearch server clock stringify ps depth iterations).
Proof.
  unfold deepResearch.
  repeat first [ simple apply Guarded_deepResearch_loop | guarded ].
Qed.

Lemma Guarded_synthesizeFindings (research : Obj.t PerspectiveResult)
      (topic_ : jsstring) :
  Guarded (synthesizeFindings server clock stringify research topic_).
Proof. unfold synthesizeFindings. guarded. Qed.

Lemma Guarded_conductResearch (topic_ depth : jsstring) (iterations : Z) :
  Guarded (conductResearch server clock stringify topic_ depth iterations).
Proof.
  unfold conductResearch.
  repeat first [ simple apply Guarded_analyzeTopic
               | simple apply Guarded_gatherPerspectives
               | simple apply Guarded_deepResearch
               | simple apply Guarded_synthesizeFindings | guarded ].
Qed.

(** *** Sealed operations *)

(** An operation that halts on a cancelled run and is guarded on an active
    one is sealed. *)
Lemma Sealed_intro {A} (m : M A) : Halts m -> Guarded m -> Sealed m.
Proof.
  intros Hh Hg w r w' Hrun. destruct (active (self w)) eqn:Hact.
  - destruct (Hg w r w' Hact Hrun) as [HR HE].
    split; [exact HR|]. split; [exact HE|].
    intros _ Hoff. exact (Reached_cancelled w w' HR Hact Hoff).
  - destruct (Hh w Hact) as [e He]. rewrite He in Hrun.
    injection Hrun as <- <-.
    split; [constructor|]. split; [now exists e | discriminate].
Qed.

Lemma Halts_entry {A} (k : unit -> M A) : Halts (bind ensureActive k).
Proof. apply Strict_Halts, Strict_ensureActive_bind. Qed.

Lemma Sealed_log (msg : jsstring) (level : Level) : Sealed (log clock msg level).
Proof. apply Sealed_intro; [apply Strict_Halts, Strict_log | apply Guarded_log]. Qed.

Lemma Sealed_callOpenRouter (msgs : list Message) (opts : Options.t) :
  Sealed (callOpenRouter server clock stringify msgs opts).
Proof. apply Sealed_intro; [apply Halts_entry | apply Guarded_callOpenRouter]. Qed.

Lemma Sealed_analyzeTopic (topic_ : jsstring) :
  Sealed (analyzeTopic server clock stringify topic_).
Proof. apply Sealed_intro; [apply Halts_entry | apply Guarded_analyzeTopic]. Qed.

Lemma Sealed_gatherPerspectives (topic_ : jsstring)
      (ta : option TopicAnalysis) (iterations : Z) :
  Sealed (gatherPerspectives server clock stringify topic_ ta iterations).
Proof.
  apply Sealed_intro; [apply Halts_entry | apply Guarded_gatherPerspectives].
Qed.

Lemma Sealed_researchSinglePerspective (perspective depth labelPrefix : jsstring) :
  Sealed (researchSinglePerspective server clock stringify
                                    perspective depth labelPrefix).
Proof.
  apply Sealed_intro;
    [apply Halts_entry | apply Guarded_researchSinglePerspective].
Qed.

Lemma Sealed_deepResearch (ps : list jsstring) (depth : jsstring)
      (iterations : Z) :
  Sealed (deepResearch server clock stringify ps depth iterations).
Proof. apply Sealed_intro; [apply Halts_entry | apply Guarded_deepResearch]. Qed.

Lemma Sealed_synthesizeFindings (research : Obj.t PerspectiveResult)
      (topic_ : jsstring) :
  Sealed (synthesizeFindings server clock stringify research topic_).
Proof.
  apply Sealed_intro; [apply Halts_entry | apply Guarded_synthesizeFindings].
Qed.

Lemma Sealed_conductResearch (topic_ depth : jsstring) (iterations : Z) :
  Sealed (conductResearch server clock stringify topic_ depth iterations).
Proof.
  apply Sealed_intro; [apply Halts_entry | apply Guarded_conductResearch].
Qed.
End CancellationRules.

(** ** Plain objects: reading back what was assigned *)

Lemma jsstring_eqb_neq (a b : jsstring) : a <> b -> jsstring_eqb a b = false.
Proof.
  intros H. unfold jsstring_eqb.
  now destruct (list_eq_dec N.eq_dec a b).
Qed.

Lemma jsstring_eqb_eq (a b : jsstring) : jsstring_eqb a b = true <-> a = b.
Proof.
  unfold jsstring_eqb. destruct (list_eq_dec N.eq_dec a b); split;
    intros; try assumption; try reflexivity; try discriminate; contradiction.
Qed.

Lemma jsstring_eqb_refl (a : jsstring) : jsstring_eqb a a = true.
Proof. now apply jsstring_eqb_eq. Qed.

Section ObjFacts.
Variable V : Type.
Implicit Types (o : Obj.t V) (k : jsstring) (v : V).

Lemma get_replace o k v o' :
  Obj.replace k v o = Some o' ->
  Obj.get o' k = Some v
  /\ (forall k', k' <> k -> Obj.get o' k' = Obj.get o k')
  /\ length o' = length o.
Proof.
  revert o'. induction o as [|[k0 v0] o IH]; intros o' H; [discriminate|].
  cbn [Obj.replace] in H.
  destruct (jsstring_eqb k0 k) eqn:E.
  - injection H as <-. apply jsstring_eqb_eq in E. subst k0.
    cbn [Obj.get]. rewrite jsstring_eqb_refl.
    split; [reflexivity|]. split; [|reflexivity].
    intros k' Hk. now rewrite (jsstring_eqb_neq k k') by congruence.
  - destruct (Obj.replace k v o) as [o''|]; [|discriminate].
    injection H as <-. destruct (IH o'' eq_refl) as (H1 & H2 & H3).
    cbn [Obj.get length]. rewrite E.
    split; [exact H1|]. split; [|now rewrite H3].
    intros k' Hk. destruct (jsstring_eqb k0 k'); [reflexivity | now apply H2].
Qed.

Lemma get_replace_none o k v :
  Obj.replace k v o = None -> Obj.get o k = None.
Proof.
  induction o as [|[k0 v0] o IH]; [reflexivity|].
  cbn [Obj.replace Obj.get]. destruct (jsstring_eqb k0 k); [discriminate|].
  destruct (Obj.replace k v o); [discriminate | auto].
Qed.

Lemma get_snoc o k v k' :
  Obj.get (o ++ [(k, v)]) k'
  = match Obj.get o k' with
    | Some v' => Some v'
    | None => if jsstring_eqb k k' then Some v else None
    end.
Proof.
  induction o as [|[k0 v0] o IH]; [reflexivity|].
  cbn [app Obj.get]. destruct (jsstring_eqb k0 k'); [reflexivity | exact IH].
Qed.

(** Reading back what was assigned; the other properties are untouched. *)
Lemma get_set o k v :
  (k <> PROTO -> Obj.get (Obj.set o k v) k = Some v)
  /\ (forall k', k' <> k -> Obj.get (Obj.set o k v) k' = Obj.get o k')
  /\ length (Obj.set o k v) <= S (length o).
Proof.
  unfold Obj.set. fold PROTO.
  destruct (jsstring_eqb k PROTO) eqn:Ep.
  - apply jsstring_eqb_eq in Ep. split; [contradiction|].
    split; [reflexivity | lia].
  - destruct (Obj.replace k v o) as [o'|] eqn:Er.
    + destruct (get_replace o k v o' Er) as (H1 & H2 & H3).
      split; [auto|]. split; [exact H2 | lia].
    + split; [|split].
      * intros _. rewrite get_snoc, (get_replace_none o k v Er).
        now rewrite jsstring_eqb_refl.
      * intros k' Hk. rewrite get_snoc.
        destruct (Obj.get o k'); [reflexivity|].
        now rewrite (jsstring_eqb_neq k k') by congruence.
      * rewrite length_app. cbn. lia.
Qed.
End ObjFacts.

Lemma record_all_untouched (entries : list (jsstring * PerspectiveResult)) :
  forall acc k,
    ~ In k (map fst entries) ->
    Obj.get (record_all entries acc) k = Obj.get acc k.
Proof.
  induction entries as [|[p v] entries IH]; intros acc k Hk; [reflexivity|].
  cbn [record_all fold_left fst snd map In] in *.
  change (fold_left _ entries ?a) with (record_all entries a).
  rewrite IH by tauto.
  apply (proj1 (proj2 (get_set _ acc p v))). intros ->. tauto.
Qed.

Lemma record_all_has (entries : list (jsstring * PerspectiveResult)) :
  forall acc k,
    In k (map fst entries) -> k <> PROTO ->
    exists r, Obj.get (record_all entries acc) k = Some r /\ In (k, r) entries.
Proof.
  induction entries as [|[p v] entries IH]; intros acc k Hk Hp; [contradiction|].
  cbn [record_all fold_left fst snd map] in *.
  change (fold_left _ entries ?a) with (record_all entries a).
  destruct (in_dec (list_eq_dec N.eq_dec) k (map fst entries)) as [Hin | Hout].
  - destruct (IH (Obj.set acc p v) k Hin Hp) as (r & Hr & Hi).
    exists r. split; [exact Hr | now right].
  - destruct Hk as [<- | Hk]; [|contradiction].
    exists v. rewrite record_all_untouched by exact Hout.
    split; [now apply get_set | now left].
Qed.

Lemma record_all_from (entries : list (jsstring * PerspectiveResult)) :
  forall acc k r,
    Obj.get (record_all entries acc) k = Some r ->
    Obj.get acc k = Some r \/ In (k, r) entries.
Proof.
  induction entries as [|[p v] entries IH]; intros acc k r H; [now left|].
  cbn [record_all fold_left fst snd] in H.
  change (fold_left _ entries ?a) with (record_all entries a) in H.
  destruct (IH (Obj.set acc p v) k r H) as [Hs | Hi]; [|right; now right].
  destruct (list_eq_dec N.eq_dec k p) as [-> | Hne].
  - destruct (list_eq_dec N.eq_dec p PROTO) as [-> | Hp].
    + left. unfold Obj.set in Hs. fold PROTO in Hs.
      now rewrite jsstring_eqb_refl in Hs.
    + rewrite (proj1 (get_set _ acc p v) Hp) in Hs. injection Hs as <-.
      right. now left.
  - left. now rewrite (proj1 (proj2 (get_set _ acc p v)) k Hne) in Hs.
Qed.

Lemma record_all_length (entries : list (jsstring * PerspectiveResult)) :
  forall acc, length (record_all entries acc) <= length acc + length entries.
Proof.
  induction entries as [|[p v] entries IH]; intros acc; cbn [length]; [cbn; lia|].
  cbn [record_all fold_left fst snd].
  change (fold_left _ entries ?a) with (record_all entries a).
  specialize (IH (Obj.set acc p v)).
  pose proof (proj2 (proj2 (get_set _ acc p v))). lia.
Qed.


Lemma record_all_app (a b : list (jsstring * PerspectiveResult))
      (acc : Obj.t PerspectiveResult) :
  record_all (a ++ b) acc = record_all b (record_all a acc).
Proof. apply fold_left_app. Qed.


(** ** Faults say what went wrong *)

Lemma described_suffix (a b : jsstring) : b <> [] -> a ++ b <> [].
Proof. intros Hb E. apply app_eq_nil in E as [_ E]. contradiction. Qed.

Lemma safeGetFirstChoiceContent_fault (data : json) (e : JsError) :
  safeGetFirstChoiceContent data = Err e -> e = mkError MALFORMED_MESSAGE.
Proof.
  unfold safeGetFirstChoiceContent.
  destruct (_ && _).
  - destruct (prop "content" _) as [[]|]; intros H; congruence.
  - intros H. congruence.
Qed.

Section RaisesRules.
Variable P : JsError -> Prop.

Lemma Raises_ret {A} (a : A) : Raises P (ret a).
Proof. intros w e w' H. discriminate. Qed.

Lemma Raises_throw {A} (e : JsError) : P e -> Raises P (@throw A e).
Proof. intros He w e' w' H. unfold throw in H. injection H as <- _. exact He. Qed.

Lemma Raises_get_self : Raises P get_self.
Proof. intros w e w' H. discriminate. Qed.

Lemma Raises_emit (x : Effect) : Raises P (emit x).
Proof. intros w e w' H. discriminate. Qed.

Lemma Raises_bind {A B} (m : M A) (k : A -> M B) :
  Raises P m -> (forall a, Raises P (k a)) -> Raises P (bind m k).
Proof.
  intros Hm Hk w e w' H. rewrite bind_run in H.
  destruct (m w) as [[a | e0] w1] eqn:Em.
  - exact (Hk a w1 e w' H).
  - injection H as <- <-. exact (Hm w e0 w1 Em).
Qed.

Lemma Raises_try_catch {A} (m : M A) (h : JsError -> M A) :
  (forall e, Raises P (h e)) -> Raises P (try_catch m h).
Proof.
  intros Hh w e w' H. unfold try_catch in H.
  destruct (m w) as [[a | e0] w1]; [discriminate|].
  exact (Hh e0 w1 e w' H).
Qed.
End RaisesRules.

Section DescribedFaults.
Variable server : nat -> Exchange.
Variable clock : nat -> jsstring.
Variable stringify : json -> jsstring.

Lemma described_cancellation : described CancellationFault.
Proof. discriminate. Qed.

Lemma Raises_log (msg : jsstring) (level : Level) :
  Raises described (log clock msg level).
Proof.
  intros w e w' H. rewrite log_run in H.
  destruct (active (self w)); [discriminate|].
  injection H as <- _. apply described_cancellation.
Qed.

Lemma Raises_handle_fetch (label : jsstring) (r : FetchResult) :
  Raises described (handle_fetch clock stringify label r).
Proof.
  unfold handle_fetch. destruct r as [name msg | response].
  - destruct (jsstring_eqb name (js "AbortError"));
      apply Raises_throw; apply described_suffix; discriminate.
  - destruct (negb (ok response)); [|destruct (body response) as [pm | data]].
    + apply Raises_bind; [apply Raises_log | intros _].
      apply Raises_throw, described_suffix. discriminate.
    + apply Raises_bind; [apply Raises_log | intros _].
      apply Raises_throw, described_suffix. discriminate.
    + apply Raises_bind.
      * intros w e w' H. unfold lift in H.
        destruct (safeGetFirstChoiceContent data) as [c | e0] eqn:E;
          [discriminate|].
        injection H as <- _.
        rewrite (safeGetFirstChoiceContent_fault data e0 E). discriminate.
      * intros c. apply Raises_bind; [apply Raises_log | intros _].
        apply Raises_ret.
Qed.

Lemma Raises_callOpenRouter (msgs : list Message) (opts : Options.t) :
  Raises described (callOpenRouter server clock stringify msgs opts).
Proof.
  intros w e w' H.
  destruct (active (self w)) eqn:Hact.
  - destruct msgs as [|m msgs].
    + unfold callOpenRouter in H. rewrite bind_run in H.
      unfold ensureActive at 1 in H. rewrite Hact in H.
      injection H as <- _. discriminate.
    + rewrite (callOpenRouter_active server clock stringify
                 (m :: msgs) opts w Hact) in H by discriminate.
      exact (Raises_handle_fetch _ _ _ _ _ H).
  - rewrite (callOpenRouter_inactive server clock stringify msgs opts w Hact) in H.
    injection H as <- _. apply described_cancellation.
Qed.

Lemma Raises_ensureActive : Raises described ensureActive.
Proof.
  intros w e w' H. unfold ensureActive in H.
  destruct (active (self w)); [discriminate|].
  injection H as <- _. apply described_cancellation.
Qed.

Lemma Raises_researchSinglePerspective (perspective depth labelPrefix : jsstring) :
  Raises described (researchSinglePerspective server clock stringify
                                              perspective depth labelPrefix).
Proof.
  unfold researchSinglePerspective.
  repeat first [ simple apply Raises_ensureActive
               | simple apply Raises_callOpenRouter
               | simple apply Raises_get_self
               | simple apply Raises_ret
               | simple apply Raises_bind; [|intro]
               | progress cbv zeta ].
Qed.
End DescribedFaults.

(** ** Phase 3 on a run that is not cancelled *)

Lemma skipn_cons_nth {A} (d : A) (l : list A) :
  forall i, i < length l -> skipn i l = nth i l d :: skipn (S i) l.
Proof.
  induction l as [|x l IH]; intros i Hi; simpl in Hi; [lia|].
  destruct i as [|i]; [reflexivity|].
  simpl. apply IH. lia.
Qed.

Lemma failed_result_flagged (e : JsError) :
  described e -> error_flagged (failed_result e).
Proof. intros H. exists (message e). split; [exact H | reflexivity]. Qed.

Section Phase3.
Variable server : nat -> Exchange.
Variable clock : nat -> jsstring.
Variable stringify : json -> jsstring.
Hypothesis never_cancelled : forall n, cancelled_in_flight (server n) = false.






End Phase3.



(** ** Phases 1 and 2 *)

Section PhaseFacts.
Variable server : nat -> Exchange.
Variable clock : nat -> jsstring.
Variable stringify : json -> jsstring.

Local Notation logged := (logged clock).
Local Notation received := (received server clock).

Lemma answers_not_cancelled (n : nat) (c : jsstring) :
  answers server n c -> cancelled_in_flight (server n) = false.
Proof. intros (response & data & Hx & _). now rewrite Hx. Qed.

Lemma analyzeTopic_run (topic_ : jsstring) (w : World) (c : jsstring) :
  active (self w) = true -> answers server (requests w) c ->
  exists w',
    analyzeTopic server clock stringify topic_ w
    = (Ok {| analysis := or_else c (js "No analysis returned by the model.") |},
       w').
Proof.
  intros Hact Hans. unfold analyzeTopic.
  rewrite bind_run. unfold ensureActive at 1. rewrite Hact.
  rewrite bind_run, (log_active clock _ _ w Hact). cbv zeta.
  rewrite bind_run.
  erewrite callOpenRouter_answers; [| exact Hact | discriminate | exact Hans].
  rewrite bind_run, log_active.
  - eexists. reflexivity.
  - apply received_active; [exact Hact|].
    exact (answers_not_cancelled _ _ Hans).
Qed.

Lemma gatherPerspectives_run (topic_ : jsstring) (ta : option TopicAnalysis)
      (iterations : Z) (w : World) (raw : jsstring) :
  active (self w) = true -> answers server (requests w) raw ->
  exists w',
    gatherPerspectives server clock stringify topic_ ta iterations w
    = (match parsePerspectives raw with
       | [] => Err (mkError EMPTY_GENERATION_MESSAGE)
       | parsed => Ok (firstn (Z.to_nat (Z.max iterations 3)) parsed)
       end, w').
Proof.
  intros Hact Hans. unfold gatherPerspectives.
  rewrite bind_run. unfold ensureActive at 1. rewrite Hact.
  rewrite bind_run, (log_active clock _ _ w Hact). cbv zeta.
  rewrite bind_run.
  erewrite callOpenRouter_answers; [| exact Hact | discriminate | exact Hans].
  destruct (parsePerspectives raw) as [|p0 parsed].
  - eexists. reflexivity.
  - rewrite bind_run, log_active.
    + eexists. reflexivity.
    + apply received_active; [exact Hact|].
      exact (answers_not_cancelled _ _ Hans).
Qed.

Lemma gatherPerspectives_returns (topic_ : jsstring) (ta : option TopicAnalysis)
      (iterations : Z) (w w' : World) (kept : list jsstring) :
  gatherPerspectives server clock stringify topic_ ta iterations w = (Ok kept, w') ->
  exists raw,
    answers server (requests w) raw
    /\ parsePerspectives raw <> []
    /\ kept = firstn (Z.to_nat (Z.max iterations 3)) (parsePerspectives raw).
Proof.
  intros H. unfold gatherPerspectives in H.
  rewrite bind_run in H. unfold ensureActive at 1 in H.
  destruct (active (self w)) eqn:Hact; [|discriminate].
  rewrite bind_run, (log_active clock _ _ w Hact) in H. cbv zeta in H.
  rewrite bind_run in H.
  match type of H with
  | context [callOpenRouter ?s ?c ?j ?msgs ?opts ?w1] =>
      destruct (callOpenRouter s c j msgs opts w1) as [[raw | e] w2] eqn:Ecall
  end; [|discriminate].
  apply callOpenRouter_returns in Ecall as (_ & Hans & ->).
  exists raw. split; [exact Hans|].
  destruct (parsePerspectives raw) as [|p0 parsed] eqn:Ep; [discriminate|].
  split; [discriminate|].
  rewrite bind_run in H.
  match type of H with
  | context [log ?c ?m ?l ?w1] => destruct (log c m l w1) as [[[]|e] w3]
  end; [|discriminate].
  unfold ret in H. now injection H as <- _.
Qed.
End PhaseFacts.

(** ** The perspective parser *)

Lemma split_on_all (p : N -> bool) (sep : N) (s : jsstring) :
  forallb p s = true -> Forall (fun piece => forallb p piece = true) (split_on sep s).
Proof.
  induction s as [|c s IH]; intros H; simpl.
  - constructor; [reflexivity | constructor].
  - simpl in H. apply andb_prop in H as [Hc Hs]. specialize (IH Hs).
    destruct (c =? sep)%N.
    + constructor; [reflexivity | exact IH].
    + destruct (split_on sep s) as [|piece pieces].
      * constructor; [simpl; now rewrite Hc | constructor].
      * inversion IH as [|? ? Hp Hps]; subst.
        constructor; [simpl; now rewrite Hc, Hp | exact Hps].
Qed.

Lemma blocks_go_all (p : N -> bool) (s : jsstring) :
  p LF = true ->
  forall cur nl,
    forallb p cur = true -> forallb p s = true ->
    Forall (fun piece => forallb p piece = true) (ParserSpec.blocks_go cur nl s).
Proof.
  intros HLF. induction s as [|c s IH]; intros cur nl Hcur Hs.
  - assert (Hrev : forallb p (rev cur) = true).
    { rewrite forallb_forall in *. intros x Hx. apply Hcur. now apply in_rev. }
    destruct nl as [|[|nl]]; simpl.
    + repeat constructor. exact Hrev.
    + repeat constructor. rewrite forallb_app, Hrev. simpl. now rewrite HLF.
    + repeat constructor. exact Hrev.
  - simpl in Hs. apply andb_prop in Hs as [Hc Hs]. cbn [ParserSpec.blocks_go].
    destruct (LF =? c)%N; [now apply IH|].
    destruct nl as [|[|nl]].
    + apply IH; [simpl; now rewrite Hc | exact Hs].
    + apply IH; [simpl; now rewrite Hc, HLF | exact Hs].
    + constructor.
      * rewrite forallb_forall in *. intros x Hx. apply Hcur. now apply in_rev.
      * apply IH; [simpl; now rewrite Hc | exact Hs].
Qed.

Lemma flat_map_nil {A B} (f : A -> list B) (l : list A) :
  Forall (fun x => f x = []) l -> flat_map f l = [].
Proof.
  induction 1 as [|x l Hx _ IH]; simpl; [reflexivity|]. now rewrite Hx, IH.
Qed.

Lemma blank_line_skipped (line : jsstring) :
  forallb is_ws line = true -> parse_line line = [].
Proof. intros H. unfold parse_line. now rewrite (trim_blank line H). Qed.

Lemma blank_blocks_dropped (pieces : list jsstring) :
  Forall (fun piece => forallb is_ws piece = true) pieces ->
  filter truthy (map trim pieces) = [].
Proof.
  induction 1 as [|piece pieces Hp _ IH]; simpl; [reflexivity|].
  now rewrite (trim_blank piece Hp).
Qed.

Lemma blank_numbered_path (raw : jsstring) :
  forallb is_ws raw = true -> flat_map parse_line (split_on LF raw) = [].
Proof.
  intros H. apply flat_map_nil.
  eapply Forall_impl; [|apply (split_on_all is_ws LF raw H)].
  intros line. apply blank_line_skipped.
Qed.

Lemma blank_paragraph_path (raw : jsstring) :
  forallb is_ws raw = true ->
  filter truthy (map trim (split_regex blank_lines_re raw)) = [].
Proof.
  intros H. rewrite split_regex_blocks. apply blank_blocks_dropped.
  now apply blocks_go_all.
Qed.

(** C4 (as amended). [parsePerspectives] splits its input into lines and
    keeps, in line order, the trimmed rest of every line whose trimmed text
    is digits, then [.] or [)], then optional whitespace, then a non-empty
    rest without line terminator, silently skipping the other lines; when no
    line is kept, it returns the non-empty trimmed blocks between runs of two
    or more newlines.  The two examples of the design document hold. *)
Theorem parsePerspectives_numbered_or_paragraphs :
  (forall raw, parsePerspectives raw = ParserSpec.parse_matched raw)
  /\ parsePerspectives (js "1. A: x" ++ [LF] ++ js "2. B: y")
     = [js "A: x"; js "B: y"]
  /\ parsePerspectives (js "Paragraph one." ++ [LF; LF] ++ js "Paragraph two.")
     = [js "Paragraph one."; js "Paragraph two."].
Proof.
  split; [exact parsePerspectives_matched|]. split; reflexivity.
Qed.

(** C4 as the design document words it, with the whitespace of the pattern
    required, fails on a line such as [1.A]: the parser keeps [A], the
    worded algorithm finds no numbered line and returns the paragraph. *)
Lemma parsePerspectives_not_as_worded :
  parsePerspectives (js "1.A") = [js "A"]
  /\ ParserSpec.parse_worded (js "1.A") = [js "1.A"]
  /\ parsePerspectives (js "1.A") <> ParserSpec.parse_worded (js "1.A").
Proof. split; [reflexivity | split; [reflexivity | discriminate]]. Qed.

(** A rest that holds a carriage return does not match either. *)
Example parsePerspectives_rest_with_CR :
  parsePerspectives (js "1. A" ++ [CR] ++ js "B") = [js "1. A" ++ [CR] ++ js "B"]
  /\ ParserSpec.parse_worded (js "1. A" ++ [CR] ++ js "B") = [js "A" ++ [CR] ++ js "B"].
Proof. split; reflexivity. Qed.

(** ** Phase 2 *)

(** C3 (as amended). Whenever [gatherPerspectives] returns, what it returns
    is the prefix, in original order, of the list parsed from the model's
    text, of length min(max(iterations, 3), number of parsed perspectives):
    at least one perspective and at most max(iterations, 3). *)
Theorem gatherPerspectives_returns_capped_prefix
        (server : nat -> Exchange) (clock : nat -> jsstring)
        (stringify : json -> jsstring)
        (topic_ : jsstring) (ta : option TopicAnalysis) (iterations : Z)
        (w w' : World) (kept : list jsstring) :
  gatherPerspectives server clock stringify topic_ ta iterations w = (Ok kept, w') ->
  exists raw,
    answers server (requests w) raw
    /\ kept = firstn (Z.to_nat (Z.max iterations 3)) (parsePerspectives raw)
    /\ length kept = Nat.min (Z.to_nat (Z.max iterations 3))
                             (length (parsePerspectives raw))
    /\ 1 <= length kept <= Z.to_nat (Z.max iterations 3).
Proof.
  intros H.
  destruct (gatherPerspectives_returns server clock stringify
              topic_ ta iterations w w' kept H) as (raw & Hans & Hne & ->).
  exists raw. split; [exact Hans|]. split; [reflexivity|].
  rewrite length_firstn. split; [reflexivity|].
  destruct (parsePerspectives raw) as [|p0 parsed]; [contradiction|].
  simpl length. lia.
Qed.

Lemma gatherPerspectives_returns_capped_prefix_witness :
  exists raw,
    answers (Scenario.always (js "1. Alpha: first angle")) 0 raw
    /\ [Scenario.A]
       = firstn (Z.to_nat (Z.max 3 3)) (parsePerspectives raw)
    /\ length [Scenario.A]
       = Nat.min (Z.to_nat (Z.max 3 3)) (length (parsePerspectives raw))
    /\ 1 <= length [Scenario.A] <= Z.to_nat (Z.max 3 3).
Proof.
  apply (gatherPerspectives_returns_capped_prefix
           (Scenario.always (js "1. Alpha: first angle"))
           Scenario.clock Scenario.stringify Scenario.sleep None 3
           Scenario.start
           (snd (gatherPerspectives
                   (Scenario.always (js "1. Alpha: first angle"))
                   Scenario.clock Scenario.stringify Scenario.sleep None 3
                   Scenario.start))
           [Scenario.A]).
  vm_compute. reflexivity.
Defined.

(** C3 as stated fails: with [iterations = 3] and a model that lists one
    perspective, [gatherPerspectives] returns that one perspective, not
    max(3, 3) = 3 of them. *)
Lemma gatherPerspectives_shorter_than_max :
  let run := gatherPerspectives (Scenario.always (js "1. Alpha: first angle"))
                                Scenario.clock Scenario.stringify
                                Scenario.sleep None 3 Scenario.start in
  fst run = Ok [Scenario.A]
  /\ length [Scenario.A] <> Z.to_nat (Z.max 3 3).
Proof. split; [vm_compute; reflexivity | discriminate]. Qed.

(** C5. A text that is empty or all whitespace yields no perspective, on the
    numbered-list path and on the paragraph path alike; and whenever the
    text of the model parses to no perspective, [gatherPerspectives] throws
    the empty-generation fault. *)
Theorem blank_text_is_empty_generation
        (server : nat -> Exchange) (clock : nat -> jsstring)
        (stringify : json -> jsstring) :
  (forall raw,
      forallb is_ws raw = true ->
      flat_map parse_line (split_on LF raw) = []
      /\ filter truthy (map trim (split_regex blank_lines_re raw)) = []
      /\ parsePerspectives raw = [])
  /\ (forall topic_ ta iterations w raw,
         active (self w) = true ->
         answers server (requests w) raw ->
         parsePerspectives raw = [] ->
         fst (gatherPerspectives server clock stringify topic_ ta iterations w)
         = Err EmptyGenerationFault).
Proof.
  split.
  - intros raw H.
    pose proof (blank_numbered_path raw H) as H1.
    pose proof (blank_paragraph_path raw H) as H2.
    split; [exact H1|]. split; [exact H2|].
    unfold parsePerspectives. cbv zeta. now rewrite H1.
  - intros topic_ ta iterations w raw Hact Hans Hnil.
    destruct (gatherPerspectives_run server clock stringify
                topic_ ta iterations w raw Hact Hans) as [w' ->].
    now rewrite Hnil.
Qed.

Lemma blank_text_is_empty_generation_witness :
  parsePerspectives (js "  " ++ [LF; 9%N; LF; LF] ++ js " ") = []
  /\ fst (gatherPerspectives
            (Scenario.always (js "  " ++ [LF; 9%N; LF; LF] ++ js " "))
            Scenario.clock Scenario.stringify Scenario.sleep None 3
            Scenario.start)
     = Err EmptyGenerationFault.
Proof.
  pose (raw := js "  " ++ [LF; 9%N; LF; LF] ++ js " ").
  pose (T := blank_text_is_empty_generation
               (Scenario.always raw) Scenario.clock Scenario.stringify).
  split.
  - apply (proj1 T raw). reflexivity.
  - apply (proj2 T Scenario.sleep None 3%Z Scenario.start raw).
    + reflexivity.
    + do 2 eexists. split; [reflexivity|]. split; [reflexivity|].
      split; reflexivity.
    + reflexivity.
Defined.

(** ** Phase 1 *)

(** C9. When the model's text is non-empty, [analyzeTopic] returns it as the
    [analysis]; when it is empty, it returns the fixed fallback string. *)
Theorem analyzeTopic_text_or_fallback
        (server : nat -> Exchange) (clock : nat -> jsstring)
        (stringify : json -> jsstring)
        (topic_ : jsstring) (w : World) (c : jsstring) :
  active (self w) = true ->
  answers server (requests w) c ->
  exists ta w',
    analyzeTopic server clock stringify topic_ w = (Ok ta, w')
    /\ (c <> [] -> analysis ta = c)
    /\ (c = [] -> analysis ta = js "No analysis returned by the model.").
Proof.
  intros Hact Hans.
  destruct (analyzeTopic_run server clock stringify topic_ w c Hact Hans)
    as [w' Hrun].
  eexists. exists w'. split; [exact Hrun|]. simpl. split.
  - intros Hc. destruct c; [contradiction | reflexivity].
  - intros ->. reflexivity.
Qed.

Lemma analyzeTopic_text_or_fallback_witness :
  exists ta w',
    analyzeTopic (Scenario.always (js "Sleep consolidates memory."))
                 Scenario.clock Scenario.stringify Scenario.sleep Scenario.start
    = (Ok ta, w')
    /\ (js "Sleep consolidates memory." <> []
        -> analysis ta = js "Sleep consolidates memory.")
    /\ (js "Sleep consolidates memory." = []
        -> analysis ta = js "No analysis returned by the model.").
Proof.
  apply analyzeTopic_text_or_fallback.
  - reflexivity.
  - do 2 eexists. split; [reflexivity|]. split; [reflexivity|].
    split; reflexivity.
Defined.

Example analyzeTopic_empty_answer :
  fst (analyzeTopic (Scenario.always []) Scenario.clock Scenario.stringify
                    Scenario.sleep Scenario.start)
  = Ok {| analysis := js "No analysis returned by the model." |}.
Proof. vm_compute. reflexivity. Qed.

(** ** The sub-pipeline of one perspective *)

Lemma effects_extended_refl (w : World) : effects_extended w w.
Proof. exists []. now rewrite app_nil_r. Qed.

Lemma effects_extended_trans (a b c : World) :
  effects_extended a b -> effects_extended b c -> effects_extended a c.
Proof.
  intros [x Hx] [y Hy]. exists (x ++ y). now rewrite Hy, Hx, app_assoc.
Qed.

Lemma fetches_app (a b : list Effect) : fetches (a ++ b) = fetches a ++ fetches b.
Proof. unfold fetches. apply flat_map_app. Qed.

Section SubPipelineFacts.
Variable server : nat -> Exchange.
Variable clock : nat -> jsstring.
Variable stringify : json -> jsstring.

Lemma effects_extended_emit (e : Effect) : Keeps effects_extended (emit e).
Proof. intros w. now exists [e]. Qed.

Lemma effects_extended_now : Keeps effects_extended (now clock).
Proof. intros w. exists []. simpl. now rewrite app_nil_r. Qed.

Lemma effects_extended_fetch (req : Request) :
  Keeps effects_extended (fetch server req).
Proof. intros w. now exists [Fetch req]. Qed.

Lemma effects_extended_push (entry : jsstring) :
  Keeps effects_extended
        (modify_self
           (fun this => set_researchLog (push_entry entry (researchLog this)) this)).
Proof. intros w. exists []. simpl. now rewrite app_nil_r. Qed.

(** The effects of the first line of [callOpenRouter] hold no request. *)
Lemma sent_effects (msgs : list Message) (opts : Options.t) (w : World) :
  exists pre,
    effects (sent server clock msgs opts w)
    = effects w ++ pre ++ [Fetch (request_of (self w) msgs opts)]
    /\ fetches pre = [].
Proof.
  unfold sent, logged. cbn [fetch snd effects requests self].
  eexists. split.
  - rewrite <- app_assoc. reflexivity.
  - destruct (onLog (uiHooks (self w))), (onProgressText (uiHooks (self w)));
      reflexivity.
Qed.

(** The first request of a computation that starts with a gateway call. *)
Lemma first_request_of_call {A} (msgs : list Message) (opts : Options.t)
      (k : jsstring -> M A) (w : World) :
  active (self w) = true -> msgs <> [] ->
  (forall a, Keeps effects_extended (k a)) ->
  hd_error (fetches (performed w
                       (snd (bind (callOpenRouter server clock stringify msgs opts)
                                  k w))))
  = Some (request_of (self w) msgs opts).
Proof.
  intros Hact Hmsgs Hk.
  assert (H : effects_extended
                (sent server clock msgs opts w)
                (snd (bind (callOpenRouter server clock stringify msgs opts) k w))).
  { rewrite bind_run, (callOpenRouter_active server clock stringify msgs opts w Hact Hmsgs).
    pose proof (Keeps_handle_fetch effects_extended effects_extended_refl
                  effects_extended_trans clock stringify
                  effects_extended_emit effects_extended_now
                  effects_extended_push
                  (Options.label opts) (result (server (requests w)))
                  (sent server clock msgs opts w)) as Hh.
    destruct (handle_fetch clock stringify (Options.label opts)
                           (result (server (requests w)))
                           (sent server clock msgs opts w)) as [[a | e] w2];
      simpl in Hh |- *; [|exact Hh].
    eapply effects_extended_trans; [exact Hh | apply Hk]. }
  destruct H as [more Hmore].
  destruct (sent_effects msgs opts w) as (pre & Hpre & Hnone).
  unfold performed. rewrite Hmore, Hpre.
  rewrite <- !app_assoc, skipn_app, Nat.sub_diag, skipn_all. simpl skipn.
  rewrite app_nil_l, !fetches_app, Hnone. reflexivity.
Qed.
End SubPipelineFacts.

(** C10. A depth that is neither ['extreme'] nor ['advanced'], whatever
    string it is, gets the budget of the normal depth, 3000 tokens at
    temperature 0.22: the sub-pipeline then behaves, in every world, exactly
    as for ['normal'] (it validates nothing and throws nothing on account of
    the depth), and the first request of an active run carries that
    budget. *)
Theorem unrecognized_depth_is_normal
        (server : nat -> Exchange) (clock : nat -> jsstring)
        (stringify : json -> jsstring)
        (perspective depth labelPrefix : jsstring) :
  depth <> js "extreme" -> depth <> js "advanced" ->
  depth_maxTokens depth = 3000%Z
  /\ depth_temperature depth = (22 # 100)%Q
  /\ (forall w,
         researchSinglePerspective server clock stringify
                                   perspective depth labelPrefix w
         = researchSinglePerspective server clock stringify
                                     perspective (js "normal") labelPrefix w)
  /\ (forall w,
         active (self w) = true ->
         exists req,
           hd_error
             (fetches
                (performed w
                   (snd (researchSinglePerspective server clock stringify
                           perspective depth labelPrefix w))))
           = Some req
           /\ max_tokens req = 3000%Z
           /\ temperature req = (22 # 100)%Q).
Proof.
  intros Hx Ha.
  assert (Ht : depth_maxTokens depth = 3000%Z).
  { unfold depth_maxTokens.
    now rewrite (jsstring_eqb_neq _ _ Hx), (jsstring_eqb_neq _ _ Ha). }
  assert (Hq : depth_temperature depth = (22 # 100)%Q).
  { unfold depth_temperature.
    now rewrite (jsstring_eqb_neq _ _ Hx), (jsstring_eqb_neq _ _ Ha). }
  split; [exact Ht|]. split; [exact Hq|]. split.
  - intros w. unfold researchSinglePerspective. rewrite Ht, Hq. reflexivity.
  - intros w Hact. eexists. split.
    + unfold researchSinglePerspective.
      rewrite bind_run. unfold ensureActive at 1. rewrite Hact.
      cbv zeta. rewrite bind_run. unfold get_self at 1.
      apply first_request_of_call; [exact Hact | discriminate |].
      intros a.
      repeat first
             [ simple apply (Keeps_callOpenRouter effects_extended
                               effects_extended_refl effects_extended_trans
                               server clock stringify
                               effects_extended_emit (effects_extended_now clock)
                               (effects_extended_fetch server)
                               effects_extended_push)
             | simple apply Keeps_ret; [exact effects_extended_refl]
             | simple apply Keeps_bind;
               [exact effects_extended_trans | | intro]
             | progress cbv zeta ].
    + simpl. split; [exact Ht | exact Hq].
Qed.

Lemma unrecognized_depth_is_normal_witness :
  depth_maxTokens (js "nromal") = 3000%Z
  /\ depth_temperature (js "nromal") = (22 # 100)%Q
  /\ (forall w,
         researchSinglePerspective (Scenario.always (js "text"))
                                   Scenario.clock Scenario.stringify
                                   Scenario.A (js "nromal") (js "Perspective 1/1") w
         = researchSinglePerspective (Scenario.always (js "text"))
                                     Scenario.clock Scenario.stringify
                                     Scenario.A (js "normal") (js "Perspective 1/1") w)
  /\ (forall w,
         active (self w) = true ->
         exists req,
           hd_error
             (fetches
                (performed w
                   (snd (researchSinglePerspective (Scenario.always (js "text"))
                           Scenario.clock Scenario.stringify
                           Scenario.A (js "nromal") (js "Perspective 1/1") w))))
           = Some req
           /\ max_tokens req = 3000%Z
           /\ temperature req = (22 # 100)%Q).
Proof.
  apply unrecognized_depth_is_normal; discriminate.
Defined.

(** ** Phase 3: concrete runs *)


(** The second perspective fails on its first request; it is recorded with
    the failure marker and the third is researched all the same. *)
Example deepResearch_second_of_three_fails :
  let results :=
    fst (deepResearch (Scenario.fifth_fails (js "text"))
                      Scenario.clock Scenario.stringify
                      [Scenario.A; Scenario.B; Scenario.C] (js "normal") 3
                      Scenario.start) in
  exists map_,
    results = Ok map_
    /\ Obj.keys map_ = [Scenario.A; Scenario.B; Scenario.C]
    /\ Obj.get map_ Scenario.B
       = Some (failed_result
                 (mkError (js "Perspective 2/3 " ++ EN_DASH
                              ++ js " Initial research API error: 500 Internal Server Error")))
    /\ Obj.get map_ Scenario.C
       = Some {| error_ := None; initial_research := js "text";
                 critical_analysis := js "text"; identified_gaps := js "text";
                 synthesis := js "text" |}.
Proof.
  eexists. split; [vm_compute; reflexivity|].
  split; [vm_compute; reflexivity|]. split; vm_compute; reflexivity.
Qed.


(** ** Cancellation *)

Lemma active_cancel (w : World) : active (self (cancel w)) = false.
Proof. reflexivity. Qed.

Lemma Strict_world {A} (m : M A) (w : World) :
  Strict m -> snd (m (cancel w)) = cancel w.
Proof. intros H. now rewrite (H (cancel w) (active_cancel w)). Qed.

Lemma world_after_cancelled
      (server : nat -> Exchange) (clock : nat -> jsstring)
      (stringify : json -> jsstring) (c : Call) (w : World) :
  world_after server clock stringify c (cancel w) = cancel w.
Proof.
  destruct c; cbn [world_after]; [reflexivity | ..];
    apply Strict_world; apply Strict_ensureActive_bind.
Qed.

(** C2. Once [cancel()] has set [active] to false, every phase operation and
    every gateway call throws the cancellation fault at once, in a world it
    leaves exactly as it found it: no request is issued, nothing is logged,
    no field of the run changes; [log], the one writer of the buffer, does
    the same, and so no sequence of calls changes anything any more.  And
    whatever the run, every operation is sealed: each of its writes (a line
    logged, a request, a notification) began while [active] was true; it
    does not return on a cancelled run; and when the run is cancelled while
    the operation is under way, the world it leaves is exactly the one the
    request then in flight left, that request having been sent from a world
    this very run had reached.  From a world where [active] is false no
    write leads anywhere: nothing is written once [active] is false; and
    no write ever touches the credential, the model, the constraints or
    the callbacks, or lets the buffer differ from the last 500 lines of
    the console. *)
Theorem cancelled_run_does_nothing
        (server : nat -> Exchange) (clock : nat -> jsstring)
        (stringify : json -> jsstring) :
  (forall w,
      let c := cancel w in
      (forall topic_,
          analyzeTopic server clock stringify topic_ c = (Err CancellationFault, c))
      /\ (forall topic_ ta iterations,
             gatherPerspectives server clock stringify topic_ ta iterations c
             = (Err CancellationFault, c))
      /\ (forall ps depth iterations,
             deepResearch server clock stringify ps depth iterations c
             = (Err CancellationFault, c))
      /\ (forall p depth labelPrefix,
             researchSinglePerspective server clock stringify p depth labelPrefix c
             = (Err CancellationFault, c))
      /\ (forall research topic_,
             synthesizeFindings server clock stringify research topic_ c
             = (Err CancellationFault, c))
      /\ (forall topic_ depth iterations,
             conductResearch server clock stringify topic_ depth iterations c
             = (Err CancellationFault, c))
      /\ (forall msgs opts,
             callOpenRouter server clock stringify msgs opts c
             = (Err CancellationFault, c))
      /\ (forall msg level, log clock msg level c = (Err CancellationFault, c))
      /\ (forall calls, history server clock stringify calls c = c))
  /\ ((forall topic_,
          Sealed server clock (analyzeTopic server clock stringify topic_))
      /\ (forall topic_ ta iterations,
             Sealed server clock (gatherPerspectives server clock stringify
                                                     topic_ ta iterations))
      /\ (forall ps depth iterations,
             Sealed server clock
                    (deepResearch server clock stringify ps depth iterations))
      /\ (forall p depth labelPrefix,
             Sealed server clock
                    (researchSinglePerspective server clock stringify
                                               p depth labelPrefix))
      /\ (forall research topic_,
             Sealed server clock
                    (synthesizeFindings server clock stringify research topic_))
      /\ (forall topic_ depth iterations,
             Sealed server clock (conductResearch server clock stringify
                                                  topic_ depth iterations))
      /\ (forall msgs opts,
             Sealed server clock (callOpenRouter server clock stringify msgs opts))
      /\ (forall msg level, Sealed server clock (log clock msg level)))
  /\ (forall w w',
         Reached server clock w w' -> active (self w) = false -> w' = w)
  /\ (forall w w', Reached server clock w w' -> same_configuration w w')
  /\ (forall hooks w w',
         Reached server clock w w' -> mirrored hooks w -> mirrored hooks w').
Proof.
  split; [|split; [|split; [|split]]].
  - intros w c.
    do 8 (split; [intros; apply Strict_ensureActive_bind; apply active_cancel|]).
    intros calls. unfold history.
    induction calls as [|call calls IH]; [reflexivity|].
    simpl. subst c. now rewrite world_after_cancelled.
  - split; [intros; apply Sealed_analyzeTopic|].
    split; [intros; apply Sealed_gatherPerspectives|].
    split; [intros; apply Sealed_deepResearch|].
    split; [intros; apply Sealed_researchSinglePerspective|].
    split; [intros; apply Sealed_synthesizeFindings|].
    split; [intros; apply Sealed_conductResearch|].
    split; [intros; apply Sealed_callOpenRouter|].
    intros; apply Sealed_log.
  - apply Reached_inactive.
  - apply Reached_configuration.
  - intros hooks w w' H. exact (Reached_mirror server clock hooks w w' H).
Qed.

Lemma cancelled_run_does_nothing_witness :
  let server := Scenario.cancelled_during_first (js "text") in
  let run := analyzeTopic server Scenario.clock Scenario.stringify
                          Scenario.sleep Scenario.start in
  Reached server Scenario.clock Scenario.start (snd run)
  /\ (exists e, fst run = Err e)
  /\ exists w0 req,
      Reached server Scenario.clock Scenario.start w0
      /\ active (self w0) = true /\ snd run = snd (fetch server req w0).
Proof.
  intros server run.
  destruct (proj1 (proj1 (proj2 (cancelled_run_does_nothing
                                   server Scenario.clock Scenario.stringify)))
                  Scenario.sleep Scenario.start (fst run) (snd run)
                  (surjective_pairing run))
    as (HR & HE & HC).
  split; [exact HR|]. split.
  - apply HE. vm_compute. reflexivity.
  - apply HC; [reflexivity | vm_compute; reflexivity].
Defined.

(** ** The research log: a concrete run *)

Lemma log_buffer_bounded_fifo_witness :
  let l' := researchLog
              (self (snd (log_each Scenario.clock Scenario.many_items
                                   Scenario.start))) in
  l' = tl (entries_of Scenario.clock 0 Scenario.many_items) /\ length l' = 500.
Proof.
  apply (proj2 (proj2 (proj2 (log_buffer_bounded_fifo
                                (Scenario.always []) Scenario.clock
                                Scenario.stringify)))
               Scenario.many_items Scenario.start); reflexivity.
Defined.

(** ** The faults of the gateway *)

Lemma starts_with_app (label rest : jsstring) :
  starts_with label (label ++ rest) = true.
Proof.
  induction label as [|c label IH]; simpl; [reflexivity|].
  now rewrite N.eqb_refl, IH.
Qed.

Section GatewayFaults.
Variable server : nat -> Exchange.
Variable clock : nat -> jsstring.
Variable stringify : json -> jsstring.

Local Notation gateway := (callOpenRouter server clock stringify).
Local Notation sent := (sent server clock).

(** What a fault of the gateway can be: the cancellation fault, the usage
    fault, the malformed-response fault, or a fault whose message starts
    with the label of the call (timeout, network, HTTP, parse). *)
Lemma callOpenRouter_fault_kinds (msgs : list Message) (opts : Options.t)
      (w w' : World) (e : JsError) :
  gateway msgs opts w = (Err e, w') ->
  e = CancellationFault
  \/ e = mkError USAGE_MESSAGE
  \/ e = mkError MALFORMED_MESSAGE
  \/ starts_with (Options.label opts) (message e) = true.
Proof.
  intros H. destruct (active (self w)) eqn:Hact.
  2:{ rewrite (callOpenRouter_inactive server clock stringify msgs opts w Hact) in H.
      left. congruence. }
  destruct msgs as [|m msgs].
  { unfold callOpenRouter in H. rewrite bind_run in H.
    unfold ensureActive at 1 in H. rewrite Hact in H.
    right. left. unfold throw in H. unfold USAGE_MESSAGE. congruence. }
  rewrite (callOpenRouter_active server clock stringify
             (m :: msgs) opts w Hact) in H by discriminate.
  destruct (result (server (requests w))) as [name msg | response];
    cbn [handle_fetch] in H.
  - right. right. right.
    destruct (jsstring_eqb name (js "AbortError"));
      unfold throw in H; injection H as <- _; apply starts_with_app.
  - destruct (negb (ok response)).
    + rewrite bind_run, log_run in H.
      destruct (active (self (sent (m :: msgs) opts w))).
      * right. right. right. unfold throw in H. injection H as <- _.
        apply starts_with_app.
      * left. congruence.
    + destruct (body response) as [pm | data].
      * rewrite bind_run, log_run in H.
        destruct (active (self (sent (m :: msgs) opts w))).
        -- right. right. right. unfold throw in H. injection H as <- _.
           apply starts_with_app.
        -- left. congruence.
      * rewrite bind_run in H. unfold lift at 1 in H.
        destruct (safeGetFirstChoiceContent data) as [c | e0] eqn:Ec.
        -- rewrite bind_run, log_run in H.
           destruct (active (self (sent (m :: msgs) opts w)));
             [discriminate|]. left. congruence.
        -- right. right. left.
           rewrite (safeGetFirstChoiceContent_fault data e0 Ec) in H. congruence.
Qed.

(** A rejected request (timeout or transport failure) makes the call throw
    in the world the request left: nothing is logged after the first
    line. *)
Lemma callOpenRouter_rejected (msgs : list Message) (opts : Options.t)
      (w : World) (name msg : jsstring) :
  active (self w) = true -> msgs <> [] ->
  result (server (requests w)) = FetchReject name msg ->
  gateway msgs opts w
  = (Err (mkError
            (if jsstring_eqb name (js "AbortError")
             then Options.label opts ++ js " timed out after 180s."
             else Options.label opts ++ js " network error: " ++ msg)),
     sent msgs opts w).
Proof.
  intros Hact Hmsgs Hr.
  rewrite (callOpenRouter_active server clock stringify msgs opts w Hact Hmsgs), Hr.
  cbn [handle_fetch]. now destruct (jsstring_eqb name (js "AbortError")).
Qed.

(** So does a 2xx response without [choices[0].message.content]. *)
Lemma callOpenRouter_malformed (msgs : list Message) (opts : Options.t)
      (w : World) (response : Response) (data : json) (e : JsError) :
  active (self w) = true -> msgs <> [] ->
  result (server (requests w)) = FetchResolve response ->
  ok response = true -> body response = BodyJson data ->
  safeGetFirstChoiceContent data = Err e ->
  gateway msgs opts w = (Err (mkError MALFORMED_MESSAGE), sent msgs opts w).
Proof.
  intros Hact Hmsgs Hr Hok Hbody He.
  rewrite (callOpenRouter_active server clock stringify msgs opts w Hact Hmsgs), Hr.
  cbn [handle_fetch]. rewrite Hok, Hbody. cbn [negb].
  rewrite bind_run. unfold lift at 1. rewrite He.
  now rewrite (safeGetFirstChoiceContent_fault data e He).
Qed.

(** An HTTP fault and a parse fault are logged at error level, with the
    message they carry, before they are thrown. *)
Lemma callOpenRouter_logged_faults (msgs : list Message) (opts : Options.t)
      (w : World) (response : Response) :
  active (self w) = true -> msgs <> [] ->
  server (requests w)
  = {| result := FetchResolve response; cancelled_in_flight := false |} ->
  ok response = false \/ (exists pm, body response = BodyInvalid pm) ->
  exists msg,
    gateway msgs opts w
    = (Err (mkError msg), logged clock msg error (sent msgs opts w)).
Proof.
  intros Hact Hmsgs Hx Hkind.
  assert (Hs : active (self (sent msgs opts w)) = true).
  { rewrite (sent_active server clock msgs opts w Hact), Hx. reflexivity. }
  rewrite (callOpenRouter_active server clock stringify msgs opts w Hact Hmsgs), Hx.
  cbn [result handle_fetch].
  destruct (ok response) eqn:Hok; cbn [negb].
  - destruct Hkind as [Hk | [pm Hpm]]; [discriminate|].
    rewrite Hpm. eexists. rewrite bind_run, (log_active clock _ _ _ Hs).
    reflexivity.
  - eexists. rewrite bind_run, (log_active clock _ _ _ Hs). reflexivity.
Qed.
End GatewayFaults.

(** C7 fails on the code for the malformed-response fault: a 2xx response
    without [choices[0].message.content] makes [callOpenRouter], called with
    the label [Topic analysis], throw the fixed message of
    [safeGetFirstChoiceContent], which does not start with the label. *)
Theorem malformed_fault_lacks_label :
  let run := callOpenRouter Scenario.malformed Scenario.clock Scenario.stringify
                            (user (js "prompt")) Scenario.topic_opts
                            Scenario.start in
  fst run = Err (mkError MALFORMED_MESSAGE)
  /\ starts_with (Options.label Scenario.topic_opts) MALFORMED_MESSAGE = false.
Proof. split; vm_compute; reflexivity. Qed.

(** C8 fails on the code for three of the five faults: a transport
    failure, a timeout and a malformed response are thrown without any
    error-level entry; the log holds the one line written before the
    request. *)
Theorem transport_and_shape_faults_not_logged :
  let call server :=
    callOpenRouter server Scenario.clock Scenario.stringify
                   (user (js "prompt")) Scenario.topic_opts Scenario.start in
  let first_line := js "[t0] [INFO] Topic analysis: contacting model..." in
  (fst (call Scenario.unreachable)
   = Err (mkError (js "Topic analysis network error: Failed to fetch"))
   /\ researchLog (self (snd (call Scenario.unreachable))) = [first_line])
  /\ (fst (call Scenario.timed_out)
      = Err (mkError (js "Topic analysis timed out after 180s."))
      /\ researchLog (self (snd (call Scenario.timed_out))) = [first_line])
  /\ (fst (call Scenario.malformed) = Err (mkError MALFORMED_MESSAGE)
      /\ researchLog (self (snd (call Scenario.malformed))) = [first_line]).
Proof. repeat split; vm_compute; reflexivity. Qed.

(** By contrast an HTTP fault is logged before it is thrown, and a success
    is framed by the two lines of the gateway. *)
Example http_fault_is_logged :
  let run := callOpenRouter (Scenario.fifth_fails (js "text"))
                            Scenario.clock Scenario.stringify
                            (user (js "prompt")) Scenario.topic_opts
                            {| self := Scenario.researcher; requests := 4;
                               ticks := 0; effects := [] |} in
  fst run = Err (mkError (js "Topic analysis API error: 500 Internal Server Error"))
  /\ researchLog (self (snd run))
     = [ js "[t0] [INFO] Topic analysis: contacting model...";
         js "[t1] [ERROR] Topic analysis API error: 500 Internal Server Error" ].
Proof. split; vm_compute; reflexivity. Qed.

Example success_is_framed :
  let run := callOpenRouter (Scenario.always (js "text"))
                            Scenario.clock Scenario.stringify
                            (user (js "prompt")) Scenario.topic_opts
                            Scenario.start in
  fst run = Ok (js "text")
  /\ researchLog (self (snd run))
     = [ js "[t0] [INFO] Topic analysis: contacting model...";
         js "[t1] [INFO] Topic analysis: response received." ].
Proof. split; vm_compute; reflexivity. Qed.

(* ===================================================================== *)
(** * Further properties *)
(* ===================================================================== *)

(** ** [sanitizeText] *)

Lemma take_drop_length (p : N -> bool) (s : jsstring) :
  length s = length (take_while p s) + length (drop_while p s).
Proof. rewrite <- length_app. now rewrite take_drop_while. Qed.

Lemma match_length_plus (p : N -> bool) (c : N) (s : jsstring) :
  match_length (PlusClass p) (c :: s)
  = if p c then Some (S (length (take_while p s))) else None.
Proof.
  unfold match_length, PlusClass. cbn [run].
  destruct (p c); [|reflexivity].
  erewrite star_greedy; [reflexivity|].
  f_equal. cbn [length]. rewrite (take_drop_length p s) at 1. lia.
Qed.

Lemma replace_whitespace_runs (s : jsstring) :
  replace_go whitespace_run_re (js " ") 0 s = collapse_go false s
  /\ replace_go whitespace_run_re (js " ") (length (take_while is_ws s)) s
     = collapse_go true s.
Proof.
  unfold whitespace_run_re.
  induction s as [|c s [IH0 IH1]]; [split; reflexivity|].
  assert (H0 : replace_go (PlusClass is_ws) (js " ") 0 (c :: s)
               = collapse_go false (c :: s)).
  { cbn [replace_go collapse_go].
    rewrite match_length_plus. destruct (is_ws c).
    - now rewrite IH1.
    - now rewrite IH0. }
  split; [exact H0|].
  cbn [take_while]. destruct (is_ws c) eqn:Ec.
  - cbn [length replace_go collapse_go]. now rewrite Ec.
  - cbn [length]. rewrite H0. cbn [collapse_go]. now rewrite Ec.
Qed.

Lemma sanitizeText_collapse (s : jsstring) :
  sanitizeText s = trim (collapse_go false s).
Proof.
  unfold sanitizeText, replace_all.
  now rewrite (proj1 (replace_whitespace_runs s)).
Qed.

Lemma collapse_single_spaced (s : jsstring) :
  forall b, single_spaced b (collapse_go b s) = true.
Proof.
  induction s as [|c s IH]; intros b; [reflexivity|].
  cbn [collapse_go]. destruct (is_ws c) eqn:Ec.
  - destruct b; [apply IH|].
    cbn [single_spaced]. change (is_ws 32%N) with true. cbn. apply IH.
  - cbn [single_spaced]. rewrite Ec. apply IH.
Qed.

Lemma single_spaced_trimStart (s : jsstring) :
  forall b, single_spaced b s = true ->
            single_spaced true (drop_while is_ws s) = true.
Proof.
  induction s as [|c s IH]; intros b H; [reflexivity|].
  cbn [drop_while]. cbn [single_spaced] in H.
  destruct (is_ws c) eqn:Ec.
  - apply andb_prop in H as [_ H]. exact (IH true H).
  - cbn [single_spaced]. now rewrite Ec.
Qed.

Lemma single_spaced_prefix (a x : jsstring) :
  forall b, single_spaced b (a ++ x) = true -> single_spaced b a = true.
Proof.
  induction a as [|c a IH]; intros b H; [reflexivity|].
  cbn [app single_spaced] in *. destruct (is_ws c).
  - apply andb_prop in H as [H1 H2]. rewrite H1. exact (IH true H2).
  - exact (IH false H).
Qed.

Lemma trimEnd_prefix (s : jsstring) :
  s = trimEnd s ++ rev (take_while is_ws (rev s)).
Proof.
  unfold trimEnd. rewrite <- rev_app_distr, take_drop_while.
  now rewrite rev_involutive.
Qed.

Lemma single_spaced_weaken (s : jsstring) :
  single_spaced true s = true -> single_spaced false s = true.
Proof.
  destruct s as [|c s]; [reflexivity|]. cbn [single_spaced].
  destruct (is_ws c); [|auto].
  intros H. apply andb_prop in H as [H _]. apply andb_prop in H as [_ H].
  discriminate.
Qed.

Lemma collapse_fixed (s : jsstring) :
  forall b, single_spaced b s = true -> collapse_go b s = s.
Proof.
  induction s as [|c s IH]; intros b H; [reflexivity|].
  cbn [single_spaced] in H. cbn [collapse_go].
  destruct (is_ws c).
  - apply andb_prop in H as [H Hs]. apply andb_prop in H as [Hc Hb].
    apply N.eqb_eq in Hc. destruct b; [discriminate|].
    now rewrite (IH true Hs), Hc.
  - now rewrite (IH false H).
Qed.

Lemma trimStart_fixed (s : jsstring) :
  single_spaced true s = true -> trimStart s = s.
Proof.
  destruct s as [|c s]; [reflexivity|]. unfold trimStart.
  cbn [single_spaced drop_while]. destruct (is_ws c); [|reflexivity].
  intros H. apply andb_prop in H as [H _]. apply andb_prop in H as [_ H].
  discriminate.
Qed.

Lemma trimEnd_fixed (s : jsstring) : ends_outside is_ws s -> trimEnd s = s.
Proof.
  intros [-> | (u & c & -> & Hc)]; [reflexivity|].
  unfold trimEnd. rewrite rev_app_distr. cbn [rev app drop_while].
  rewrite Hc. cbn [rev]. now rewrite rev_involutive.
Qed.

Lemma sanitizeText_inner_spaces (input : jsstring) :
  single_spaced true (sanitizeText input) = true.
Proof.
  rewrite sanitizeText_collapse. unfold trim.
  apply (single_spaced_prefix _ (rev (take_while is_ws
                                        (rev (trimStart (collapse_go false input)))))).
  rewrite <- trimEnd_prefix. unfold trimStart.
  apply (single_spaced_trimStart _ false), collapse_single_spaced.
Qed.

Lemma sanitizeText_ends (input : jsstring) :
  ends_outside is_ws (sanitizeText input).
Proof. rewrite sanitizeText_collapse. apply trim_ends. Qed.

(** X1. [sanitizeText] returns normalized text: no whitespace at either
    end, every whitespace unit a single space between two other units. *)
Theorem sanitizeText_normalized (input : jsstring) :
  normalized (sanitizeText input).
Proof.
  split.
  - apply sanitizeText_inner_spaces.
  - apply sanitizeText_ends.
Qed.

(** X2. [sanitizeText] leaves normalized text as it is, so that applying it
    twice is applying it once; and it maps text that is all whitespace to
    the empty string. *)
Theorem sanitizeText_idempotent :
  (forall s, normalized s -> sanitizeText s = s)
  /\ (forall s, sanitizeText (sanitizeText s) = sanitizeText s)
  /\ (forall s, forallb is_ws s = true -> sanitizeText s = []).
Proof.
  assert (Hfix : forall s, normalized s -> sanitizeText s = s).
  { intros s [Hs He]. rewrite sanitizeText_collapse.
    rewrite (collapse_fixed s false (single_spaced_weaken s Hs)).
    unfold trim. rewrite (trimStart_fixed s Hs). now apply trimEnd_fixed. }
  split; [exact Hfix|]. split.
  - intros s. apply Hfix. split.
    + apply sanitizeText_inner_spaces.
    + apply sanitizeText_ends.
  - intros s H. rewrite sanitizeText_collapse.
    apply trim_blank.
    assert (G : forall t b, forallb is_ws t = true ->
                            forallb is_ws (collapse_go b t) = true).
    { induction t as [|c t IH]; intros b Ht; [reflexivity|].
      cbn [forallb] in Ht. apply andb_prop in Ht as [Hc Ht].
      cbn [collapse_go]. rewrite Hc.
      destruct b; [now apply IH|]. cbn [forallb].
      change (is_ws 32%N) with true. now apply IH. }
    now apply G.
Qed.

Lemma sanitizeText_idempotent_witness :
  sanitizeText (js "sleep and memory") = js "sleep and memory"
  /\ sanitizeText ([9%N; LF] ++ js "   ") = [].
Proof.
  split.
  - apply (proj1 sanitizeText_idempotent). split; [reflexivity|].
    right. exists (js "sleep and memor"), 121%N. split; reflexivity.
  - apply (proj2 (proj2 sanitizeText_idempotent)). reflexivity.
Defined.

(** ** [escapeHtml] *)

Lemma match_length_unit (c d : N) (s : jsstring) :
  match_length (unit_re c) (d :: s) = if (c =? d)%N then Some 1 else None.
Proof.
  unfold match_length, unit_re. cbn [run].
  destruct (c =? d)%N; [|reflexivity].
  f_equal. cbn [length]. lia.
Qed.

Lemma replace_unit (c : N) (replacement s : jsstring) :
  replace_all (unit_re c) replacement s
  = flat_map (fun d => if (c =? d)%N then replacement else [d]) s.
Proof.
  unfold replace_all.
  induction s as [|d s IH]; [reflexivity|].
  cbn [replace_go flat_map]. rewrite match_length_unit.
  destruct (c =? d)%N; cbn [replace_go]; now rewrite IH.
Qed.

Lemma flat_map_flat_map {A B C} (f : B -> list C) (g : A -> list B) (l : list A) :
  flat_map f (flat_map g l) = flat_map (fun a => flat_map f (g a)) l.
Proof.
  induction l as [|a l IH]; [reflexivity|].
  cbn [flat_map]. now rewrite flat_map_app, IH.
Qed.

Lemma forallb_flat_map {A B} (P : B -> bool) (f : A -> list B) (l : list A) :
  (forall a, forallb P (f a) = true) -> forallb P (flat_map f l) = true.
Proof.
  intros H. induction l as [|a l IH]; [reflexivity|].
  cbn [flat_map]. now rewrite forallb_app, H, IH.
Qed.

(** The five replacements in a row amount to one pass over the units: no
    replacement produces a unit that a later one rewrites. *)
Lemma escapeHtml_units (str : jsstring) :
  escapeHtml str = flat_map escape_unit str.
Proof.
  unfold escapeHtml. rewrite !replace_unit, !flat_map_flat_map.
  apply flat_map_ext. intros d. unfold escape_unit.
  rewrite (N.eqb_sym d AMP), (N.eqb_sym d LT), (N.eqb_sym d GT),
    (N.eqb_sym d QUOT), (N.eqb_sym d APOS).
  destruct (N.eqb_spec AMP d) as [<- | H1]; [reflexivity|].
  cbn [flat_map app].
  destruct (N.eqb_spec LT d) as [<- | H2]; [reflexivity|].
  cbn [flat_map app].
  destruct (N.eqb_spec GT d) as [<- | H3]; [reflexivity|].
  cbn [flat_map app].
  destruct (N.eqb_spec QUOT d) as [<- | H4]; [reflexivity|].
  cbn [flat_map app].
  destruct (N.eqb_spec APOS d) as [<- | H5]; reflexivity.
Qed.

Lemma escape_unit_safe (c : N) :
  forallb (fun d => negb (is_markup d)) (escape_unit c) = true.
Proof.
  unfold escape_unit.
  destruct (c =? AMP)%N; [reflexivity|].
  destruct (c =? LT)%N eqn:E1; [reflexivity|].
  destruct (c =? GT)%N eqn:E2; [reflexivity|].
  destruct (c =? QUOT)%N eqn:E3; [reflexivity|].
  destruct (c =? APOS)%N eqn:E4; [reflexivity|].
  cbn [forallb]. unfold is_markup. now rewrite E1, E2, E3, E4.
Qed.

(** X3. [escapeHtml] rewrites each unit on its own ([&], [<], [>], the two
    quotes into their entities, any other unit unchanged), and its result
    holds none of [<], [>], the double and the single quote. *)
Theorem escapeHtml_leaves_no_markup (str : jsstring) :
  escapeHtml str = flat_map escape_unit str
  /\ forallb (fun d => negb (is_markup d)) (escapeHtml str) = true.
Proof.
  split; [apply escapeHtml_units|].
  rewrite escapeHtml_units. apply forallb_flat_map, escape_unit_safe.
Qed.

Lemma unescape_unit (c : N) (acc : jsstring) :
  fold_right unescape_step acc (escape_unit c) = c :: acc.
Proof.
  unfold escape_unit.
  destruct (N.eqb_spec c AMP) as [-> | H1]; [reflexivity|].
  destruct (N.eqb_spec c LT) as [-> | H2]; [reflexivity|].
  destruct (N.eqb_spec c GT) as [-> | H3]; [reflexivity|].
  destruct (N.eqb_spec c QUOT) as [-> | H4]; [reflexivity|].
  destruct (N.eqb_spec c APOS) as [-> | H5]; [reflexivity|].
  cbn [fold_right]. unfold unescape_step.
  now rewrite (proj2 (N.eqb_neq c AMP) H1).
Qed.

Lemma unescape_escape (str : jsstring) : unescapeHtml (escapeHtml str) = str.
Proof.
  rewrite escapeHtml_units. unfold unescapeHtml.
  induction str as [|c str IH]; [reflexivity|].
  cbn [flat_map]. now rewrite fold_right_app, IH, unescape_unit.
Qed.

(** X4. [escapeHtml] loses nothing: the text can be read back from its
    escaped form, so two different texts never escape to the same one. *)
Theorem escapeHtml_injective (s t : jsstring) :
  escapeHtml s = escapeHtml t -> s = t.
Proof.
  intros H. rewrite <- (unescape_escape s), <- (unescape_escape t).
  now rewrite H.
Qed.

Lemma escapeHtml_injective_witness :
  js "a" ++ [LT] ++ js "b & c" = js "a<b & c".
Proof.
  apply escapeHtml_injective. reflexivity.
Defined.

(** ** [truncateForLog] *)

(** X5. For a limit of at least 3, [truncateForLog] never returns more than
    [maxLen] units: a message within the limit is returned as it is, a
    longer one is cut to its first [maxLen - 3] units followed by three
    dots. *)
Theorem truncateForLog_bounded (msg : jsstring) (maxLen : nat) :
  3 <= maxLen ->
  length (truncateForLog msg maxLen) <= maxLen
  /\ (length msg <= maxLen -> truncateForLog msg maxLen = msg)
  /\ (maxLen < length msg ->
      truncateForLog msg maxLen = firstn (maxLen - 3) msg ++ js "..."
      /\ length (truncateForLog msg maxLen) = maxLen).
Proof.
  intros Hmax. unfold truncateForLog, slice0.
  destruct msg as [|c msg]; cbn [truthy negb].
  - cbn [length]. split; [lia|]. split; [reflexivity|]. lia.
  - destruct (maxLen <? length (c :: msg)) eqn:E.
    + apply Nat.ltb_lt in E.
      assert (Hl : length (firstn (maxLen - 3) (c :: msg) ++ js "...") = maxLen).
      { rewrite length_app, length_firstn. change (length (js "...")) with 3. lia. }
      split; [lia|]. split; [lia|]. intros _. split; [reflexivity | exact Hl].
    + apply Nat.ltb_ge in E. split; [lia|]. split; [reflexivity|]. lia.
Qed.

Lemma truncateForLog_bounded_witness :
  length (truncateForLog (js "Perspective 1/3: Deep research") 12) <= 12
  /\ (length (js "Perspective 1/3: Deep research") <= 12
      -> truncateForLog (js "Perspective 1/3: Deep research") 12
         = js "Perspective 1/3: Deep research")
  /\ (12 < length (js "Perspective 1/3: Deep research") ->
      truncateForLog (js "Perspective 1/3: Deep research") 12
      = firstn (12 - 3) (js "Perspective 1/3: Deep research") ++ js "..."
      /\ length (truncateForLog (js "Perspective 1/3: Deep research") 12) = 12).
Proof.
  apply truncateForLog_bounded. lia.
Defined.

(** ** [validateInputs] *)

(** X6. [validateInputs] returns [null] exactly when the API key and the
    model are non-empty, the topic has between 10 and 4000 units and the
    number of iterations is an integer from 1 to 8. *)
Theorem validateInputs_accepts (i : Inputs) :
  validateInputs i = None
  <-> input_apiKey i <> []
      /\ input_modelId i <> []
      /\ CONFIG.MIN_TOPIC_LENGTH <= length (input_topic i) <= CONFIG.MAX_TOPIC_LENGTH
      /\ exists n, input_iterations i = Some n /\ (1 <= n <= 8)%Z.
Proof.
  destruct i as [key mdl top it]. unfold validateInputs.
  cbn [input_apiKey input_modelId input_topic input_iterations].
  destruct key as [|k key]; cbn [truthy negb].
  { split; [discriminate | intros [H _]; contradiction]. }
  destruct mdl as [|m mdl]; cbn [truthy negb].
  { split; [discriminate | intros (_ & H & _); contradiction]. }
  destruct (negb (truthy top) || (length top <? CONFIG.MIN_TOPIC_LENGTH)) eqn:Et.
  { split; [discriminate|]. intros (_ & _ & [Hmin _] & _).
    apply orb_prop in Et as [Et | Et].
    - destruct top; [|discriminate]. cbn in Hmin.
      unfold CONFIG.MIN_TOPIC_LENGTH in Hmin. lia.
    - apply Nat.ltb_lt in Et. lia. }
  apply orb_false_elim in Et as [_ Et]. apply Nat.ltb_ge in Et.
  destruct (CONFIG.MAX_TOPIC_LENGTH <? length top) eqn:Em.
  { split; [discriminate|]. intros (_ & _ & [_ Hmax] & _).
    apply Nat.ltb_lt in Em. lia. }
  apply Nat.ltb_ge in Em.
  destruct it as [n|].
  - destruct ((n <? 1) || (8 <? n))%Z eqn:En.
    + split; [discriminate|]. intros (_ & _ & _ & n' & Hn & Hr).
      injection Hn as <-.
      apply orb_prop in En as [En | En]; apply Z.ltb_lt in En; lia.
    + apply orb_false_elim in En as [E1 E8].
      apply Z.ltb_ge in E1. apply Z.ltb_ge in E8.
      split; [intros _ | reflexivity].
      repeat split; try discriminate; try lia.
      exists n. split; [reflexivity | lia].
  - split; [discriminate|]. intros (_ & _ & _ & n' & Hn & _). discriminate.
Qed.

Lemma validateInputs_accepts_witness :
  validateInputs {| input_apiKey := js "sk-or-test";
                    input_modelId := js "anthropic/claude-3.5-sonnet";
                    input_topic := js "Impact of sleep on memory";
                    input_iterations := Some 3%Z |} = None.
Proof.
  apply (proj2 (validateInputs_accepts _)). cbn.
  split; [discriminate|]. split; [discriminate|].
  split; [unfold CONFIG.MIN_TOPIC_LENGTH, CONFIG.MAX_TOPIC_LENGTH; lia|].
  exists 3%Z. split; [reflexivity | lia].
Defined.

(** ** [collectResultsAsText] *)

Lemma trim_nil_blank (s : jsstring) : trim s = [] -> forallb is_ws s = true.
Proof.
  unfold trim, trimEnd, trimStart. intros H.
  apply (f_equal (@rev N)) in H. rewrite rev_involutive in H. cbn in H.
  apply drop_while_nil_all in H.
  assert (Hd : forallb is_ws (drop_while is_ws s) = true).
  { rewrite forallb_forall in *. intros x Hx. apply H. now apply -> in_rev. }
  rewrite <- (take_drop_while is_ws s), forallb_app, Hd.
  now rewrite take_while_all.
Qed.

Lemma export_section_blank (title : string) (text : jsstring) (last : bool) :
  trim text = [] -> export_section title text last = [].
Proof.
  intros H. unfold export_section, or_else.
  destruct text; cbn [truthy]; now rewrite H.
Qed.

Lemma trim_or_else (text : jsstring) : trim (or_else text []) = trim text.
Proof. now destruct text. Qed.

(** X7. The export buttons refuse to export exactly when the topic field
    and the five result panels are all blank: as soon as one of them holds
    text, the export has content. *)
Theorem nothing_to_export_iff_blank (page : Page) :
  nothing_to_export page = true
  <-> trim (topicInput page) = []
      /\ trim (topicAnalysisDiv page) = []
      /\ trim (perspectivesDiv page) = []
      /\ trim (deepResearchDiv page) = []
      /\ trim (synthesisDiv page) = []
      /\ trim (researchLogDiv page) = [].
Proof.
  unfold nothing_to_export, collectResultsAsText. split.
  - intros H. apply negb_true_iff in H.
    assert (Hb : forallb is_ws
                   (join [LF]
                      (export_section "=== Topic ===" (topicInput page) false
                       ++ export_section "=== Topic Analysis ==="
                            (topicAnalysisDiv page) false
                       ++ export_section "=== Research Perspectives ==="
                            (perspectivesDiv page) false
                       ++ export_section "=== Deep Research Findings ==="
                            (deepResearchDiv page) false
                       ++ export_section "=== Synthesis & Conclusions ==="
                            (synthesisDiv page) false
                       ++ export_section "=== Research Log ==="
                            (researchLogDiv page) true)) = true).
    { apply trim_nil_blank.
      destruct (trim (join _ _)); [reflexivity | discriminate]. }
    clear H. revert Hb. unfold export_section. rewrite !trim_or_else.
    destruct (trim (topicInput page)) as [|c1 t1]; cbn [truthy];
      [|cbn; discriminate].
    destruct (trim (topicAnalysisDiv page)) as [|c2 t2]; cbn [truthy];
      [|cbn; discriminate].
    destruct (trim (perspectivesDiv page)) as [|c3 t3]; cbn [truthy];
      [|cbn; discriminate].
    destruct (trim (deepResearchDiv page)) as [|c4 t4]; cbn [truthy];
      [|cbn; discriminate].
    destruct (trim (synthesisDiv page)) as [|c5 t5]; cbn [truthy];
      [|cbn; discriminate].
    destruct (trim (researchLogDiv page)) as [|c6 t6]; cbn [truthy];
      [|cbn; discriminate].
    intros _. repeat split.
  - intros (H1 & H2 & H3 & H4 & H5 & H6).
    now rewrite !export_section_blank.
Qed.

Lemma nothing_to_export_iff_blank_witness :
  nothing_to_export {| topicInput := js "  "; topicAnalysisDiv := [];
                       perspectivesDiv := [LF]; deepResearchDiv := [];
                       synthesisDiv := []; researchLogDiv := js " " |} = true.
Proof.
  apply (proj2 (nothing_to_export_iff_blank _)). cbn.
  repeat split; reflexivity.
Defined.

(** ** The gateway: what it returns, what it sends *)

Lemma bind_ok {A B} (m : M A) (k : A -> M B) (w w' : World) (b : B) :
  bind m k w = (Ok b, w') ->
  exists a w1, m w = (Ok a, w1) /\ k a w1 = (Ok b, w').
Proof.
  rewrite bind_run. destruct (m w) as [[a | e] w1]; [|discriminate].
  intros H. now exists a, w1.
Qed.

Lemma ensureActive_ok (w w' : World) (u : unit) :
  ensureActive w = (Ok u, w') -> active (self w) = true /\ w' = w.
Proof.
  unfold ensureActive. destruct (active (self w)); [|discriminate].
  intros H. now inversion H.
Qed.

Lemma log_ok (clock : nat -> jsstring) (msg : jsstring) (level : Level)
      (w w' : World) (u : unit) :
  log clock msg level w = (Ok u, w') ->
  active (self w) = true /\ w' = logged clock msg level w.
Proof.
  rewrite log_run. destruct (active (self w)); [|discriminate].
  intros H. now inversion H.
Qed.

(** X8. [callOpenRouter] returns a text exactly when it is called on an
    active run with a non-empty message list and the service, the run not
    being cancelled meanwhile, answers 2xx with that text at
    [choices[0].message.content]; the world is then the one in which the
    two lines of the gateway are logged around the one request. *)
Theorem callOpenRouter_returns_iff
        (server : nat -> Exchange) (clock : nat -> jsstring)
        (stringify : json -> jsstring)
        (msgs : list Message) (opts : Options.t) (w w' : World) (c : jsstring) :
  callOpenRouter server clock stringify msgs opts w = (Ok c, w')
  <-> active (self w) = true
      /\ msgs <> []
      /\ answers server (requests w) c
      /\ w' = received server clock msgs opts w.
Proof.
  split.
  - intros H.
    destruct (callOpenRouter_returns server clock stringify msgs opts w w' c H)
      as (Hact & Hans & Hw).
    repeat split; try assumption.
    intros ->. unfold callOpenRouter in H. rewrite bind_run in H.
    unfold ensureActive at 1 in H. rewrite Hact in H. discriminate.
  - intros (Hact & Hmsgs & Hans & ->).
    now apply callOpenRouter_answers.
Qed.

Lemma callOpenRouter_returns_iff_witness :
  callOpenRouter (Scenario.always (js "text")) Scenario.clock Scenario.stringify
                 (user (js "prompt")) Scenario.topic_opts Scenario.start
  = (Ok (js "text"),
     received (Scenario.always (js "text")) Scenario.clock
              (user (js "prompt")) Scenario.topic_opts Scenario.start).
Proof.
  apply (proj2 (callOpenRouter_returns_iff _ _ _ _ _ _ _ _)).
  split; [reflexivity|]. split; [discriminate|]. split; [|reflexivity].
  do 2 eexists. split; [reflexivity|]. split; [reflexivity|].
  split; reflexivity.
Defined.

(** *** Requests are counted *)

Lemma same_requests_refl (w : World) : same_requests w w.
Proof. reflexivity. Qed.

Lemma same_requests_trans (a b c : World) :
  same_requests a b -> same_requests b c -> same_requests a c.
Proof. unfold same_requests. congruence. Qed.

Lemma handle_fetch_same_requests (clock : nat -> jsstring)
      (stringify : json -> jsstring) (label : jsstring) (r : FetchResult)
      (w : World) :
  requests (snd (handle_fetch clock stringify label r w)) = requests w.
Proof.
  apply (Keeps_handle_fetch same_requests same_requests_refl
           same_requests_trans clock stringify); intros; intro; reflexivity.
Qed.

(** X9. [callOpenRouter] never retries: on an active run and a non-empty
    message list it issues exactly one request, whatever the answer; on a
    cancelled run or an empty list it issues none. *)
Theorem callOpenRouter_one_request
        (server : nat -> Exchange) (clock : nat -> jsstring)
        (stringify : json -> jsstring)
        (msgs : list Message) (opts : Options.t) (w : World) :
  (active (self w) = true -> msgs <> [] ->
   requests (snd (callOpenRouter server clock stringify msgs opts w))
   = S (requests w))
  /\ (active (self w) = false \/ msgs = [] ->
      requests (snd (callOpenRouter server clock stringify msgs opts w))
      = requests w).
Proof.
  split.
  - intros Hact Hmsgs.
    rewrite (callOpenRouter_active server clock stringify msgs opts w Hact Hmsgs).
    now rewrite handle_fetch_same_requests.
  - intros [Hoff | ->].
    + now rewrite (callOpenRouter_inactive server clock stringify msgs opts w Hoff).
    + unfold callOpenRouter. rewrite bind_run. unfold ensureActive.
      now destruct (active (self w)).
Qed.

Lemma callOpenRouter_one_request_witness :
  requests (snd (callOpenRouter Scenario.unreachable Scenario.clock
                                Scenario.stringify (user (js "prompt"))
                                Scenario.topic_opts Scenario.start))
  = 1
  /\ requests (snd (callOpenRouter Scenario.unreachable Scenario.clock
                                   Scenario.stringify []
                                   Scenario.topic_opts Scenario.start))
     = 0.
Proof.
  split.
  - apply (proj1 (callOpenRouter_one_request
                    Scenario.unreachable Scenario.clock Scenario.stringify
                    (user (js "prompt")) Scenario.topic_opts Scenario.start));
      [reflexivity | discriminate].
  - apply (proj2 (callOpenRouter_one_request
                    Scenario.unreachable Scenario.clock Scenario.stringify
                    [] Scenario.topic_opts Scenario.start)).
    now right.
Defined.

(** ** How many requests the phases issue *)

Lemma Within_kept {A} (m : M A) :
  (forall w, requests (snd (m w)) = requests w) -> Within 0 m.
Proof. intros H w. rewrite H. lia. Qed.

Lemma Within_weaken {A} (a b : nat) (m : M A) :
  Within a m -> a <= b -> Within b m.
Proof. intros H Hab w. specialize (H w). lia. Qed.

Lemma Within_ret {A} (a : A) : Within 0 (ret a).
Proof. now apply Within_kept. Qed.

Lemma Within_throw {A} (e : JsError) : Within 0 (@throw A e).
Proof. now apply Within_kept. Qed.

Lemma Within_get_self : Within 0 get_self.
Proof. now apply Within_kept. Qed.

Lemma Within_emit (e : Effect) : Within 0 (emit e).
Proof. now apply Within_kept. Qed.

Lemma Within_when (b : bool) (m : M unit) : Within 0 m -> Within 0 (when b m).
Proof. intros H. destruct b; [exact H | apply Within_ret]. Qed.

Lemma Within_ensureActive : Within 0 ensureActive.
Proof.
  apply Within_kept. intros w. unfold ensureActive.
  now destruct (active (self w)).
Qed.

Lemma Within_bind {A B} (a b : nat) (m : M A) (k : A -> M B) :
  Within a m -> (forall x, Within b (k x)) -> Within (a + b) (bind m k).
Proof.
  intros Hm Hk w. rewrite bind_run. specialize (Hm w).
  destruct (m w) as [[x | e] w1]; cbn [snd] in *.
  - specialize (Hk x w1). lia.
  - lia.
Qed.

Lemma Within_try_catch {A} (a b : nat) (m : M A) (h : JsError -> M A) :
  Within a m -> (forall e, Within b (h e)) -> Within (a + b) (try_catch m h).
Proof.
  intros Hm Hh w. unfold try_catch. specialize (Hm w).
  destruct (m w) as [[x | e] w1]; cbn [snd] in *.
  - lia.
  - specialize (Hh e w1). lia.
Qed.

Section RequestCounts.
Variable server : nat -> Exchange.
Variable clock : nat -> jsstring.
Variable stringify : json -> jsstring.

Lemma Within_log (msg : jsstring) (level : Level) : Within 0 (log clock msg level).
Proof.
  apply Within_kept. intros w. rewrite log_run.
  now destruct (active (self w)).
Qed.

Lemma Within_callOpenRouter (msgs : list Message) (opts : Options.t) :
  Within 1 (callOpenRouter server clock stringify msgs opts).
Proof.
  intros w. destruct (active (self w)) eqn:Hact.
  - destruct msgs as [|m msgs].
    + unfold callOpenRouter. rewrite !bind_run. unfold ensureActive.
      rewrite Hact. cbn [snd throw]. lia.
    + rewrite (callOpenRouter_active server clock stringify
                 (m :: msgs) opts w Hact) by discriminate.
      rewrite handle_fetch_same_requests, sent_requests. lia.
  - rewrite (callOpenRouter_inactive server clock stringify msgs opts w Hact).
    cbn [snd]. lia.
Qed.

Ltac within_step :=
  first [ simple apply Within_log | simple apply Within_callOpenRouter
        | simple apply Within_ensureActive | simple apply Within_get_self
        | simple apply Within_ret | simple apply Within_throw
        | simple apply Within_emit | simple apply Within_when
        | simple eapply Within_try_catch; [|intro]
        | simple eapply Within_bind; [|intro]
        | progress cbv zeta ].

Lemma Within_analyzeTopic (topic_ : jsstring) :
  Within 1 (analyzeTopic server clock stringify topic_).
Proof.
  unfold analyzeTopic.
  eapply Within_weaken; [repeat within_step | cbn; lia].
Qed.

Lemma Within_gatherPerspectives (topic_ : jsstring)
      (ta : option TopicAnalysis) (iterations : Z) :
  Within 1 (gatherPerspectives server clock stringify topic_ ta iterations).
Proof.
  unfold gatherPerspectives.
  eapply Within_weaken.
  - repeat within_step.
    match goal with
    | |- Within _ (match ?x with _ => _ end) =>
        destruct x; [eapply (Within_weaken 0 0); [apply Within_throw | lia]|]
    end.
    eapply (Within_weaken (0 + 0) 0); [|lia]. repeat within_step.
  - cbn. lia.
Qed.

Lemma Within_synthesizeFindings (research : Obj.t PerspectiveResult)
      (topic_ : jsstring) :
  Within 1 (synthesizeFindings server clock stringify research topic_).
Proof.
  unfold synthesizeFindings.
  eapply Within_weaken; [repeat within_step | cbn; lia].
Qed.

Lemma Within_researchSinglePerspective (perspective depth labelPrefix : jsstring) :
  Within 4 (researchSinglePerspective server clock stringify
                                      perspective depth labelPrefix).
Proof.
  unfold researchSinglePerspective.
  eapply Within_weaken; [repeat within_step | cbn; lia].
Qed.

Lemma Within_deepResearch_loop (ps : list jsstring) (depth : jsstring)
      (total : Z) (n : nat) :
  forall i acc,
    Within (4 * n)
           (deepResearch_loop server clock stringify ps depth total n i acc).
Proof.
  induction n as [|n IH]; intros i acc; cbn [deepResearch_loop].
  - apply Within_ret.
  - eapply Within_weaken.
    + eapply Within_bind; [apply Within_log | intros _].
      eapply Within_bind; [|intros r; apply IH].
      eapply Within_try_catch;
        [apply Within_researchSinglePerspective | intros e].
      eapply Within_bind; [apply Within_log | intros _; apply Within_ret].
    + lia.
Qed.

Lemma Within_deepResearch (ps : list jsstring) (depth : jsstring)
      (iterations : Z) :
  Within (4 * Z.to_nat (Z.min (Z.of_nat (length ps)) iterations))
         (deepResearch server clock stringify ps depth iterations).
Proof.
  unfold deepResearch.
  eapply Within_weaken.
  - eapply Within_bind; [apply Within_ensureActive | intros _].
    eapply Within_bind; [apply Within_log | intros _]. cbv zeta.
    eapply Within_bind; [apply Within_deepResearch_loop | intros r].
    eapply Within_bind; [apply Within_log | intros _; apply Within_ret].
  - lia.
Qed.

Lemma Within_conductResearch (topic_ depth : jsstring) (iterations : Z) :
  Within (3 + 4 * Z.to_nat iterations)
         (conductResearch server clock stringify topic_ depth iterations).
Proof.
  unfold conductResearch.
  eapply Within_weaken.
  - repeat first
           [ simple apply Within_analyzeTopic
           | simple apply Within_gatherPerspectives
           | simple apply Within_synthesizeFindings
           | simple eapply (Within_weaken _ (4 * Z.to_nat iterations));
             [simple apply Within_deepResearch | lia]
           | within_step ].
  - cbn. lia.
Qed.
End RequestCounts.

(** Accepted inputs carry from 1 to 8 iterations. *)
Lemma validateInputs_iterations (i : Inputs) (n : Z) :
  validateInputs i = None -> input_iterations i = Some n -> (1 <= n <= 8)%Z.
Proof.
  unfold validateInputs. intros H Hn. rewrite Hn in H.
  destruct (negb (truthy (input_apiKey i))); [discriminate|].
  destruct (negb (truthy (input_modelId i))); [discriminate|].
  destruct (negb (truthy (input_topic i))
            || (length (input_topic i) <? CONFIG.MIN_TOPIC_LENGTH));
    [discriminate|].
  destruct (CONFIG.MAX_TOPIC_LENGTH <? length (input_topic i)); [discriminate|].
  destruct ((n <? 1) || (8 <? n))%Z eqn:E; [discriminate|].
  apply orb_false_elim in E as [E1 E8].
  apply Z.ltb_ge in E1. apply Z.ltb_ge in E8. lia.
Qed.

(** X10. The workflow issues at most 3 + 4 * iterations requests (one for
    each of phases 1, 2 and 4, four for each perspective researched), a
    sub-pipeline at most 4, Phase 3 at most 4 * min(len(perspectives),
    iterations); with inputs that [validateInputs] accepts, a run costs at
    most 35 requests. *)
Theorem workflow_request_budget
        (server : nat -> Exchange) (clock : nat -> jsstring)
        (stringify : json -> jsstring) :
  (forall topic_ depth iterations,
      Within (3 + 4 * Z.to_nat iterations)
             (conductResearch server clock stringify topic_ depth iterations))
  /\ (forall perspective depth labelPrefix,
         Within 4 (researchSinglePerspective server clock stringify
                                             perspective depth labelPrefix))
  /\ (forall ps depth iterations,
         Within (4 * Z.to_nat (Z.min (Z.of_nat (length ps)) iterations))
                (deepResearch server clock stringify ps depth iterations))
  /\ (forall inputs depth iterations w,
         validateInputs inputs = None ->
         input_iterations inputs = Some iterations ->
         requests (snd (conductResearch server clock stringify
                                        (input_topic inputs) depth iterations w))
         <= requests w + 35).
Proof.
  split; [intros; apply Within_conductResearch|].
  split; [intros; apply Within_researchSinglePerspective|].
  split; [intros; apply Within_deepResearch|].
  intros inputs depth iterations w Hv Hi.
  pose proof (validateInputs_iterations inputs iterations Hv Hi) as Hr.
  pose proof (Within_conductResearch server clock stringify
                (input_topic inputs) depth iterations w) as H.
  lia.
Qed.

Lemma workflow_request_budget_witness :
  requests (snd (conductResearch
                   (Scenario.always (js "1. Alpha: first angle"))
                   Scenario.clock Scenario.stringify
                   Scenario.sleep (js "normal") 3 Scenario.start))
  <= requests Scenario.start + 35.
Proof.
  apply (proj2 (proj2 (proj2 (workflow_request_budget
                                (Scenario.always (js "1. Alpha: first angle"))
                                Scenario.clock Scenario.stringify)))
               {| input_apiKey := js "sk-or-test";
                  input_modelId := js "anthropic/claude-3.5-sonnet";
                  input_topic := Scenario.sleep;
                  input_iterations := Some 3%Z |}
               (js "normal") 3%Z Scenario.start); reflexivity.
Defined.

(** ** The sub-pipeline and the global synthesis *)

Lemma or_else_nil (c : jsstring) : or_else c [] = c.
Proof. now destruct c. Qed.

Section SubPipelineRuns.
Variable server : nat -> Exchange.
Variable clock : nat -> jsstring.
Variable stringify : json -> jsstring.

Lemma received_requests (msgs : list Message) (opts : Options.t) (w : World) :
  requests (received server clock msgs opts w) = S (requests w).
Proof. reflexivity. Qed.

(** The gateway's two directions, with the world it leaves kept abstract. *)
Lemma callOpenRouter_returns_live (msgs : list Message) (opts : Options.t)
      (w w' : World) (c : jsstring) :
  callOpenRouter server clock stringify msgs opts w = (Ok c, w') ->
  active (self w) = true
  /\ answers server (requests w) c
  /\ requests w' = S (requests w)
  /\ active (self w') = true.
Proof.
  intros H.
  apply callOpenRouter_returns in H as (Hact & Hans & ->).
  split; [exact Hact|]. split; [exact Hans|]. split; [reflexivity|].
  apply received_active; [exact Hact|].
  exact (answers_not_cancelled server _ _ Hans).
Qed.

Lemma callOpenRouter_answers_live (msgs : list Message) (opts : Options.t)
      (w : World) (c : jsstring) :
  active (self w) = true -> msgs <> [] ->
  answers server (requests w) c ->
  exists w',
    callOpenRouter server clock stringify msgs opts w = (Ok c, w')
    /\ requests w' = S (requests w)
    /\ active (self w') = true.
Proof.
  intros Hact Hne Hans.
  exists (received server clock msgs opts w).
  split; [exact (callOpenRouter_answers server clock stringify
                   msgs opts w c Hact Hne Hans)|].
  split; [reflexivity|].
  apply received_active; [exact Hact|].
  exact (answers_not_cancelled server _ _ Hans).
Qed.

Lemma researchSinglePerspective_returns
      (perspective depth labelPrefix : jsstring) (w w' : World)
      (r : PerspectiveResult) :
  researchSinglePerspective server clock stringify perspective depth labelPrefix w
  = (Ok r, w') ->
  exists c0 c1 c2 c3,
    answers server (requests w) c0
    /\ answers server (1 + requests w) c1
    /\ answers server (2 + requests w) c2
    /\ answers server (3 + requests w) c3
    /\ r = {| error_ := None; initial_research := c0; critical_analysis := c1;
              identified_gaps := c2; synthesis := c3 |}
    /\ requests w' = 4 + requests w
    /\ active (self w') = true.
Proof.
  intros H. unfold researchSinglePerspective in H.
  apply bind_ok in H as (u & w0 & He & H).
  apply ensureActive_ok in He as [Hact ->].
  cbv beta zeta in H.
  apply bind_ok in H as (this & wa & Hg & H).
  unfold get_self in Hg. injection Hg as _ <-.
  apply bind_ok in H as (c0 & w1 & H0 & H).
  apply callOpenRouter_returns_live in H0 as (_ & A0 & R1 & _).
  apply bind_ok in H as (c1 & w2 & H1 & H).
  apply callOpenRouter_returns_live in H1 as (_ & A1 & R2 & _).
  apply bind_ok in H as (c2 & w3 & H2 & H).
  apply callOpenRouter_returns_live in H2 as (_ & A2 & R3 & _).
  apply bind_ok in H as (c3 & w4 & H3 & H).
  apply callOpenRouter_returns_live in H3 as (_ & A3 & R4 & Hact4).
  unfold ret in H. injection H as Hr <-.
  rewrite R1 in *. rewrite R2 in *. rewrite R3 in *.
  exists c0, c1, c2, c3. rewrite !or_else_nil in Hr.
  split; [exact A0|]. split; [exact A1|]. split; [exact A2|].
  split; [exact A3|]. split; [now symmetry|]. split; [exact R4 | exact Hact4].
Qed.

Lemma researchSinglePerspective_run
      (perspective depth labelPrefix : jsstring) (w : World)
      (c0 c1 c2 c3 : jsstring) :
  active (self w) = true ->
  answers server (requests w) c0 ->
  answers server (1 + requests w) c1 ->
  answers server (2 + requests w) c2 ->
  answers server (3 + requests w) c3 ->
  exists w',
    researchSinglePerspective server clock stringify
                              perspective depth labelPrefix w
    = (Ok {| error_ := None; initial_research := c0; critical_analysis := c1;
             identified_gaps := c2; synthesis := c3 |}, w').
Proof.
  intros Hact A0 A1 A2 A3. unfold researchSinglePerspective.
  rewrite bind_run. unfold ensureActive at 1. rewrite Hact.
  cbv zeta. rewrite bind_run. unfold get_self at 1.
  rewrite bind_run.
  match goal with
  | |- context [callOpenRouter _ _ _ ?msgs ?opts w] =>
      destruct (callOpenRouter_answers_live msgs opts w c0 Hact
                  ltac:(discriminate) A0) as (w1 & -> & R1 & Hact1)
  end.
  change (1 + requests w) with (S (requests w)) in A1.
  rewrite <- R1 in A1. rewrite bind_run.
  match goal with
  | |- context [callOpenRouter _ _ _ ?msgs ?opts w1] =>
      destruct (callOpenRouter_answers_live msgs opts w1 c1 Hact1
                  ltac:(discriminate) A1) as (w2 & -> & R2 & Hact2)
  end.
  change (2 + requests w) with (S (S (requests w))) in A2.
  rewrite <- R1, <- R2 in A2. rewrite bind_run.
  match goal with
  | |- context [callOpenRouter _ _ _ ?msgs ?opts w2] =>
      destruct (callOpenRouter_answers_live msgs opts w2 c2 Hact2
                  ltac:(discriminate) A2) as (w3 & -> & R3 & Hact3)
  end.
  change (3 + requests w) with (S (S (S (requests w)))) in A3.
  rewrite <- R1, <- R2, <- R3 in A3. rewrite bind_run.
  match goal with
  | |- context [callOpenRouter _ _ _ ?msgs ?opts w3] =>
      destruct (callOpenRouter_answers_live msgs opts w3 c3 Hact3
                  ltac:(discriminate) A3) as (w4 & -> & _ & _)
  end.
  rewrite !or_else_nil. eexists. reflexivity.
Qed.

Lemma synthesizeFindings_run (research : Obj.t PerspectiveResult)
      (topic_ : jsstring) (w : World) (c : jsstring) :
  active (self w) = true -> answers server (requests w) c ->
  exists w',
    synthesizeFindings server clock stringify research topic_ w
    = (Ok (or_else c (js "No synthesis returned by the model.")), w').
Proof.
  intros Hact Hans. unfold synthesizeFindings.
  rewrite bind_run. unfold ensureActive at 1. rewrite Hact.
  rewrite bind_run, (log_active clock _ _ w Hact). cbv zeta.
  rewrite bind_run.
  erewrite callOpenRouter_answers; [| exact Hact | discriminate | exact Hans].
  rewrite bind_run, log_active.
  - eexists. reflexivity.
  - apply received_active; [exact Hact|].
    exact (answers_not_cancelled server _ _ Hans).
Qed.
End SubPipelineRuns.

(** X11. The sub-pipeline of a perspective returns exactly when its four
    requests, issued one after the other on a run that stays active, are
    all answered: the result has no [error] and its four texts are the four
    answers in order (initial research, critical analysis, gaps,
    synthesis). *)
Theorem researchSinglePerspective_four_answers
        (server : nat -> Exchange) (clock : nat -> jsstring)
        (stringify : json -> jsstring)
        (perspective depth labelPrefix : jsstring) (w : World) :
  (forall r w',
      researchSinglePerspective server clock stringify
                                perspective depth labelPrefix w = (Ok r, w') ->
      exists c0 c1 c2 c3,
        answers server (requests w) c0
        /\ answers server (1 + requests w) c1
        /\ answers server (2 + requests w) c2
        /\ answers server (3 + requests w) c3
        /\ r = {| error_ := None; initial_research := c0;
                  critical_analysis := c1; identified_gaps := c2;
                  synthesis := c3 |}
        /\ requests w' = 4 + requests w
        /\ active (self w') = true)
  /\ (forall c0 c1 c2 c3,
         active (self w) = true ->
         answers server (requests w) c0 ->
         answers server (1 + requests w) c1 ->
         answers server (2 + requests w) c2 ->
         answers server (3 + requests w) c3 ->
         fst (researchSinglePerspective server clock stringify
                                        perspective depth labelPrefix w)
         = Ok {| error_ := None; initial_research := c0;
                 critical_analysis := c1; identified_gaps := c2;
                 synthesis := c3 |}).
Proof.
  split.
  - intros r w'. apply researchSinglePerspective_returns.
  - intros c0 c1 c2 c3 Hact A0 A1 A2 A3.
    destruct (researchSinglePerspective_run server clock stringify
                perspective depth labelPrefix w c0 c1 c2 c3 Hact A0 A1 A2 A3)
      as [w' ->].
    reflexivity.
Qed.

Lemma researchSinglePerspective_four_answers_witness :
  fst (researchSinglePerspective
         (fun n => Scenario.always (js "answer " ++ of_nat n) n)
         Scenario.clock Scenario.stringify
         Scenario.A (js "normal") (js "Perspective 1/1") Scenario.start)
  = Ok {| error_ := None; initial_research := js "answer 0";
          critical_analysis := js "answer 1"; identified_gaps := js "answer 2";
          synthesis := js "answer 3" |}.
Proof.
  apply (proj2 (researchSinglePerspective_four_answers
                  (fun n => Scenario.always (js "answer " ++ of_nat n) n)
                  Scenario.clock Scenario.stringify
                  Scenario.A (js "normal") (js "Perspective 1/1")
                  Scenario.start)
               (js "answer 0") (js "answer 1") (js "answer 2") (js "answer 3"));
    [ reflexivity | | | | ];
    (do 2 eexists; split; [reflexivity|]; split; [reflexivity|];
     split; reflexivity).
Defined.

(** X12. When the model's text is non-empty, [synthesizeFindings] returns
    it; when it is empty, it returns the fixed placeholder. *)
Theorem synthesizeFindings_text_or_placeholder
        (server : nat -> Exchange) (clock : nat -> jsstring)
        (stringify : json -> jsstring)
        (research : Obj.t PerspectiveResult) (topic_ : jsstring)
        (w : World) (c : jsstring) :
  active (self w) = true ->
  answers server (requests w) c ->
  exists text w',
    synthesizeFindings server clock stringify research topic_ w = (Ok text, w')
    /\ (c <> [] -> text = c)
    /\ (c = [] -> text = js "No synthesis returned by the model.").
Proof.
  intros Hact Hans.
  destruct (synthesizeFindings_run server clock stringify research topic_ w c
              Hact Hans) as [w' Hrun].
  eexists. exists w'. split; [exact Hrun|]. split.
  - intros Hc. destruct c; [contradiction | reflexivity].
  - intros ->. reflexivity.
Qed.

Lemma synthesizeFindings_text_or_placeholder_witness :
  exists text w',
    synthesizeFindings (Scenario.always []) Scenario.clock Scenario.stringify
                       [] Scenario.sleep Scenario.start
    = (Ok text, w')
    /\ (@nil N <> [] -> text = [])
    /\ (@nil N = [] -> text = js "No synthesis returned by the model.").
Proof.
  apply synthesizeFindings_text_or_placeholder.
  - reflexivity.
  - do 2 eexists. split; [reflexivity|]. split; [reflexivity|].
    split; reflexivity.
Defined.

(** ** What the parser returns *)

Lemma trimStart_head (s : jsstring) (c : N) (t : jsstring) :
  trimStart s = c :: t -> is_ws c = false.
Proof. apply drop_while_head. Qed.

Lemma trim_head (s : jsstring) (c : N) (t : jsstring) :
  trim s = c :: t -> is_ws c = false.
Proof.
  unfold trim. intros H.
  pose proof (trimEnd_prefix (trimStart s)) as Hp. rewrite H in Hp.
  cbn [app] in Hp. exact (trimStart_head s c _ Hp).
Qed.

Lemma trim_trim (s : jsstring) : trim (trim s) = trim s.
Proof.
  destruct (trim s) as [|c t] eqn:E; [reflexivity|].
  pose proof (trim_head s c t E) as Hc.
  pose proof (trim_ends s) as He. rewrite E in He.
  unfold trim, trimStart. cbn [drop_while]. rewrite Hc.
  now apply trimEnd_fixed.
Qed.

Lemma trim_truthy (s : jsstring) (c : N) (t : jsstring) :
  s = c :: t -> is_ws c = false -> truthy (trim s) = true.
Proof.
  intros -> Hc. destruct (trim (c :: t)) eqn:E; [|reflexivity].
  apply trim_nil_blank in E. cbn [forallb] in E. rewrite Hc in E.
  discriminate.
Qed.

Lemma matched_rest_head (t rest : jsstring) :
  ParserSpec.matched_rest t = Some rest ->
  exists c u, rest = c :: u /\ is_ws c = false.
Proof.
  unfold ParserSpec.matched_rest.
  destruct (take_while is_digit t) as [|d ds]; [discriminate|].
  destruct (drop_while is_digit t) as [|c u]; [discriminate|].
  destruct (is_dot_or_paren c); [|discriminate].
  destruct (drop_while is_ws u) as [|r rs] eqn:E; [discriminate|].
  destruct (forallb is_any (r :: rs)); [|discriminate].
  intros H. injection H as <-. exists r, rs. split; [reflexivity|].
  exact (drop_while_head is_ws u r rs E).
Qed.

Lemma parsePerspectives_items (raw p : jsstring) :
  In p (parsePerspectives raw) -> p <> [] /\ trim p = p.
Proof.
  rewrite parsePerspectives_matched.
  unfold ParserSpec.parse_matched, ParserSpec.parse_with.
  set (kept := flat_map _ (split_on LF raw)).
  assert (Hkept : forall q, In q kept -> q <> [] /\ trim q = q).
  { intros q Hq. subst kept. apply in_flat_map in Hq as (line & _ & Hq).
    destruct (ParserSpec.matched_rest (trim line)) as [rest|] eqn:Em;
      [|contradiction].
    destruct Hq as [<- | []].
    destruct (matched_rest_head _ _ Em) as (c & u & Hr & Hc).
    split; [|apply trim_trim].
    pose proof (trim_truthy rest c u Hr Hc) as Ht.
    intros E. rewrite E in Ht. discriminate. }
  destruct kept as [|k0 kept'] eqn:Ek.
  - intros Hp. apply filter_In in Hp as [Hp Ht].
    apply in_map_iff in Hp as (b & <- & _).
    split; [|apply trim_trim]. intros E. rewrite E in Ht. discriminate.
  - apply Hkept.
Qed.

(** X13. [parsePerspectives] never returns an empty or an untrimmed
    perspective: every element of its result is non-empty and has no
    whitespace at either end, on the numbered-list path and on the
    paragraph path alike. *)
Theorem parsePerspectives_clean (raw p : jsstring) :
  In p (parsePerspectives raw) -> p <> [] /\ trim p = p.
Proof. exact (parsePerspectives_items raw p). Qed.

Lemma parsePerspectives_clean_witness :
  js "B: y" <> [] /\ trim (js "B: y") = js "B: y".
Proof.
  apply (parsePerspectives_clean
           (js " 1)   A: x  " ++ [LF] ++ js "note" ++ [LF] ++ js "2. B: y ")).
  vm_compute. right. left. reflexivity.
Defined.

(** ** The deep-research map *)

Section Phase3Returns.
Variable server : nat -> Exchange.
Variable clock : nat -> jsstring.
Variable stringify : json -> jsstring.

Lemma try_catch_ok {A} (m : M A) (h : JsError -> M A) (w w' : World) (a : A) :
  try_catch m h w = (Ok a, w') ->
  m w = (Ok a, w') \/ exists e w1, m w = (Err e, w1) /\ h e w1 = (Ok a, w').
Proof.
  unfold try_catch. destruct (m w) as [[x | e] w1].
  - intros H. left. exact H.
  - intros H. right. now exists e, w1.
Qed.

Lemma deepResearch_loop_returns (ps : list jsstring) (depth : jsstring)
      (total : Z) (n : nat) :
  forall i acc w res w',
    i + n <= length ps ->
    deepResearch_loop server clock stringify ps depth total n i acc w
    = (Ok res, w') ->
    exists entries,
      map fst entries = firstn n (skipn i ps)
      /\ res = record_all entries acc
      /\ Forall (fun entry => well_formed_result (snd entry)) entries.
Proof.
  induction n as [|n IH]; intros i acc w res w' Hlen H.
  - cbn [deepResearch_loop] in H. unfold ret in H. injection H as <- _.
    exists []. repeat split. constructor.
  - cbn [deepResearch_loop] in H.
    apply bind_ok in H as (u & w1 & _ & H).
    apply bind_ok in H as (r & w2 & Htry & H).
    destruct (IH (S i) _ w2 res w' ltac:(lia) H) as (entries & Hm & Hres & Hwf).
    exists ((nth i ps [], r) :: entries).
    split; [|split].
    + rewrite (@skipn_cons_nth jsstring [] ps i) by lia.
      cbn [map fst firstn]. now rewrite Hm.
    + exact Hres.
    + constructor; [|exact Hwf]. cbn [snd].
      apply try_catch_ok in Htry as [Hok | (e & wf & Herr & Hh)].
      * left.
        destruct (researchSinglePerspective_returns server clock stringify
                    _ _ _ _ _ _ Hok) as (c0 & c1 & c2 & c3 & _ & _ & _ & _ & -> & _).
        reflexivity.
      * right. apply bind_ok in Hh as (u' & wl & _ & Hh).
        unfold ret in Hh. injection Hh as <- _.
        apply failed_result_flagged.
        exact (Raises_researchSinglePerspective server clock stringify
                 _ _ _ _ _ _ Herr).
Qed.

Lemma deepResearch_returns (ps : list jsstring) (depth : jsstring)
      (iterations : Z) (w w' : World) (results : Obj.t PerspectiveResult) :
  deepResearch server clock stringify ps depth iterations w = (Ok results, w') ->
  exists entries,
    map fst entries
    = firstn (Z.to_nat (Z.min (Z.of_nat (length ps)) iterations)) ps
    /\ results = record_all entries []
    /\ Forall (fun entry => well_formed_result (snd entry)) entries
    /\ active (self w') = true.
Proof.
  intros H. unfold deepResearch in H.
  apply bind_ok in H as (u & w0 & _ & H).
  apply bind_ok in H as (u1 & w1 & _ & H). cbv zeta in H.
  apply bind_ok in H as (res & w2 & Hloop & H).
  apply bind_ok in H as (u2 & w3 & Hlog & H).
  unfold ret in H. injection H as <- <-.
  apply log_ok in Hlog as [Hact ->].
  assert (Hlen : 0 + Z.to_nat (Z.min (Z.of_nat (length ps)) iterations)
                 <= length ps) by lia.
  destruct (deepResearch_loop_returns ps depth _ _ 0 [] w1 res w2 Hlen Hloop)
    as (entries & Hm & Hres & Hwf).
  exists entries. cbn [skipn] in Hm. auto.
Qed.
End Phase3Returns.

(** X14. Whenever [deepResearch] returns, the map it returns has an entry
    for every perspective it processed (the first min(len(perspectives),
    iterations), save one named [__proto__]) and for no other key; every
    entry is either a whole result without [error] or the failure marker;
    and the map has at most as many entries as perspectives were
    processed. *)
Theorem deepResearch_map_covers_processed
        (server : nat -> Exchange) (clock : nat -> jsstring)
        (stringify : json -> jsstring)
        (ps : list jsstring) (depth : jsstring) (iterations : Z)
        (w w' : World) (results : Obj.t PerspectiveResult) :
  deepResearch server clock stringify ps depth iterations w = (Ok results, w') ->
  let todo := firstn (Z.to_nat (Z.min (Z.of_nat (length ps)) iterations)) ps in
  (forall p, In p todo -> p <> PROTO -> exists r, Obj.get results p = Some r)
  /\ (forall k r, Obj.get results k = Some r ->
                  In k todo /\ well_formed_result r)
  /\ length results <= length todo.
Proof.
  intros H todo.
  destruct (deepResearch_returns server clock stringify ps depth iterations
              w w' results H) as (entries & Hm & -> & Hwf & _).
  fold todo in Hm. split; [|split].
  - intros p Hp Hproto. rewrite <- Hm in Hp.
    destruct (record_all_has entries [] p Hp Hproto) as (r & Hr & _).
    now exists r.
  - intros k r Hg.
    destruct (record_all_from entries [] k r Hg) as [Hnil | Hin]; [discriminate|].
    split.
    + rewrite <- Hm. apply in_map_iff. now exists (k, r).
    + rewrite Forall_forall in Hwf. exact (Hwf (k, r) Hin).
  - rewrite <- Hm, length_map. apply (record_all_length entries []).
Qed.

Lemma deepResearch_map_covers_processed_witness :
  let ps := [Scenario.A; PROTO; Scenario.A] in
  let out := deepResearch (Scenario.always (js "text")) Scenario.clock
                          Scenario.stringify ps (js "normal") 3
                          Scenario.start in
  let results := match fst out with Ok m => m | Err _ => [] end in
  let todo := firstn (Z.to_nat (Z.min (Z.of_nat (length ps)) 3)) ps in
  (forall p, In p todo -> p <> PROTO -> exists r, Obj.get results p = Some r)
  /\ (forall k r, Obj.get results k = Some r ->
                  In k todo /\ well_formed_result r)
  /\ length results <= length todo.
Proof.
  intros ps out results.
  apply (deepResearch_map_covers_processed
           (Scenario.always (js "text")) Scenario.clock Scenario.stringify
           ps (js "normal") 3 Scenario.start (snd out) results).
  vm_compute. reflexivity.
Defined.

(** ** The report of a completed workflow *)

Lemma or_else_nonempty (a b : jsstring) : b <> [] -> or_else a b <> [].
Proof. intros Hb. unfold or_else. destruct a; [exact Hb | discriminate]. Qed.

Lemma In_firstn {A} (n : nat) (l : list A) (x : A) :
  In x (firstn n l) -> In x l.
Proof.
  intros H. rewrite <- (firstn_skipn n l). apply in_or_app. now left.
Qed.

Lemma push_entry_last (entry : jsstring) (l : list jsstring) :
  last (push_entry entry l) [] = entry.
Proof.
  unfold push_entry.
  destruct (CONFIG.LOG_MAX_ENTRIES <? length (l ++ [entry])) eqn:E.
  - destruct l as [|x l]; [discriminate|].
    cbn [app tl]. apply last_last.
  - apply last_last.
Qed.

Lemma when_emit_ok (b : bool) (e : Effect) (w w' : World) (u : unit) :
  when b (emit e) w = (Ok u, w') ->
  self w' = self w /\ requests w' = requests w.
Proof. destruct b; intros H; inversion H; split; reflexivity. Qed.

Section WorkflowReturns.
Variable server : nat -> Exchange.
Variable clock : nat -> jsstring.
Variable stringify : json -> jsstring.

Lemma analyzeTopic_returns (topic_ : jsstring) (w w' : World)
      (ta : TopicAnalysis) :
  analyzeTopic server clock stringify topic_ w = (Ok ta, w') ->
  exists c,
    answers server (requests w) c
    /\ ta = {| analysis := or_else c (js "No analysis returned by the model.") |}.
Proof.
  intros H. unfold analyzeTopic in H.
  apply bind_ok in H as (u & w0 & He & H).
  apply ensureActive_ok in He as [_ ->].
  apply bind_ok in H as (u1 & w1 & Hl & H).
  apply log_ok in Hl as [_ ->]. cbv zeta in H.
  apply bind_ok in H as (c & w2 & Hc & H).
  apply callOpenRouter_returns in Hc as (_ & Hans & _).
  apply bind_ok in H as (u2 & w3 & _ & H).
  unfold ret in H. injection H as <- _.
  exists c. split; [exact Hans | reflexivity].
Qed.

Lemma synthesizeFindings_returns (research : Obj.t PerspectiveResult)
      (topic_ : jsstring) (w w' : World) (text : jsstring) :
  synthesizeFindings server clock stringify research topic_ w = (Ok text, w') ->
  exists c,
    answers server (requests w) c
    /\ text = or_else c (js "No synthesis returned by the model.").
Proof.
  intros H. unfold synthesizeFindings in H.
  apply bind_ok in H as (u & w0 & He & H).
  apply ensureActive_ok in He as [_ ->].
  apply bind_ok in H as (u1 & w1 & Hl & H).
  apply log_ok in Hl as [_ ->]. cbv zeta in H.
  apply bind_ok in H as (c & w2 & Hc & H).
  apply callOpenRouter_returns in Hc as (_ & Hans & _).
  apply bind_ok in H as (u2 & w3 & _ & H).
  unfold ret in H. injection H as <- _.
  exists c. split; [exact Hans | reflexivity].
Qed.
End WorkflowReturns.

(** X15. Whenever [conductResearch] returns, the run is still active and
    the report is whole: it carries the topic as given; a non-empty
    analysis and a non-empty synthesis; between one perspective and
    max(iterations, 3) of them, each non-empty and trimmed; a deep-research
    map whose keys are all among the perspectives and whose values are
    whole results or failure markers; and, as its log, the log of the run,
    whose last entry is the line of success. *)
Theorem conductResearch_report_is_whole
        (server : nat -> Exchange) (clock : nat -> jsstring)
        (stringify : json -> jsstring)
        (topic_ depth : jsstring) (iterations : Z)
        (w w' : World) (report : FinalReport) :
  conductResearch server clock stringify topic_ depth iterations w
  = (Ok report, w') ->
  topic report = topic_
  /\ analysis (topic_analysis report) <> []
  /\ synthesis_ report <> []
  /\ 1 <= length (perspectives report) <= Z.to_nat (Z.max iterations 3)
  /\ (forall p, In p (perspectives report) -> p <> [] /\ trim p = p)
  /\ (forall k r, Obj.get (deep_research report) k = Some r ->
                  In k (perspectives report) /\ well_formed_result r)
  /\ research_log report = researchLog (self w')
  /\ (exists t, last (research_log report) []
                = format_entry (clock t) info SUCCESS_MESSAGE)
  /\ active (self w') = true.
Proof.
  intros H. unfold conductResearch in H.
  apply bind_ok in H as (u0 & w0 & _ & H).
  apply bind_ok in H as (u1 & w1 & _ & H).
  apply bind_ok in H as (this & w2 & _ & H). cbv zeta in H.
  apply bind_ok in H as (u2 & w3 & _ & H).
  apply bind_ok in H as (ta & w4 & Hta & H).
  apply bind_ok in H as (u3 & w5 & _ & H).
  apply bind_ok in H as (u4 & w6 & _ & H).
  apply bind_ok in H as (ps & w7 & Hps & H).
  apply bind_ok in H as (u5 & w8 & _ & H).
  apply bind_ok in H as (u6 & w9 & _ & H).
  apply bind_ok in H as (dr & w10 & Hdr & H).
  apply bind_ok in H as (u7 & w11 & _ & H).
  apply bind_ok in H as (u8 & w12 & _ & H).
  apply bind_ok in H as (syn & w13 & Hsyn & H).
  apply bind_ok in H as (u9 & w14 & _ & H).
  apply bind_ok in H as (u10 & w15 & Hlog & H).
  apply bind_ok in H as (this' & w16 & Hself & H).
  unfold ret in H. injection H as <- <-.
  unfold get_self in Hself. injection Hself as <- <-.
  apply log_ok in Hlog as [Hact ->].
  apply analyzeTopic_returns in Hta as (c1 & _ & ->).
  apply synthesizeFindings_returns in Hsyn as (c4 & _ & ->).
  apply gatherPerspectives_returns in Hps as (raw & _ & Hne & ->).
  apply deepResearch_returns in Hdr as (entries & Hm & -> & Hwf & _).
  cbn [topic topic_analysis analysis synthesis_ perspectives deep_research
       research_log].
  split; [reflexivity|].
  split; [apply or_else_nonempty; discriminate|].
  split; [apply or_else_nonempty; discriminate|].
  split.
  { rewrite length_firstn.
    destruct (parsePerspectives raw) as [|p0 rest]; [contradiction|].
    cbn [length]. lia. }
  split.
  { intros p Hp. apply (parsePerspectives_items raw), (In_firstn _ _ _ Hp). }
  split.
  { intros k r Hg.
    destruct (record_all_from entries [] k r Hg) as [Hnil | Hin]; [discriminate|].
    split.
    - apply (In_firstn (Z.to_nat (Z.min (Z.of_nat (length
               (firstn (Z.to_nat (Z.max iterations 3)) (parsePerspectives raw))))
               iterations))).
      rewrite <- Hm. apply in_map_iff. now exists (k, r).
    - rewrite Forall_forall in Hwf. exact (Hwf (k, r) Hin). }
  split; [reflexivity|].
  split; [|exact Hact].
  exists (ticks w14). cbn [logged self researchLog set_researchLog].
  apply push_entry_last.
Qed.

Lemma conductResearch_report_is_whole_witness :
  let out := conductResearch (Scenario.always (js "1. Alpha: first angle"))
                             Scenario.clock Scenario.stringify
                             Scenario.sleep (js "normal") 3 Scenario.start in
  let report := match fst out with
                | Ok r => r
                | Err _ => mkReport [] {| analysis := [] |} [] [] [] []
                end in
  topic report = Scenario.sleep
  /\ analysis (topic_analysis report) <> []
  /\ synthesis_ report <> []
  /\ 1 <= length (perspectives report) <= Z.to_nat (Z.max 3 3)
  /\ (forall p, In p (perspectives report) -> p <> [] /\ trim p = p)
  /\ (forall k r, Obj.get (deep_research report) k = Some r ->
                  In k (perspectives report) /\ well_formed_result r)
  /\ research_log report = researchLog (self (snd out))
  /\ (exists t, last (research_log report) []
                = format_entry (Scenario.clock t) info SUCCESS_MESSAGE)
  /\ active (self (snd out)) = true.
Proof.
  intros out report.
  apply (conductResearch_report_is_whole
           (Scenario.always (js "1. Alpha: first angle"))
           Scenario.clock Scenario.stringify
           Scenario.sleep (js "normal") 3 Scenario.start (snd out) report).
  vm_compute. reflexivity.
Defined.

(** ** What no call changes *)

Lemma same_configuration_refl (w : World) : same_configuration w w.
Proof. repeat split. Qed.

Lemma same_configuration_trans (a b c : World) :
  same_configuration a b -> same_configuration b c -> same_configuration a c.
Proof.
  unfold same_configuration.
  intros (A1 & A2 & A3 & A4) (B1 & B2 & B3 & B4).
  repeat split; congruence.
Qed.

(** X16. No method of the run changes what the caller configured: after
    any sequence of calls ([cancel] included, whatever the service
    answers and whenever the host cancels), the credential, the model,
    the constraints and the observer callbacks are those given to the
    constructor. *)
Theorem configuration_never_changes
        (server : nat -> Exchange) (clock : nat -> jsstring)
        (stringify : json -> jsstring)
        (calls : list Call)
        (key model_ constraints_ : jsstring) (hooks : UiHooks) :
  let w := history server clock stringify calls
                   (fresh (constructor key model_ constraints_ hooks)) in
  apiKey (self w) = key
  /\ modelId (self w) = model_
  /\ constraints (self w) = constraints_
  /\ uiHooks (self w) = hooks.
Proof.
  apply (Keeps_history same_configuration same_configuration_refl
           same_configuration_trans server clock stringify).
  - intros e w. repeat split.
  - intros w. repeat split.
  - intros req w. unfold same_configuration, fetch. cbn [snd self].
    destruct (cancelled_in_flight (server (requests w))); repeat split.
  - intros entry w. repeat split.
  - intros w. repeat split.
Qed.

(** ** What the observers see *)

(** *** Relations kept by logging and by a request *)

Section OverLog.
Variable R : World -> World -> Prop.
Hypothesis R_refl : forall w, R w w.
Hypothesis R_trans : forall a b c, R a b -> R b c -> R a c.
Variable server : nat -> Exchange.
Variable clock : nat -> jsstring.
Variable stringify : json -> jsstring.
Hypothesis R_log : forall msg level, Keeps R (log clock msg level).
Hypothesis R_fetch : forall req, Keeps R (fetch server req).

Ltac over_step :=
  first [ simple apply (Keeps_ret R R_refl)
        | simple apply (Keeps_throw R R_refl)
        | simple apply (Keeps_lift R R_refl)
        | simple apply (Keeps_get_self R R_refl)
        | simple apply (Keeps_ensureActive R R_refl)
        | simple apply R_log | simple apply R_fetch
        | simple apply (Keeps_when R R_refl)
        | simple apply (Keeps_try_catch R R_trans); [|intro]
        | simple apply (Keeps_bind R R_trans); [|intro]
        | progress cbv zeta ].

Lemma Over_handle_fetch (label : jsstring) (r : FetchResult) :
  Keeps R (handle_fetch clock stringify label r).
Proof.
  unfold handle_fetch.
  destruct r as [name msg | response].
  - destruct (jsstring_eqb name (js "AbortError")); repeat over_step.
  - destruct (negb (ok response)); [|destruct (body response)];
      repeat over_step.
Qed.

Lemma Over_callOpenRouter (msgs : list Message) (opts : Options.t) :
  Keeps R (callOpenRouter server clock stringify msgs opts).
Proof.
  unfold callOpenRouter. destruct msgs;
    repeat first [ simple apply Over_handle_fetch | over_step ].
Qed.

Ltac over_calls :=
  repeat first [ simple apply Over_callOpenRouter | over_step ].

Lemma Over_analyzeTopic (topic_ : jsstring) :
  Keeps R (analyzeTopic server clock stringify topic_).
Proof. unfold analyzeTopic. over_calls. Qed.

Lemma Over_gatherPerspectives (topic_ : jsstring)
      (ta : option TopicAnalysis) (iterations : Z) :
  Keeps R (gatherPerspectives server clock stringify topic_ ta iterations).
Proof.
  unfold gatherPerspectives. over_calls.
  match goal with |- Keeps R (match ?x with _ => _ end) => destruct x end;
    over_calls.
Qed.

Lemma Over_researchSinglePerspective (perspective depth labelPrefix : jsstring) :
  Keeps R (researchSinglePerspective server clock stringify
                                     perspective depth labelPrefix).
Proof. unfold researchSinglePerspective. over_calls. Qed.

Lemma Over_deepResearch_loop (ps : list jsstring) (depth : jsstring)
      (total : Z) (n : nat) :
  forall i acc,
    Keeps R (deepResearch_loop server clock stringify ps depth total n i acc).
Proof.
  induction n as [|n IH]; intros i acc; cbn [deepResearch_loop].
  - over_calls.
  - repeat first [ simple apply Over_researchSinglePerspective
                 | simple apply IH | over_calls ].
Qed.

Lemma Over_deepResearch (ps : list jsstring) (depth : jsstring)
      (iterations : Z) :
  Keeps R (deepResearch server clock stringify ps depth iterations).
Proof.
  unfold deepResearch.
  repeat first [ simple apply Over_deepResearch_loop | over_calls ].
Qed.

Lemma Over_synthesizeFindings (research : Obj.t PerspectiveResult)
      (topic_ : jsstring) :
  Keeps R (synthesizeFindings server clock stringify research topic_).
Proof. unfold synthesizeFindings. over_calls. Qed.

(** With the notifications of the workflow kept too, every call keeps
    [R]. *)
Section OverWorkflow.
Hypothesis R_label : forall label, Keeps R (emit (OnPhaseLabel label)).
Hypothesis R_progress : forall i n, Keeps R (emit (OnPhaseProgress i n)).
Hypothesis R_cancel : forall w, R w (cancel w).

Lemma Over_conductResearch (topic_ depth : jsstring) (iterations : Z) :
  Keeps R (conductResearch server clock stringify topic_ depth iterations).
Proof.
  unfold conductResearch.
  repeat first [ simple apply Over_analyzeTopic
               | simple apply Over_gatherPerspectives
               | simple apply Over_deepResearch
               | simple apply Over_synthesizeFindings
               | simple apply R_label | simple apply R_progress
               | over_step ].
Qed.

Lemma Over_history (calls : list Call) :
  forall w, R w (history server clock stringify calls w).
Proof.
  unfold history.
  induction calls as [|c calls IH]; intros w; simpl.
  - apply R_refl.
  - eapply R_trans; [|apply IH].
    destruct c; cbn [world_after].
    + apply R_cancel.
    + apply R_log.
    + apply Over_callOpenRouter.
    + apply Over_analyzeTopic.
    + apply Over_gatherPerspectives.
    + apply Over_deepResearch.
    + apply Over_researchSinglePerspective.
    + apply Over_synthesizeFindings.
    + apply Over_conductResearch.
Qed.
End OverWorkflow.
End OverLog.

(** *** The log and the console *)

(** X17. The log of the run mirrors the console: after any sequence of
    calls on a run just constructed, [researchLog] holds the last 500
    lines written to the console, in order, and the [onLog] callback, when
    one was given, has received every line of the console, in order (none
    when it was not given). *)
Theorem researchLog_mirrors_console
        (server : nat -> Exchange) (clock : nat -> jsstring)
        (stringify : json -> jsstring)
        (calls : list Call)
        (key model_ constraints_ : jsstring) (hooks : UiHooks) :
  let w := history server clock stringify calls
                   (fresh (constructor key model_ constraints_ hooks)) in
  researchLog (self w)
  = keep_last CONFIG.LOG_MAX_ENTRIES (console_lines (effects w))
  /\ on_log_lines (effects w)
     = if onLog hooks then console_lines (effects w) else [].
Proof.
  intros w.
  assert (H : mirrored hooks w).
  { apply (Over_history mirror_kept mirror_kept_refl mirror_kept_trans
             server clock stringify).
    - intros msg level w0 hooks0 H0. rewrite log_run.
      destruct (active (self w0)); [|exact H0].
      now apply mirrored_logged.
    - intros req w0 hooks0.
      apply (mirrored_silent hooks0 w0 _ (Fetch req));
        try reflexivity; unfold fetch; cbn [snd self];
          destruct (cancelled_in_flight (server (requests w0))); reflexivity.
    - intros label w0 hooks0.
      apply (mirrored_silent hooks0 w0 _ (OnPhaseLabel label)); reflexivity.
    - intros i n w0 hooks0.
      apply (mirrored_silent hooks0 w0 _ (OnPhaseProgress i n)); reflexivity.
    - intros w0 hooks0 (H1 & H2 & H3). repeat split; assumption.
    - unfold mirrored. destruct (onLog hooks); repeat split. }
  destruct H as (_ & H2 & H3). split; assumption.
Qed.

(** *** Progress notifications *)

Lemma same_progress_refl (w : World) : same_progress w w.
Proof. reflexivity. Qed.

Lemma same_progress_trans (a b c : World) :
  same_progress a b -> same_progress b c -> same_progress a c.
Proof. unfold same_progress. congruence. Qed.

Lemma same_progress_log (clock : nat -> jsstring) (msg : jsstring)
      (level : Level) :
  Keeps same_progress (log clock msg level).
Proof.
  intros w. rewrite log_run.
  destruct (active (self w)); [|reflexivity].
  unfold same_progress, logged. cbn [snd effects].
  rewrite !progress_events_app.
  destruct (onLog (uiHooks (self w))), (onProgressText (uiHooks (self w)));
    cbn; now rewrite app_nil_r.
Qed.

Lemma same_progress_fetch (server : nat -> Exchange) (req : Request) :
  Keeps same_progress (fetch server req).
Proof.
  intros w. unfold same_progress, fetch. cbn [snd effects].
  rewrite progress_events_app. cbn. now rewrite app_nil_r.
Qed.

Lemma emits_quiet {A} (m : M A) (w : World) :
  same_progress w (snd (m w)) -> emits_in_order [] m w.
Proof.
  intros H. exists []. rewrite app_nil_r.
  split; [exact H|]. split; [now exists [] | reflexivity].
Qed.

Lemma emits_bind {A B} (l1 l2 : list (nat * nat)) (m : M A) (k : A -> M B)
      (w : World) :
  emits_in_order l1 m w ->
  (forall a w1, m w = (Ok a, w1) -> emits_in_order l2 (k a) w1) ->
  emits_in_order (l1 ++ l2) (bind m k) w.
Proof.
  intros (s1 & E1 & [r1 P1] & F1) Hk. unfold emits_in_order.
  rewrite bind_run. destruct (m w) as [[a | e] w1] eqn:Em; cbn [fst snd] in *.
  - destruct (Hk a w1 eq_refl) as (s2 & E2 & [r2 P2] & F2).
    rewrite (F1 a eq_refl) in E1.
    exists (l1 ++ s2). rewrite E2, E1, app_assoc.
    split; [reflexivity|]. split.
    + exists r2. now rewrite <- app_assoc, <- P2.
    + intros b Hb. now rewrite (F2 b Hb).
  - exists s1. split; [exact E1|]. split.
    + exists (r1 ++ l2). now rewrite app_assoc, <- P1.
    + discriminate.
Qed.

Lemma emits_label (b : bool) (label : jsstring) (w : World) :
  emits_in_order [] (when b (emit (OnPhaseLabel label))) w.
Proof.
  apply emits_quiet. unfold same_progress.
  destruct b; cbn; [|reflexivity].
  rewrite progress_events_app. cbn. now rewrite app_nil_r.
Qed.

Lemma emits_progress (b : bool) (i n : nat) (w : World) :
  emits_in_order (if b then [(i, n)] else [])
                 (when b (emit (OnPhaseProgress i n))) w.
Proof.
  destruct b.
  - exists [(i, n)]. cbn. rewrite progress_events_app.
    split; [reflexivity|]. split; [now exists [] | reflexivity].
  - apply emits_quiet. reflexivity.
Qed.

Lemma emits_eq {A} (l l' : list (nat * nat)) (m : M A) (w : World) :
  l = l' -> emits_in_order l m w -> emits_in_order l' m w.
Proof. now intros ->. Qed.

(** X18. The workflow notifies of progress in order and once per phase:
    whatever happens, the progress notifications of a call of
    [conductResearch] are a prefix of (1,4), (2,4), (3,4), (4,4) (none
    without an [onPhaseProgress] callback), and all four when the call
    returns. *)
Theorem conductResearch_progress_in_order
        (server : nat -> Exchange) (clock : nat -> jsstring)
        (stringify : json -> jsstring)
        (topic_ depth : jsstring) (iterations : Z) (w : World) :
  let out := conductResearch server clock stringify topic_ depth iterations w in
  let expected :=
    if onPhaseProgress (uiHooks (self w)) then ALL_PROGRESS else [] in
  exists shown,
    progress_events (effects (snd out)) = progress_events (effects w) ++ shown
    /\ (exists rest, expected = shown ++ rest)
    /\ (forall report, fst out = Ok report -> shown = expected).
Proof.
  intros out expected.
  change (emits_in_order expected
            (conductResearch server clock stringify topic_ depth iterations) w).
  set (quiet_log := fun msg level w0 =>
         emits_quiet _ w0 (same_progress_log clock msg level w0)).
  set (b := onPhaseProgress (uiHooks (self w))) in *.
  unfold conductResearch.
  apply (emits_eq ([] ++ [] ++ [] ++ [] ++ []
                   ++ (if b then [(1, 4)] else []) ++ [] ++ []
                   ++ (if b then [(2, 4)] else []) ++ [] ++ []
                   ++ (if b then [(3, 4)] else []) ++ [] ++ []
                   ++ (if b then [(4, 4)] else []) ++ [] ++ [] ++ []));
    [subst expected; destruct b; reflexivity|].
  apply emits_bind.
  { apply emits_quiet. unfold ensureActive.
    destruct (active (self w)); reflexivity. }
  intros u0 w0 E0. apply ensureActive_ok in E0 as [_ ->].
  apply emits_bind; [apply quiet_log|].
  intros u1 w1 E1. apply log_ok in E1 as [_ ->].
  apply emits_bind; [apply emits_quiet; reflexivity|].
  intros this w2 E2. unfold get_self in E2. injection E2 as <- <-.
  cbv zeta.
  change (uiHooks (self (logged clock
                                (js "Initializing full research workflow...")
                                info w)))
    with (uiHooks (self w)).
  fold b.
  apply emits_bind; [apply emits_label|]. intros _ w3 _.
  apply emits_bind.
  { apply emits_quiet.
    apply (Over_analyzeTopic same_progress same_progress_refl
             same_progress_trans server clock stringify
             (same_progress_log clock) (same_progress_fetch server)). }
  intros ta w4 _.
  apply emits_bind; [apply emits_progress|]. intros _ w5 _.
  apply emits_bind; [apply emits_label|]. intros _ w6 _.
  apply emits_bind.
  { apply emits_quiet.
    apply (Over_gatherPerspectives same_progress same_progress_refl
             same_progress_trans server clock stringify
             (same_progress_log clock) (same_progress_fetch server)). }
  intros ps w7 _.
  apply emits_bind; [apply emits_progress|]. intros _ w8 _.
  apply emits_bind; [apply emits_label|]. intros _ w9 _.
  apply emits_bind.
  { apply emits_quiet.
    apply (Over_deepResearch same_progress same_progress_refl
             same_progress_trans server clock stringify
             (same_progress_log clock) (same_progress_fetch server)). }
  intros dr w10 _.
  apply emits_bind; [apply emits_progress|]. intros _ w11 _.
  apply emits_bind; [apply emits_label|]. intros _ w12 _.
  apply emits_bind.
  { apply emits_quiet.
    apply (Over_synthesizeFindings same_progress same_progress_refl
             same_progress_trans server clock stringify
             (same_progress_log clock) (same_progress_fetch server)). }
  intros syn w13 _.
  apply emits_bind; [apply emits_progress|]. intros _ w14 _.
  apply emits_bind; [apply quiet_log|]. intros _ w15 _.
  apply emits_bind; [apply emits_quiet; reflexivity|]. intros this' w16 _.
  apply emits_quiet. reflexivity.
Qed.
